(** * grumpy-node: the file-management API of [app.js]

    A shallow embedding of the Express application of [src/app-js.js]:
    its five route handlers, the parts of Node's [path] and [fs] modules
    (and of [fs-extra]) they call, and the filesystem they act on.

    The handlers are written as programs over a small set of atomic
    filesystem steps, so that the same definition gives the sequential
    behaviour of a request, the state reached when a request is cut
    short, and the interleavings of two requests.

    The URLs that the client functions of [src/frontend-js.js] hand to
    [fetch] are modelled as well (module [Client]).

    Strings are carried as UTF-8 bytes, and what Node writes for a string
    and reads from a file is given by module [Utf8].  What
    [express.json()] and [upload.single('file')] do before a handler runs
    is modelled by its outcome ([App.receive]). *)

From Stdlib Require Import ZArith Ascii String List Lia DecimalString.
From stdpp Require Import gmap strings list fin_maps.

Local Open Scope Z_scope.
Set Warnings "-register-all".


(** ** JavaScript values *)

(** The values that reach the handlers (parsed JSON bodies, query
    parameters) and that they send back with [res.json].  Numbers are
    integral: the handlers test numbers for truthiness only, and the only
    numbers they produce are sizes.  A string is held as the bytes of its
    UTF-8 encoding, one [ascii] for each byte.  A JavaScript string can
    also hold a surrogate that is not half of a pair, which UTF-8 leaves
    out: it is held as the three bytes that the encoding scheme gives its
    code point ([ED A0..BF 80..BF]), so that every JavaScript string has
    one representation.  [Utf8] below gives what Node writes for a string
    and what it reads from bytes.  Paths are taken by their bytes: Node
    replaces a lone surrogate in a path by U+FFFD on the way to the system
    call, and paths that hold one are outside the model. *)
Inductive jsval : Type :=
| VUndefined
| VNull
| VBool (b : bool)
| VNum (n : Z)
| VStr (s : string)
| VDate (t : Z)
| VArr (l : list jsval)
| VObj (fields : list (string * jsval)).

(** [ToBoolean]: what [if (x)], [!x], [x ? a : b] and [x || y] test. *)
Definition truthy (v : jsval) : bool :=
  match v with
  | VUndefined | VNull => false
  | VBool b => b
  | VNum n => negb (n =? 0)
  | VStr s => negb (String.eqb s "")
  | VDate _ | VArr _ | VObj _ => true
  end.

(** [x || y] *)
Definition js_or (x y : jsval) : jsval := if truthy x then x else y.

(** ** Strings *)

Module Str.

Definition slash : ascii := "/"%char.
Definition nul : ascii := Ascii.zero.

(** [s.startsWith(search)] *)
Fixpoint startsWith (s search : string) : bool :=
  match search, s with
  | EmptyString, _ => true
  | String c search', String d s' => Ascii.eqb c d && startsWith s' search'
  | String _ _, EmptyString => false
  end.

(** [s.includes(sub)] *)
Fixpoint includes (s sub : string) : bool :=
  startsWith s sub ||
  match s with
  | EmptyString => false
  | String _ s' => includes s' sub
  end.

Fixpoint has_char (c : ascii) (s : string) : bool :=
  match s with
  | EmptyString => false
  | String d s' => Ascii.eqb c d || has_char c s'
  end.

(** [s.split(sep)] for a one-character separator *)
Fixpoint split (sep : ascii) (s : string) : list string :=
  match s with
  | EmptyString => [EmptyString]
  | String c s' =>
      if Ascii.eqb c sep then EmptyString :: split sep s'
      else match split sep s' with
           | seg :: rest => String c seg :: rest
           | [] => [String c EmptyString]
           end
  end.

(** [parts.join(sep)] *)
Fixpoint join (sep : string) (parts : list string) : string :=
  match parts with
  | [] => EmptyString
  | [p] => p
  | p :: rest => p +:+ sep +:+ join sep rest
  end.

Definition first_is (c : ascii) (s : string) : bool :=
  match s with
  | String d _ => Ascii.eqb c d
  | EmptyString => false
  end.

Fixpoint last_is (c : ascii) (s : string) : bool :=
  match s with
  | EmptyString => false
  | String d EmptyString => Ascii.eqb c d
  | String _ s' => last_is c s'
  end.

Definition rev (s : string) : string :=
  string_of_list_ascii (List.rev (list_ascii_of_string s)).

End Str.

(** ** UTF-8 *)

Module Utf8.

Definition byte (c : ascii) : nat := nat_of_ascii c.

Definition between (lo hi : nat) (c : ascii) : bool :=
  ((lo <=? byte c) && (byte c <=? hi))%nat.

(** U+FFFD, the replacement character: [EF BF BD] *)
Definition replacement : string :=
  String (ascii_of_nat 239) (String (ascii_of_nat 191) (String (ascii_of_nat 189) EmptyString)).

(** What a byte starts: a character of its own, a sequence that needs
    [needed] more bytes, the first of them between [lo] and [hi], or
    nothing. *)
Inductive start : Type :=
| Single
| Lead (needed lo hi : nat)
| Stray.

Definition classify (b : ascii) : start :=
  if (byte b <? 128)%nat then Single
  else if between 194 223 b then Lead 1 128 191
  else if (byte b =? 224)%nat then Lead 2 160 191
  else if (byte b =? 237)%nat then Lead 2 128 159
  else if between 225 239 b then Lead 2 128 191
  else if (byte b =? 240)%nat then Lead 3 144 191
  else if between 241 243 b then Lead 3 128 191
  else if (byte b =? 244)%nat then Lead 3 128 143
  else Stray.

(** [buffer.toString('utf8')]: the bytes are decoded as UTF-8, and every
    maximal part of an ill-formed sequence becomes U+FFFD.  The state is
    the sequence under way ([seen]), how many bytes it still needs, and
    the bounds on the next one. *)
Fixpoint decode_from (seen : string) (needed lo hi : nat) (s : string) : string :=
  match s with
  | EmptyString =>
      match needed with
      | O => EmptyString
      | S _ => replacement
      end
  | String b rest =>
      let fresh :=
        match classify b with
        | Single => String b (decode_from EmptyString 0 0 0 rest)
        | Lead n lo' hi' => decode_from (String b EmptyString) n lo' hi' rest
        | Stray => replacement +:+ decode_from EmptyString 0 0 0 rest
        end in
      match needed with
      | O => fresh
      | S n =>
          if between lo hi b then
            match n with
            | O => seen +:+ String b (decode_from EmptyString 0 0 0 rest)
            | S _ => decode_from (seen +:+ String b EmptyString) n 128 191 rest
            end
          else replacement +:+ fresh
      end
  end.

Definition decode (s : string) : string := decode_from EmptyString 0 0 0 s.

(** The bytes written for a string ([Buffer.from(s, 'utf8')]): its UTF-8
    encoding, in which a lone surrogate, held here as [ED A0..BF 80..BF],
    is replaced by U+FFFD. *)
Fixpoint encode (s : string) : string :=
  match s with
  | EmptyString => EmptyString
  | String a tail =>
      match tail with
      | String b (String c rest) =>
          if (byte a =? 237)%nat && between 160 191 b && between 128 191 c
          then replacement +:+ encode rest
          else String a (encode tail)
      | _ => String a (encode tail)
      end
  end.

(** [buffer.isUtf8]: a sequence of complete encodings (RFC 3629). *)
Fixpoint isUtf8 (s : string) : bool :=
  match s with
  | EmptyString => true
  | String a tail =>
      match classify a with
      | Single => isUtf8 tail
      | Stray => false
      | Lead n lo hi =>
          match n, tail with
          | 1%nat, String b r => between lo hi b && isUtf8 r
          | 2%nat, String b (String c r) =>
              between lo hi b && between 128 191 c && isUtf8 r
          | 3%nat, String b (String c (String d r)) =>
              between lo hi b && between 128 191 c && between 128 191 d && isUtf8 r
          | _, _ => false
          end
      end
  end.

End Utf8.

(** ** Node's [path] module (POSIX flavour) *)

Module Path.

(** One step of [normalizeString]: the segments kept so far are held
    in reverse.  Empty segments and [.] vanish; [..] removes the last
    kept segment, and is itself kept only above the start of a
    relative path. *)
Definition normalizeStep (allowAboveRoot : bool)
    (res : list string) (seg : string) : list string :=
  if String.eqb seg "" || String.eqb seg "." then res
  else if String.eqb seg ".." then
    match res with
    | last :: rest =>
        if String.eqb last ".."
        then (if allowAboveRoot then ".." :: res else res)
        else rest
    | [] => if allowAboveRoot then [".."] else []
    end
  else seg :: res.

Definition normalizeSegments (allowAboveRoot : bool) (p : string) : list string :=
  List.rev (fold_left (normalizeStep allowAboveRoot) (Str.split Str.slash p) []).

Definition normalizeString (p : string) (allowAboveRoot : bool) : string :=
  Str.join "/" (normalizeSegments allowAboveRoot p).

(** [path.normalize] *)
Definition normalize (p : string) : string :=
  if String.eqb p "" then "."
  else
    let isAbsolute := Str.first_is Str.slash p in
    let trailingSeparator := Str.last_is Str.slash p in
    let q := normalizeString p (negb isAbsolute) in
    if String.eqb q "" then
      (if isAbsolute then "/" else if trailingSeparator then "./" else ".")
    else
      let q := if trailingSeparator then q +:+ "/" else q in
      if isAbsolute then "/" +:+ q else q.

(** [path.join] on arguments already known to be strings: the
    non-empty ones are glued with [/] and the result is normalised. *)
Definition join (args : list string) : string :=
  match filter (fun a => a ≠ "") args with
  | [] => "."
  | parts => normalize (Str.join "/" parts)
  end.

(** [path.dirname]: scanning from the right and never looking at the
    first character, skip the trailing slashes, skip the last segment,
    and cut at the slash before it. *)
Fixpoint skip_slashes (r : string) : string :=
  match r with
  | String c r' => if Ascii.eqb c Str.slash then skip_slashes r' else r
  | EmptyString => EmptyString
  end.

Fixpoint after_slash (r : string) : option string :=
  match r with
  | String c r' => if Ascii.eqb c Str.slash then Some r' else after_slash r'
  | EmptyString => None
  end.

Definition dirname (p : string) : string :=
  match p with
  | EmptyString => "."
  | String c0 rest =>
      let hasRoot := Ascii.eqb c0 Str.slash in
      match after_slash (skip_slashes (Str.rev rest)) with
      | None => if hasRoot then "/" else "."
      | Some before =>
          if hasRoot && String.eqb before "" then "//"
          else String c0 (Str.rev before)
      end
  end.

(** [path.resolve(p)] against the working directory [cwd], as the list
    of its segments. *)
Definition resolveSegments (cwd p : string) : list string :=
  if Str.first_is Str.slash p then normalizeSegments false p
  else normalizeSegments false (cwd +:+ "/" +:+ p).

Fixpoint dropCommon (a b : list string) : list string * list string :=
  match a, b with
  | x :: a', y :: b' => if String.eqb x y then dropCommon a' b' else (a, b)
  | _, _ => (a, b)
  end.

(** [path.relative(from, to)]: climb out of what is left of [from]
    past the common ancestors, then descend into what is left of
    [to]. *)
Definition relative (cwd from to : string) : string :=
  let '(up, down) := dropCommon (resolveSegments cwd from) (resolveSegments cwd to) in
  Str.join "/" (List.map (fun _ => "..") up ++ down).

End Path.

(** ** Errors *)

Inductive errno : Type := ENOENT | ENOTDIR | EISDIR | EEXIST | ENOTEMPTY | EINVAL.

Definition errno_name (e : errno) : string :=
  match e with
  | ENOENT => "ENOENT" | ENOTDIR => "ENOTDIR" | EISDIR => "EISDIR"
  | EEXIST => "EEXIST" | ENOTEMPTY => "ENOTEMPTY" | EINVAL => "EINVAL"
  end.

Definition errno_text (e : errno) : string :=
  match e with
  | ENOENT => "no such file or directory"
  | ENOTDIR => "not a directory"
  | EISDIR => "illegal operation on a directory"
  | EEXIST => "file already exists"
  | ENOTEMPTY => "directory not empty"
  | EINVAL => "invalid argument"
  end.

(** What the handlers can catch: a failed system call (Node's
    [uvException]), the two argument checks of Node ([ERR_INVALID_ARG_TYPE],
    [ERR_INVALID_ARG_VALUE] for a path holding a null byte), and the plain
    [Error]s of fs-extra. *)
Inductive js_error : Type :=
| SystemError (code : errno) (syscall : string) (path : string) (dest : option string)
| InvalidArgType (name : string) (expected : string) (received : jsval)
| NullBytes (path : string)
| PlainError (msg : string).

(** ** The filesystem *)

(** A file holds bytes.  [fs.writeFile] encodes the string it is given
    and [fs.readFile(..., 'utf8')] decodes what it finds: see [Lib]. *)
Inductive node : Type :=
| File (content : string)
| Dir.

(** A tree is a finite map from absolute paths, given as their lists of
    segments, to nodes.  The root [[]] is a directory whether or not the
    map mentions it.  Symbolic links, permissions and devices are not part
    of the model.  Names are text: an entry whose name on disk is not
    UTF-8, which [readdir] would give with U+FFFD in it, is outside the
    model as well. *)
Abbreviation tree := (gmap (list string) node).

(** What is fixed when the process starts, and what the platform decides:
    the environment variable, the working directory, [util.inspect] (used
    by Node to print a rejected argument in an error message), and the
    metadata the operating system reports besides the size of a file. *)
Record host : Type := {
  env_FILES_DIR : option string;
  cwd : string;
  inspect : jsval -> string;
  dir_size : Z;
  mtime : tree -> list string -> Z
}.

Record Stats : Type := {
  isDirectory : bool;
  size : Z;
  mtimeMs : Z
}.

(** The atomic filesystem steps.  A descriptor is identified with the
    path it was opened on. *)
Inductive call : Type -> Type :=
| Stat (p : string) : call Stats
| Lstat (p : string) : call Stats
| Readdir (p : string) : call (list string)
| OpenW (p : string) : call (list string)
| Write (fd : list string) (pos : nat) (data : string) : call unit
| ReadFile (p : string) : call string
| Mkdirp (p : string) : call unit
| Rm (p : string) : call unit
| Rename (src dst : string) : call unit.

(** A program: a finite tree of filesystem steps, each followed by the
    synchronous JavaScript that runs once the step has settled. *)
Inductive prog (A : Type) : Type :=
| Ret (a : A)
| Throw (e : js_error)
| Op {B : Type} (c : call B) (k : js_error + B -> prog A).

Arguments Ret {A} a.
Arguments Throw {A} e.
Arguments Op {A B} c k.

Fixpoint bind {A B : Type} (p : prog A) (f : A -> prog B) : prog B :=
  match p with
  | Ret a => f a
  | Throw e => Throw e
  | Op c k => Op c (fun r => bind (k r) f)
  end.

(** [try { p } catch (error) { handler(error) }] *)
Fixpoint try_catch {A : Type} (p : prog A) (handler : js_error -> prog A) : prog A :=
  match p with
  | Ret a => Ret a
  | Throw e => handler e
  | Op c k => Op c (fun r => try_catch (k r) handler)
  end.

(** [await] of one filesystem step: a rejection is thrown. *)
Definition await {B : Type} (c : call B) : prog B :=
  Op c (fun r => match r with inl e => Throw e | inr b => Ret b end).

Declare Scope prog_scope.
Delimit Scope prog_scope with prog.
Notation "x <- p ;; q" := (bind p (fun x => q))
  (at level 100, p at next level, right associativity) : prog_scope.
Notation "p ;; q" := (bind p (fun _ => q))
  (at level 100, right associativity) : prog_scope.

Fixpoint mapM {A B : Type} (f : A -> prog B) (l : list A) : prog (list B) :=
  match l with
  | [] => Ret []
  | x :: l' => (y <- f x ;; ys <- mapM f l' ;; Ret (y :: ys))%prog
  end.

(** ** What the filesystem steps do *)

Module Fs.

Section WithHost.

Variable h : host.

(** The absolute segments a path string names ([..] is taken lexically;
    the paths the handlers pass have been normalised by [path.join]). *)
Definition key (p : string) : list string := Path.resolveSegments (cwd h) p.

Definition node_at (t : tree) (k : list string) : option node :=
  match k with
  | [] => Some Dir
  | _ => t !! k
  end.

(** The proper prefixes of a key, from the root down. *)
Fixpoint ancestors (k : list string) : list (list string) :=
  match k with
  | [] => []
  | x :: k' => [] :: List.map (cons x) (ancestors k')
  end.

(** The first ancestor that cannot be traversed decides the error. *)
Fixpoint blocked (t : tree) (ps : list (list string)) : option errno :=
  match ps with
  | [] => None
  | p :: ps' =>
      match node_at t p with
      | Some Dir => blocked t ps'
      | Some (File _) => Some ENOTDIR
      | None => Some ENOENT
      end
  end.

(** Path resolution: the key and what lies there, if the way to it is
    made of directories.  A trailing slash asks for a directory. *)
Definition lookup_path (t : tree) (p : string) : errno + (list string * option node) :=
  if String.eqb p "" then inl ENOENT
  else
    let k := key p in
    match blocked t (ancestors k) with
    | Some e => inl e
    | None =>
        match node_at t k with
        | Some (File c) =>
            if Str.last_is Str.slash p then inl ENOTDIR else inr (k, Some (File c))
        | o => inr (k, o)
        end
    end.

Definition stats_of (t : tree) (k : list string) (n : node) : Stats :=
  match n with
  | File c => {| isDirectory := false; size := Z.of_nat (String.length c);
                 mtimeMs := mtime h t k |}
  | Dir => {| isDirectory := true; size := dir_size h; mtimeMs := mtime h t k |}
  end.

Definition stat_as (syscall : string) (t : tree) (p : string) : js_error + Stats :=
  match lookup_path t p with
  | inl e => inl (SystemError e syscall p None)
  | inr (k, None) => inl (SystemError ENOENT syscall p None)
  | inr (k, Some n) => inr (stats_of t k n)
  end.

(** The name of [k'] when it is an entry of the directory [k]. *)
Fixpoint child_of (k k' : list string) : option string :=
  match k, k' with
  | [], [n] => Some n
  | x :: k0, y :: k0' => if String.eqb x y then child_of k0 k0' else None
  | _, _ => None
  end.

Definition children (t : tree) (k : list string) : list string :=
  omap (fun e => child_of k e.1) (map_to_list t).

Fixpoint is_under (k k' : list string) : bool :=
  match k, k' with
  | [], _ => true
  | x :: k0, y :: k0' => String.eqb x y && is_under k0 k0'
  | _ :: _, [] => false
  end.

(** The tree without [k] and everything below it. *)
Definition prune (t : tree) (k : list string) : tree :=
  filter (fun e => is_under k e.1 = false) t.

(** The nodes at and below [src], moved to [dst]. *)
Definition graft (t : tree) (src dst : list string) : tree :=
  list_to_map
    (omap (fun e => if is_under src e.1
                    then Some (dst ++ drop (length src) e.1, e.2)
                    else None)
          (map_to_list t)).

(** [data] written at byte [pos] of [c]. *)
Definition overlay (c : string) (pos : nat) (data : string) : string :=
  let head := String.substring 0 pos c in
  let gap := string_of_list_ascii (repeat Str.nul (pos - String.length head)) in
  let after := (pos + String.length data)%nat in
  head +:+ gap +:+ data +:+ String.substring after (String.length c - after) c.

(** [mkdir -p]: every missing directory on the way is created; a file
    on the way refuses. *)
Fixpoint mkdirs (t : tree) (ps : list (list string)) : errno + tree :=
  match ps with
  | [] => inr t
  | p :: ps' =>
      match node_at t p with
      | Some Dir => mkdirs t ps'
      | Some (File _) => inl (match ps' with [] => EEXIST | _ => ENOTDIR end)
      | None => mkdirs (<[p := Dir]> t) ps'
      end
  end.

Definition rename (t : tree) (src dst : string) : js_error + tree :=
  let fail e := inl (SystemError e "rename" src (Some dst)) in
  match lookup_path t src, lookup_path t dst with
  | inl e, _ | _, inl e => fail e
  | inr (_, None), _ => fail ENOENT
  | inr (ks, Some (File c)), inr (kd, d) =>
      match d with
      | Some Dir => fail EISDIR
      | _ => if Str.last_is Str.slash dst then fail ENOTDIR
             else inr (<[kd := File c]> (delete ks t))
      end
  | inr (ks, Some Dir), inr (kd, d) =>
      if bool_decide (ks = kd) then inr t
      else if is_under ks kd then fail EINVAL
      else match d with
           | Some (File _) => fail ENOTDIR
           | Some Dir =>
               match children t kd with
               | [] => inr (graft t ks kd ∪ prune t ks)
               | _ => fail ENOTEMPTY
               end
           | None => inr (graft t ks kd ∪ prune t ks)
           end
  end.

(** Nothing lies at [p]. *)
Definition missing (t : tree) (p : string) : bool :=
  match lookup_path t p with
  | inl ENOENT => true
  | inr (_, None) => true
  | _ => false
  end.

(** One atomic step on the tree. *)
Definition exec {B : Type} (c : call B) (t : tree) : (js_error + B) * tree :=
  match c in call B return (js_error + B) * tree with
  | Stat p => (stat_as "stat" t p, t)
  | Lstat p => (stat_as "lstat" t p, t)
  | Readdir p =>
      match lookup_path t p with
      | inl e => (inl (SystemError e "scandir" p None), t)
      | inr (k, Some Dir) => (inr (children t k), t)
      | inr (k, Some (File _)) => (inl (SystemError ENOTDIR "scandir" p None), t)
      | inr (k, None) => (inl (SystemError ENOENT "scandir" p None), t)
      end
  | OpenW p =>
      (* open(p, O_WRONLY | O_CREAT | O_TRUNC) *)
      match lookup_path t p with
      | inl e => (inl (SystemError e "open" p None), t)
      | inr (k, Some Dir) => (inl (SystemError EISDIR "open" p None), t)
      | inr (k, Some (File _)) => (inr k, <[k := File ""]> t)
      | inr (k, None) =>
          if Str.last_is Str.slash p then (inl (SystemError EISDIR "open" p None), t)
          else (inr k, <[k := File ""]> t)
      end
  | Write fd pos data =>
      match t !! fd with
      | Some (File c) => (inr tt, <[fd := File (overlay c pos data)]> t)
      | _ => (inr tt, t)
      end
  | ReadFile p =>
      match lookup_path t p with
      | inl e => (inl (SystemError e "open" p None), t)
      | inr (k, Some (File c)) => (inr c, t)
      | inr (k, Some Dir) => (inl (SystemError EISDIR "read" p None), t)
      | inr (k, None) => (inl (SystemError ENOENT "open" p None), t)
      end
  | Mkdirp p =>
      let k := key p in
      match mkdirs t (ancestors k ++ [k]) with
      | inl e => (inl (SystemError e "mkdir" p None), t)
      | inr t' => (inr tt, t')
      end
  | Rm p =>
      (* rm -rf: a missing target is not an error *)
      match lookup_path t p with
      | inl ENOENT => (inr tt, t)
      | inl e => (inl (SystemError e "lstat" p None), t)
      | inr (k, None) => (inr tt, t)
      | inr (k, Some _) => (inr tt, prune t k)
      end
  | Rename src dst =>
      match rename t src dst with
      | inl e => (inl e, t)
      | inr t' => (inr tt, t')
      end
  end.

End WithHost.

End Fs.

(** ** Running programs *)

(** A filesystem step, whatever it returns. *)
Inductive event : Type :=
| Event {B : Type} (c : call B).

Section Running.

Variable h : host.

(** A request handled alone, from start to end. *)
Fixpoint run {A : Type} (p : prog A) (t : tree) : (js_error + A) * tree :=
  match p with
  | Ret a => (inr a, t)
  | Throw e => (inl e, t)
  | Op c k => let '(r, t') := Fs.exec h c t in run (k r) t'
  end.

(** One filesystem step and the JavaScript that follows it. *)
Definition step {A : Type} (p : prog A) (t : tree) : prog A * tree :=
  match p with
  | Op c k => let '(r, t') := Fs.exec h c t in (k r, t')
  | _ => (p, t)
  end.

(** The first [n] steps only: a request cut short. *)
Fixpoint run_steps {A : Type} (n : nat) (p : prog A) (t : tree) : prog A * tree :=
  match n with
  | O => (p, t)
  | S n' => let '(p', t') := step p t in run_steps n' p' t'
  end.

(** Two requests in flight: the schedule says whose step comes next
    ([true] for the first). *)
Fixpoint interleave {A : Type} (schedule : list bool) (p q : prog A) (t : tree)
  : prog A * prog A * tree :=
  match schedule with
  | [] => (p, q, t)
  | true :: s => let '(p', t') := step p t in interleave s p' q t'
  | false :: s => let '(q', t') := step q t in interleave s p q' t'
  end.

(** The filesystem steps a program issues when run on [t], in order. *)
Fixpoint trace {A : Type} (p : prog A) (t : tree) : list event :=
  match p with
  | Op c k => let '(r, t') := Fs.exec h c t in Event c :: trace (k r) t'
  | _ => []
  end.

End Running.

Definition settled {A : Type} (p : prog A) : option (js_error + A) :=
  match p with
  | Ret a => Some (inr a)
  | Throw e => Some (inl e)
  | Op _ _ => None
  end.

(** ** Error messages *)

Definition dquote : string := String (Ascii.ascii_of_nat 34) EmptyString.

Definition typeof (v : jsval) : string :=
  match v with
  | VUndefined => "undefined"
  | VBool _ => "boolean"
  | VNum _ => "number"
  | VStr _ => "string"
  | VNull | VDate _ | VArr _ | VObj _ => "object"
  end.

Definition truncated (limit keep : nat) (s : string) : string :=
  if (limit <? String.length s)%nat then String.substring 0 keep s +:+ "..." else s.

Section Messages.

Variable h : host.

(** Node's [determineSpecificType] *)
Definition specificType (v : jsval) : string :=
  match v with
  | VUndefined => "undefined"
  | VNull => "null"
  | VDate _ => "an instance of Date"
  | VArr _ => "an instance of Array"
  | VObj _ => "an instance of Object"
  | _ => "type " +:+ typeof v +:+ " (" +:+ truncated 28 25 (inspect h v) +:+ ")"
  end.

(** [error.message] *)
Definition message (e : js_error) : string :=
  match e with
  | SystemError code syscall path dest =>
      errno_name code +:+ ": " +:+ errno_text code +:+ ", " +:+ syscall
      +:+ " '" +:+ path +:+ "'"
      +:+ match dest with Some d => " -> '" +:+ d +:+ "'" | None => "" end
  | InvalidArgType name expected received =>
      "The " +:+ dquote +:+ name +:+ dquote +:+ " argument must be " +:+ expected
      +:+ ". Received " +:+ specificType received
  | NullBytes p =>
      "The argument 'path' must be a string or Uint8Array without null bytes. Received "
      +:+ truncated 128 128 (inspect h (VStr p))
  | PlainError m => m
  end.

End Messages.

(** ** The library calls of the handlers *)

Module Lib.

(** Every [fs] function checks its path argument before it does
    anything ([getValidatedPath]). *)
Definition validated {B : Type} (p : string) (k : prog B) : prog B :=
  if Str.has_char Str.nul p then Throw (NullBytes p) else k.

Definition stat (p : string) : prog Stats := validated p (await (Stat p)).
Definition readdir (p : string) : prog (list string) := validated p (await (Readdir p)).

(** [fs.readFile(path, 'utf8')]: the bytes of the file, decoded. *)
Definition readFile_utf8 (p : string) : prog string :=
  validated p (bytes <- await (ReadFile p) ;; Ret (Utf8.decode bytes))%prog.

(** [fs.writeFile(path, data)]: the data is checked, the target is
    opened with flag ['w'], which creates or truncates it, and the
    bytes of the string's UTF-8 encoding are then written to the
    descriptor. *)
Definition writeFile (p : string) (data : jsval) : prog unit :=
  match data with
  | VStr s =>
      validated p (fd <- await (OpenW p) ;; await (Write fd 0 (Utf8.encode s)))%prog
  | _ =>
      Throw (InvalidArgType "data"
               "of type string or an instance of Buffer, TypedArray, or DataView" data)
  end.

(** fs-extra [ensureDir]: [fs.mkdir] with [recursive: true] *)
Definition ensureDir (p : string) : prog unit := validated p (await (Mkdirp p)).

(** fs-extra [remove]: [fs.rm] with [recursive: true, force: true] *)
Definition remove (p : string) : prog unit := validated p (await (Rm p)).

(** [path.join(...args)]: every argument must be a string. *)
Fixpoint strings_of (args : list jsval) : js_error + list string :=
  match args with
  | [] => inr []
  | VStr s :: rest =>
      match strings_of rest with
      | inr l => inr (s :: l)
      | inl e => inl e
      end
  | v :: _ => inl (InvalidArgType "path" "of type string" v)
  end.

Definition path_join (args : list jsval) : prog string :=
  match strings_of args with
  | inr l => Ret (Path.join l)
  | inl e => Throw e
  end.

Section Move.

Variable h : host.

(** fs-extra [move(src, dest, { overwrite })] on one device: both ends
    are examined, the parent of the destination is created, the
    destination is removed when overwriting, and the source is
    renamed. *)
Definition move (src dest : string) (overwrite : bool) : prog unit :=
  (srcStat <- validated src (await (Lstat src)) ;;
   destStat <- validated dest
     (Op (Lstat dest) (fun r =>
        match r with
        | inr s => Ret (Some s)
        | inl (SystemError ENOENT _ _ _) => Ret None
        | inl e => Throw e
        end)) ;;
   let rename := await (Rename src dest) in
   let proceed :=
     (if String.eqb (Path.dirname dest) "/" then Ret tt
      else ensureDir (Path.dirname dest)) ;;
     if overwrite then (remove dest ;; rename)
     else
       Op (Lstat dest) (fun r =>
         match r with
         | inr _ => Throw (PlainError "dest already exists.")
         | inl _ => rename
         end) in
   let subdir :=
     isDirectory srcStat &&
     Fs.is_under (Fs.key h src) (Fs.key h dest) &&
     negb (bool_decide (Fs.key h src = Fs.key h dest)) in
   match destStat with
   | Some d =>
       if bool_decide (Fs.key h src = Fs.key h dest)
       then Throw (PlainError "Source and destination must not be the same.")
       else if isDirectory srcStat && negb (isDirectory d)
       then Throw (PlainError ("Cannot overwrite non-directory '" +:+ dest
                               +:+ "' with directory '" +:+ src +:+ "'."))
       else if negb (isDirectory srcStat) && isDirectory d
       then Throw (PlainError ("Cannot overwrite directory '" +:+ dest
                               +:+ "' with non-directory '" +:+ src +:+ "'."))
       else if subdir
       then Throw (PlainError ("Cannot move '" +:+ src
                               +:+ "' to a subdirectory of itself, '" +:+ dest +:+ "'."))
       else proceed
   | None =>
       if subdir
       then Throw (PlainError ("Cannot move '" +:+ src
                               +:+ "' to a subdirectory of itself, '" +:+ dest +:+ "'."))
       else proceed
   end)%prog.

End Move.

End Lib.

(** ** Requests and responses *)

(** What multer leaves in [req.file] after it has stored an upload under
    [uploads/]. *)
Record upload : Type := {
  originalname : string;
  upload_path : string
}.

Record request : Type := {
  query : jsval;
  body : jsval;
  file : option upload
}.

Record response : Type := {
  status : Z;
  sent : jsval
}.

(** [o.name], and what destructuring [{ name } = o] binds. *)
Fixpoint field (fields : list (string * jsval)) (name : string) : jsval :=
  match fields with
  | [] => VUndefined
  | (n, v) :: rest => if String.eqb n name then v else field rest name
  end.

Definition prop (o : jsval) (name : string) : jsval :=
  match o with
  | VObj fields => field fields name
  | _ => VUndefined
  end.

(** [res.status(code).json(v)] and [res.json(v)] *)
Definition status_json (code : Z) (v : jsval) : response := {| status := code; sent := v |}.
Definition json (v : jsval) : response := status_json 200 v.

(** ** The application: [app.js] *)

Module App.

Section Handlers.

Variable h : host.

(** [const FILES_DIR = process.env.FILES_DIR || '/var/www/html'] *)
Definition FILES_DIR : string :=
  match env_FILES_DIR h with
  | Some (String c s) => String c s
  | _ => "/var/www/html"
  end.

Definition error_body (msg : string) : jsval := VObj [("error", VStr msg)].

(** [catch (error) { res.status(500).json({ error: error.message }) }] *)
Definition catch_500 (error : js_error) : prog response :=
  Ret (status_json 500 (error_body (message h error))).

(** Each handler is a [try] block and the [catch] above.  The block is
    given a name of its own, [..._try], so that properties can speak of
    what it throws. *)

(** [app.get('/api/files', ...)].  The [stat]s that [Promise.all]
    waits for are issued in the order of the listing and taken here one
    after the other. *)
Abbreviation get_api_files_try req :=
  (dirPath <- (if truthy (prop (query req) "path")
               then Lib.path_join [VStr FILES_DIR; prop (query req) "path"]
               else Ret FILES_DIR) ;;
   if negb (Str.startsWith dirPath FILES_DIR)
   then Ret (status_json 403 (error_body "Access denied"))
   else
     files <- Lib.readdir dirPath ;;
     fileDetails <- mapM (fun file =>
         filePath <- Lib.path_join [VStr dirPath; VStr file] ;;
         stats <- Lib.stat filePath ;;
         Ret (VObj [("name", VStr file);
                    ("path", VStr (Path.relative (cwd h) FILES_DIR filePath));
                    ("isDirectory", VBool (isDirectory stats));
                    ("size", VNum (size stats));
                    ("modified", VDate (mtimeMs stats))])) files ;;
     Ret (json (VArr fileDetails)))%prog.

Definition get_api_files (req : request) : prog response :=
  try_catch (get_api_files_try req) catch_500.

(** [app.get('/api/files/content', ...)] *)
Abbreviation get_api_files_content_try req :=
  (if negb (truthy (prop (query req) "path"))
   then Ret (status_json 400 (error_body "File path is required"))
   else
     filePath <- Lib.path_join [VStr FILES_DIR; prop (query req) "path"] ;;
     if negb (Str.startsWith filePath FILES_DIR)
     then Ret (status_json 403 (error_body "Access denied"))
     else
       stats <- Lib.stat filePath ;;
       if isDirectory stats
       then Ret (status_json 400 (error_body "Path points to a directory, not a file"))
       else
         content <- Lib.readFile_utf8 filePath ;;
         Ret (json (VObj [("content", VStr content)])))%prog.

Definition get_api_files_content (req : request) : prog response :=
  try_catch (get_api_files_content_try req) catch_500.

(** [app.post('/api/files', ...)] *)
Abbreviation post_api_files_try req :=
  (let filePath := prop (body req) "filePath" in
   let content := prop (body req) "content" in
   if negb (truthy filePath)
   then Ret (status_json 400 (error_body "File path is required"))
   else
     fullPath <- Lib.path_join [VStr FILES_DIR; filePath] ;;
     if negb (Str.startsWith fullPath FILES_DIR)
     then Ret (status_json 403 (error_body "Access denied"))
     else
       Lib.ensureDir (Path.dirname fullPath) ;;
       Lib.writeFile fullPath (js_or content (VStr "")) ;;
       Ret (json (VObj [("success", VBool true); ("path", filePath)])))%prog.

Definition post_api_files (req : request) : prog response :=
  try_catch (post_api_files_try req) catch_500.

(** [app.delete('/api/files', ...)] *)
Abbreviation delete_api_files_try req :=
  (let filePath := prop (query req) "path" in
   if negb (truthy filePath)
   then Ret (status_json 400 (error_body "File path is required"))
   else
     fullPath <- Lib.path_join [VStr FILES_DIR; filePath] ;;
     if negb (Str.startsWith fullPath FILES_DIR)
     then Ret (status_json 403 (error_body "Access denied"))
     else
       Lib.remove fullPath ;;
       Ret (json (VObj [("success", VBool true)])))%prog.

Definition delete_api_files (req : request) : prog response :=
  try_catch (delete_api_files_try req) catch_500.

(** [app.post('/api/upload', upload.single('file'), ...)] *)
Abbreviation post_api_upload_try req :=
  (match file req with
   | None => Ret (status_json 400 (error_body "No file uploaded"))
   | Some f =>
       let targetDir := js_or (prop (body req) "path") (VStr "") in
       targetPath <- Lib.path_join [VStr FILES_DIR; targetDir; VStr (originalname f)] ;;
       if negb (Str.startsWith targetPath FILES_DIR)
       then Ret (status_json 403 (error_body "Access denied"))
       else
         Lib.ensureDir (Path.dirname targetPath) ;;
         Lib.move h (upload_path f) targetPath true ;;
         Ret (json (VObj [("success", VBool true);
                          ("path", VStr (Path.relative (cwd h) FILES_DIR targetPath))]))
   end)%prog.

Definition post_api_upload (req : request) : prog response :=
  try_catch (post_api_upload_try req) catch_500.

(** The routes of the application. *)
Inductive endpoint : Type :=
  | GET_api_files
  | GET_api_files_content
  | POST_api_files
  | DELETE_api_files
  | POST_api_upload.

Definition route (ep : endpoint) : request -> prog response :=
  match ep with
  | GET_api_files => get_api_files
  | GET_api_files_content => get_api_files_content
  | POST_api_files => post_api_files
  | DELETE_api_files => delete_api_files
  | POST_api_upload => post_api_upload
  end.

(** The [try] block of each route: what runs before the [catch]. *)
Definition attempt (ep : endpoint) (req : request) : prog response :=
  match ep with
  | GET_api_files => get_api_files_try req
  | GET_api_files_content => get_api_files_content_try req
  | POST_api_files => post_api_files_try req
  | DELETE_api_files => delete_api_files_try req
  | POST_api_upload => post_api_upload_try req
  end.

(** A request served alone on the tree [t]: what is sent, or the error
    that escaped the handler, and the tree left behind. *)
Definition serve (ep : endpoint) (req : request) (t : tree)
  : (js_error + response) * tree :=
  run h (route ep req) t.

(** *** Before the handler: [express.json()] and [upload.single('file')]

    [app.use(express.json())] reads the body of every request that
    announces JSON before any route is tried, and
    [upload.single('file')], on the upload route only, reads a multipart
    body and stores the file it is sent.  Both are library code; what is
    modelled is what they leave for the handler, or that they refuse the
    request.  A refusal is passed to [next], and as [app.js] registers no
    error-handling middleware, Express's own answers it: with the status
    of the error, or 500 when it has none, and an HTML page.  [cors()]
    only adds headers, which are not modelled. *)

(** Why [express.json()] refuses a body: text that is not JSON, or that
    is neither an object nor an array (400); more than 100kb (413); a
    character set or a content encoding it does not take (415). *)
Inductive refusal : Type :=
  | ParseFailed
  | TooLarge
  | Unsupported.

Definition refusal_status (why : refusal) : Z :=
  match why with
  | ParseFailed => 400
  | TooLarge => 413
  | Unsupported => 415
  end.

(** The body of a request as the middleware finds it: JSON that parses
    to a value, JSON that is refused, a multipart form with its text
    fields and the file that multer stored from the field [file] if there
    was one, a multipart form that multer fails on (a file in another
    field, a body cut short), or anything else, a missing body
    included. *)
Inductive payload : Type :=
  | Json (v : jsval)
  | BadJson (why : refusal)
  | Form (fields : list (string * jsval)) (f : option upload)
  | BadForm
  | Other.

(** [req.body] after [express.json()], or its refusal.  A request it
    does not parse has the body [{}]. *)
Definition express_json (p : payload) : refusal + jsval :=
  match p with
  | Json v => inr v
  | BadJson why => inl why
  | Form _ _ | BadForm | Other => inr (VObj [])
  end.

(** [req.body] and [req.file] after [upload.single('file')], or [None]
    when multer fails.  A request that is not multipart is passed on as
    it is. *)
Definition upload_single (p : payload) (body : jsval) : option (jsval * option upload) :=
  match p with
  | Form fields f => Some (VObj fields, f)
  | BadForm => None
  | Json _ | BadJson _ | Other => Some (body, None)
  end.

(** The request that reaches the handler of a route, or the status of
    the error that a middleware passed on. *)
Definition incoming (ep : endpoint) (q : jsval) (p : payload) : Z + request :=
  match express_json p with
  | inl why => inl (refusal_status why)
  | inr b =>
      match ep with
      | POST_api_upload =>
          match upload_single p b with
          | None => inl 500
          | Some (b', f) => inr {| query := q; body := b'; file := f |}
          end
      | _ => inr {| query := q; body := b; file := None |}
      end
  end.

(** What the client is sent: the JSON of a handler, or the HTML page of
    Express's error handler with its status. *)
Inductive reply : Type :=
  | Answer (r : response)
  | ErrorPage (code : Z).

(** A request received alone, with the query [q] and the body [p], on
    the tree [t] as the middleware leaves it (with the upload that multer
    stored, if any). *)
Definition receive (ep : endpoint) (q : jsval) (p : payload) (t : tree)
  : (js_error + reply) * tree :=
  match incoming ep q p with
  | inl code => (inr (ErrorPage code), t)
  | inr req =>
      match serve ep req t with
      | (inl e, t') => (inl e, t')
      | (inr r, t') => (inr (Answer r), t')
      end
  end.

End Handlers.

End App.

(** ** A concrete deployment *)

(** The container of the repository's [Dockerfile] and
    [docker-compose.yml]: [WORKDIR /usr/src/app],
    [FILES_DIR=/var/www/html].  Its [inspect] prints strings without
    escapes, which is what Node prints for the strings used below. *)
Definition docker : host := {|
  env_FILES_DIR := Some "/var/www/html";
  cwd := "/usr/src/app";
  inspect := fun v =>
    match v with
    | VStr s => "'" +:+ s +:+ "'"
    | VNum n => NilZero.string_of_int (Z.to_int n)
    | VBool b => if b then "true" else "false"
    | _ => ""
    end;
  dir_size := 4096;
  mtime := fun _ _ => 0
|}.

Definition with_query (p : string) : request :=
  {| query := VObj [("path", VStr p)]; body := VObj []; file := None |}.

Definition with_body (fields : list (string * jsval)) : request :=
  {| query := VObj []; body := VObj fields; file := None |}.

Definition index_html : list string := ["var"; "www"; "html"; "index.html"].

Definition nul_name : string := String "a" (String Str.nul (String "b" EmptyString)).

Definition dirs (l : list (list string)) : tree := list_to_map (List.map (fun k => (k, Dir)) l).

Definition www : tree :=
  dirs [["var"]; ["var"; "www"]; ["var"; "www"; "html"]; ["var"; "www"; "html-secret"];
        ["usr"]; ["usr"; "src"]; ["usr"; "src"; "app"]; ["usr"; "src"; "app"; "uploads"]]
  ∪ list_to_map [ (["var"; "www"; "html"; "index.html"], File "<h1>hi</h1>");
                  (["var"; "www"; "html-secret"; "passwords.txt"], File "hunter2") ].

(** The string that holds U+D800 and nothing else (in JSON, ["\ud800"]):
    a high surrogate without its low one. *)
Definition lone_surrogate : string :=
  String (ascii_of_nat 237) (String (ascii_of_nat 160) (String (ascii_of_nat 128) EmptyString)).

(** ** Vocabulary of the properties *)

(** The messages the handlers word themselves. *)
Definition fixed_messages : list string :=
  ["Access denied"; "File path is required";
   "Path points to a directory, not a file"; "No file uploaded"].

(** An error body: a JSON object with the single field [error], a
    string. *)
Definition is_error_body (v : jsval) : Prop :=
  exists msg : string, v = VObj [("error", VStr msg)].

(** What a handler can send: a success, one of its own refusals, or the
    message of what it caught. *)
Inductive answer (h : host) : response -> Prop :=
| answer_ok (r : response) :
    status r = 200 -> answer h r
| answer_refused (code : Z) (msg : string) :
    code = 400 \/ code = 403 -> In msg fixed_messages ->
    answer h (status_json code (App.error_body msg))
| answer_caught (e : js_error) :
    answer h (status_json 500 (App.error_body (message h e))).

(** What is sent when Node's argument check refuses a path holding a
    null byte. *)
Definition null_bytes_response (h : host) (p : string) : response :=
  status_json 500 (App.error_body (message h (NullBytes p))).

(** Every response a program can end with satisfies [P]. *)
Definition answers (h : host) (P : response -> Prop) (p : prog response) : Prop :=
  forall t : tree,
    match run h p t with
    | (inr r, _) => P r
    | (inl _, _) => True
    end.

(** What a [try] block itself sends when it throws nothing: a success,
    whose body has no field [error], or one of the refusals that the
    handlers word. *)
Inductive returned : response -> Prop :=
| returned_ok (v : jsval) :
    prop v "error" = VUndefined -> returned (json v)
| returned_refusal (code : Z) (msg : string) :
    code = 400 \/ code = 403 -> In msg fixed_messages ->
    returned (status_json code (App.error_body msg)).

(** ** The stages of a write *)

(** Where a write request stands: nothing done yet, parent directories
    made, target opened (and so truncated), content written, or failed. *)
Inductive stage : Type :=
| Start
| Made
| Opened
| Done
| Failed (e : js_error).

Section Stages.

Variable h : host.
Variable s : string.

Definition fullPath : string := Path.join [App.FILES_DIR h; s].

Definition target : list string := Fs.key h fullPath.

Definition written : response :=
  json (VObj [("success", VBool true); ("path", VStr s)]).

(** What remains to be run of the write of [c] at each stage. *)
Definition thread (c : string) (st : stage) : prog response :=
  let finish := fun _ : unit => Ret written in
  match st with
  | Start =>
      try_catch
        (bind (Lib.ensureDir (Path.dirname fullPath))
              (fun _ => bind (Lib.writeFile fullPath (VStr c)) finish))
        (App.catch_500 h)
  | Made => try_catch (bind (Lib.writeFile fullPath (VStr c)) finish) (App.catch_500 h)
  | Opened =>
      try_catch (bind (await (Write target 0 (Utf8.encode c))) finish) (App.catch_500 h)
  | Done => Ret written
  | Failed e => App.catch_500 h e
  end.

(** One step of the write of [c], seen from outside. *)
Definition transition (c : string) (st st' : stage) (t t' : tree) : Prop :=
  match st with
  | Start =>
      (st' = Made /\ forall k n, t !! k = Some n -> t' !! k = Some n) \/
      (exists e, st' = Failed e /\ t' = t)
  | Made =>
      (st' = Opened /\ t' = <[target := File ""]> t) \/
      (exists e, st' = Failed e /\ t' = t)
  | Opened =>
      st' = Done /\
      forall x, t !! target = Some (File x) ->
                t' = <[target := File (Fs.overlay x 0 (Utf8.encode c))]> t
  | Done | Failed _ => st' = st /\ t' = t
  end.

(** What the target can hold when the writes of [c1] and of [c2] stand
    at the stages [s1] and [s2]; [None] when nothing is known. *)
Definition possible (c1 c2 : string) (s1 s2 : stage) : option (list string) :=
  match s1, s2 with
  | Done, Done => Some [c1; c2; Fs.overlay c1 0 c2; Fs.overlay c2 0 c1]
  | Done, Opened => Some [""; c1]
  | Opened, Done => Some [""; c2]
  | Opened, _ | _, Opened => Some [""]
  | Done, _ => Some [c1]
  | _, Done => Some [c2]
  | _, _ => None
  end.

Definition consistent (c1 c2 : string) (s1 s2 : stage) (t : tree) : Prop :=
  match possible c1 c2 s1 s2 with
  | Some l => exists x, t !! target = Some (File x) /\ In x l
  | None => True
  end.

End Stages.

(** ** Further vocabulary *)

(** The steps that only look at the tree. *)
Definition reads {B : Type} (c : call B) : bool :=
  match c with
  | Stat _ | Lstat _ | Readdir _ | ReadFile _ => true
  | _ => false
  end.

Definition is_read (e : event) : bool :=
  match e with
  | Event c => reads c
  end.

(** A program all of whose steps only look at the tree. *)
Inductive ReadOnly {A : Type} : prog A -> Prop :=
| ReadOnly_Ret (a : A) : ReadOnly (Ret a)
| ReadOnly_Throw (e : js_error) : ReadOnly (Throw e)
| ReadOnly_Op {B : Type} (c : call B) (k : js_error + B -> prog A) :
    reads c = true -> (forall r, ReadOnly (k r)) -> ReadOnly (Op c k).

(** The value a route joins onto the root: [req.query.path], or
    [req.body.filePath] for a write. *)
Definition path_input (ep : App.endpoint) (req : request) : jsval :=
  match ep with
  | App.POST_api_files => prop (body req) "filePath"
  | _ => prop (query req) "path"
  end.

(** The input is a non-empty string whose join with the root does not
    start with the root. *)
Definition outside_prefix (h : host) (v : jsval) : Prop :=
  exists s, v = VStr s /\ s <> "" /\
            Str.startsWith (Path.join [App.FILES_DIR h; s]) (App.FILES_DIR h) = false.

(** What is sent when [path.join] refuses an argument that is not a
    string. *)
Definition not_a_string_response (h : host) (v : jsval) : response :=
  status_json 500 (App.error_body (message h (InvalidArgType "path" "of type string" v))).

(** A tree is well formed when every entry lies below directories
    only. *)
Definition well_formed (t : tree) : Prop :=
  forall k n, t !! k = Some n ->
  forall a, In a (Fs.ancestors k) -> Fs.node_at t a = Some Dir.

(** The same, as a check that can be run. *)
Definition well_formedb (t : tree) : bool :=
  forallb (fun e : list string * node =>
             forallb (fun a => match Fs.node_at t a with Some Dir => true | _ => false end)
                     (Fs.ancestors e.1))
          (map_to_list t).

(** An upload as multer hands it over: the file stored under [uploads/]
    with a generated name, its original name, and the [path] field. *)
Definition stored_upload : upload :=
  {| originalname := "pic.png"; upload_path := "uploads/abc123" |}.

Definition upload_to (dir : string) : request :=
  {| query := VObj []; body := VObj [("path", VStr dir)]; file := Some stored_upload |}.

Definition stored_key : list string := ["usr"; "src"; "app"; "uploads"; "abc123"].

Definition www_uploading : tree := <[stored_key := File "data"]> www.

(** The first four bytes of a PNG image, [89 50 4E 47]: the first of them
    is not UTF-8. *)
Definition png_signature : string := String (ascii_of_nat 137) "PNG".

Definition www_uploading_png : tree := <[stored_key := File png_signature]> www.

(** ** Vocabulary of paths and listings *)

(** A name as a directory entry has it: not empty, not [.] or [..], and
    without a slash. *)
Definition proper (seg : string) : bool :=
  negb (String.eqb seg "" || String.eqb seg ".") && negb (String.eqb seg "..")
  && negb (Str.has_char Str.slash seg).

(** A relative path that never climbs above where it starts: [depth]
    counts the names entered and not yet left. *)
Fixpoint inside (depth : nat) (segs : list string) : bool :=
  match segs with
  | [] => true
  | seg :: rest =>
      if String.eqb seg "" || String.eqb seg "." then inside depth rest
      else if String.eqb seg ".." then
        match depth with
        | O => false
        | S d => inside d rest
        end
      else inside (S depth) rest
  end.

(** The root is an absolute path in normal form: [/] followed by the
    names of [root], joined with [/]. *)
Definition normal_root (h : host) (root : list string) : Prop :=
  App.FILES_DIR h = "/" +:+ Str.join "/" root /\ root <> [] /\ forallb proper root = true.

(** The name of an entry that a directory can hold: a name, without a
    null character. *)
Definition entry_name (f : string) : bool := proper f && negb (Str.has_char Str.nul f).

(** Every path of the tree is made of such names. *)
Definition real_names (t : tree) : bool :=
  forallb (fun e : list string * node => forallb entry_name e.1) (map_to_list t).

(** The directory a listing request reads, when [path.join] accepts the
    path input. *)
Definition listing_dir (h : host) (req : request) : option string :=
  let v := prop (query req) "path" in
  if truthy v then
    match v with
    | VStr s => Some (Path.join [App.FILES_DIR h; s])
    | _ => None
    end
  else Some (App.FILES_DIR h).

(** The way from the directory [from] to [to], both given by their
    segments. *)
Definition relative_keys (from to : list string) : string :=
  let '(up, down) := Path.dropCommon from to in
  Str.join "/" (List.map (fun _ => "..") up ++ down).

(** What a listing says about the entry [name] of the directory [k]. *)
Definition listed (h : host) (t : tree) (k : list string) (name : string) : jsval :=
  let e := k ++ [name] in
  VObj [("name", VStr name);
        ("path", VStr (relative_keys (Fs.key h (App.FILES_DIR h)) e));
        ("isDirectory", VBool (match t !! e with Some Dir => true | _ => false end));
        ("size", VNum (match t !! e with
                       | Some (File c) => Z.of_nat (String.length c)
                       | _ => dir_size h
                       end));
        ("modified", VDate (mtime h t e))].

(** A path made of [.] and slashes only. *)
Definition names_root (s : string) : bool :=
  forallb (fun seg => String.eqb seg "" || String.eqb seg ".") (Str.split Str.slash s).

(** What a listing or content request is answered when nothing lies at
    [p]. *)
Definition no_entry_response (h : host) (syscall p : string) : response :=
  status_json 500 (App.error_body (message h (SystemError ENOENT syscall p None))).

(** ** The client: [frontend.js] *)

(** The URLs that the functions of [src/frontend-js.js] hand to [fetch].
    A string stands for the UTF-8 bytes of the text it holds, so that
    [encodeURIComponent] works byte by byte. *)
Module Client.

Definition API_URL : string := "http://your-server-address:3000/api".

Definition is_alnum (c : ascii) : bool :=
  let n := nat_of_ascii c in
  ((48 <=? n) && (n <=? 57) || (65 <=? n) && (n <=? 90) || (97 <=? n) && (n <=? 122))%nat.

(** The characters [encodeURIComponent] leaves alone. *)
Definition unreserved (c : ascii) : bool := is_alnum c || Str.has_char c "-_.!~*'()".

Definition hex_digit (n : nat) : ascii :=
  match String.get n "0123456789ABCDEF" with
  | Some c => c
  | None => "0"%char
  end.

Definition escape (c : ascii) : string :=
  let n := nat_of_ascii c in
  String "%" (String (hex_digit (n / 16)) (String (hex_digit (n mod 16)) EmptyString)).

Fixpoint encodeURIComponent (s : string) : string :=
  match s with
  | EmptyString => EmptyString
  | String c s' =>
      (if unreserved c then String c EmptyString else escape c) +:+ encodeURIComponent s'
  end.

(** [`${API_URL}/files?path=${encodeURIComponent(directory)}`] *)
Definition getFiles_url (directory : string) : string :=
  API_URL +:+ "/files?path=" +:+ encodeURIComponent directory.

(** [`${API_URL}/files/content?path=${encodeURIComponent(filePath)}`] *)
Definition getFileContent_url (filePath : string) : string :=
  API_URL +:+ "/files/content?path=" +:+ encodeURIComponent filePath.

(** [`${API_URL}/files?path=${encodeURIComponent(filePath)}`], fetched
    with the method [DELETE] *)
Definition deleteFile_url (filePath : string) : string :=
  API_URL +:+ "/files?path=" +:+ encodeURIComponent filePath.

End Client.

(** ** Reading a URL *)

(** How the receiver of a URL takes it apart (RFC 3986): the query lies
    between the first [?] and the first [#], its parameters are separated
    by [&], each is a name and a value around its first [=], and [%XX]
    stands for the byte [XX]. *)
Module Url.

Fixpoint after (c : ascii) (s : string) : option string :=
  match s with
  | EmptyString => None
  | String d s' => if Ascii.eqb d c then Some s' else after c s'
  end.

Fixpoint before (c : ascii) (s : string) : string :=
  match s with
  | EmptyString => EmptyString
  | String d s' => if Ascii.eqb d c then EmptyString else String d (before c s')
  end.

Definition query (url : string) : option string :=
  match after "?" url with
  | Some q => Some (before "#" q)
  | None => None
  end.

Definition parameter (part : string) : string * string :=
  (before "=" part, match after "=" part with Some v => v | None => EmptyString end).

Definition parameters (q : string) : list (string * string) :=
  List.map parameter (Str.split "&" q).

(** The characters that end or split a parameter, or stand for something
    else in one. *)
Definition delimiter (c : ascii) : bool := Str.has_char c "?#&=+/ ".

Definition hex_value (c : ascii) : option nat :=
  let n := nat_of_ascii c in
  if ((48 <=? n) && (n <=? 57))%nat then Some (n - 48)%nat
  else if ((65 <=? n) && (n <=? 70))%nat then Some (n - 55)%nat
  else if ((97 <=? n) && (n <=? 102))%nat then Some (n - 87)%nat
  else None.

Fixpoint percent_decode (s : string) : option string :=
  match s with
  | EmptyString => Some EmptyString
  | String c rest =>
      if Ascii.eqb c "%" then
        match rest with
        | String a (String b rest') =>
            match hex_value a, hex_value b, percent_decode rest' with
            | Some x, Some y, Some r => Some (String (ascii_of_nat (16 * x + y)) r)
            | _, _, _ => None
            end
        | _ => None
        end
      else
        match percent_decode rest with
        | Some r => Some (String c r)
        | None => None
        end
  end.

End Url.

(** The target of an upload lies outside the prefix: a file was
    uploaded, the [path] field is a string or absent, and their join with
    the root and the original name does not start with the root. *)
Definition upload_outside_prefix (h : host) (req : request) : Prop :=
  exists f d,
    file req = Some f /\
    js_or (prop (body req) "path") (VStr "") = VStr d /\
    Str.startsWith (Path.join [App.FILES_DIR h; d; originalname f]) (App.FILES_DIR h) = false.

(** * Properties *)

(** ** UTF-8 *)

Section Utf8Lemmas.

Lemma between_bounds (lo hi : nat) (c : ascii) :
  Utf8.between lo hi c = true <-> (lo <= Utf8.byte c <= hi)%nat.
Proof.
  unfold Utf8.between. rewrite andb_true_iff, !Nat.leb_le. reflexivity.
Qed.

(** What a leading byte asks of the byte after it. *)
Lemma classify_lead (a : ascii) (n lo hi : nat) :
  Utf8.classify a = Utf8.Lead n lo hi ->
  (1 <= n <= 3)%nat /\ (128 <= lo)%nat /\ (hi <= 191)%nat /\
  (128 <= Utf8.byte a)%nat /\ (Utf8.byte a = 237%nat -> hi = 159%nat).
Proof.
  unfold Utf8.classify.
  destruct (Nat.ltb_spec (Utf8.byte a) 128); [discriminate |].
  destruct (Utf8.between 194 223 a) eqn:H1.
  { apply between_bounds in H1. intros E. injection E as <- <- <-. lia. }
  destruct (Nat.eqb_spec (Utf8.byte a) 224).
  { intros E. injection E as <- <- <-. lia. }
  destruct (Nat.eqb_spec (Utf8.byte a) 237).
  { intros E. injection E as <- <- <-. lia. }
  destruct (Utf8.between 225 239 a).
  { intros E. injection E as <- <- <-. lia. }
  destruct (Nat.eqb_spec (Utf8.byte a) 240).
  { intros E. injection E as <- <- <-. lia. }
  destruct (Utf8.between 241 243 a) eqn:H2.
  { apply between_bounds in H2. intros E. injection E as <- <- <-. lia. }
  destruct (Nat.eqb_spec (Utf8.byte a) 244); [| discriminate].
  intros E. injection E as <- <- <-. lia.
Qed.

Lemma classify_single (a : ascii) :
  Utf8.classify a = Utf8.Single -> (Utf8.byte a < 128)%nat.
Proof.
  unfold Utf8.classify.
  destruct (Nat.ltb_spec (Utf8.byte a) 128); [auto |].
  repeat match goal with
         | |- context [if ?c then _ else _] => destruct c; try discriminate
         end.
Qed.

Lemma utf8_decode_step (seen : string) (needed lo hi : nat) (b : ascii) (rest : string) :
  Utf8.decode_from seen needed lo hi (String b rest) =
  let fresh :=
    match Utf8.classify b with
    | Utf8.Single => String b (Utf8.decode rest)
    | Utf8.Lead n lo' hi' => Utf8.decode_from (String b EmptyString) n lo' hi' rest
    | Utf8.Stray => Utf8.replacement +:+ Utf8.decode rest
    end in
  match needed with
  | O => fresh
  | S n =>
      if Utf8.between lo hi b then
        match n with
        | O => seen +:+ String b (Utf8.decode rest)
        | S _ => Utf8.decode_from (seen +:+ String b EmptyString) n 128 191 rest
        end
      else Utf8.replacement +:+ fresh
  end.
Proof. reflexivity. Qed.

Lemma isUtf8_cons (a : ascii) (tail : string) :
  Utf8.isUtf8 (String a tail) =
  match Utf8.classify a with
  | Utf8.Single => Utf8.isUtf8 tail
  | Utf8.Stray => false
  | Utf8.Lead n lo hi =>
      match n, tail with
      | 1%nat, String b r => Utf8.between lo hi b && Utf8.isUtf8 r
      | 2%nat, String b (String c r) =>
          Utf8.between lo hi b && Utf8.between 128 191 c && Utf8.isUtf8 r
      | 3%nat, String b (String c (String d r)) =>
          Utf8.between lo hi b && Utf8.between 128 191 c && Utf8.between 128 191 d
          && Utf8.isUtf8 r
      | _, _ => false
      end
  end.
Proof. reflexivity. Qed.

(** Decoding well-formed UTF-8 changes nothing. *)
Lemma utf8_decode_valid (s : string) :
  Utf8.isUtf8 s = true -> Utf8.decode s = s.
Proof.
  remember (String.length s) as n eqn:Hn.
  assert (Hle : (String.length s <= n)%nat) by lia. clear Hn.
  revert s Hle. induction n as [| n IH]; intros s Hle Hwf.
  { destruct s; [reflexivity | simpl in Hle; lia]. }
  destruct s as [| a tail]; [reflexivity |].
  unfold Utf8.decode. rewrite utf8_decode_step. cbv zeta.
  rewrite isUtf8_cons in Hwf. cbn [String.length] in Hle.
  destruct (Utf8.classify a) as [| k lo hi |]; [| | discriminate].
  - rewrite IH by (try exact Hwf; lia). reflexivity.
  - destruct k as [| [| [| [| k]]]]; try discriminate.
    + destruct tail as [| b r]; [discriminate |].
      apply andb_true_iff in Hwf as [Hb Hr]. cbn [String.length] in Hle.
      rewrite utf8_decode_step. cbv zeta. rewrite Hb.
      rewrite IH by (try exact Hr; lia). reflexivity.
    + destruct tail as [| b [| c r]]; try discriminate.
      apply andb_true_iff in Hwf as [Hwf Hr]. apply andb_true_iff in Hwf as [Hb Hc].
      cbn [String.length] in Hle.
      rewrite utf8_decode_step. cbv zeta. rewrite Hb.
      rewrite utf8_decode_step. cbv zeta. rewrite Hc.
      rewrite IH by (try exact Hr; lia). reflexivity.
    + destruct tail as [| b [| c [| d r]]]; try discriminate.
      apply andb_true_iff in Hwf as [Hwf Hr]. apply andb_true_iff in Hwf as [Hwf Hd].
      apply andb_true_iff in Hwf as [Hb Hc]. cbn [String.length] in Hle.
      rewrite utf8_decode_step. cbv zeta. rewrite Hb.
      rewrite utf8_decode_step. cbv zeta. rewrite Hc.
      rewrite utf8_decode_step. cbv zeta. rewrite Hd.
      rewrite IH by (try exact Hr; lia). reflexivity.
Qed.

Lemma utf8_encode_cons (a : ascii) (tail : string) :
  Utf8.byte a <> 237%nat -> Utf8.encode (String a tail) = String a (Utf8.encode tail).
Proof.
  intros Ha. apply Nat.eqb_neq in Ha.
  destruct tail as [| b [| c rest]]; cbn [Utf8.encode]; try reflexivity.
  rewrite Ha. reflexivity.
Qed.

Lemma utf8_encode_low (a b : ascii) (tail : string) :
  Utf8.between 160 191 b = false ->
  Utf8.encode (String a (String b tail)) = String a (Utf8.encode (String b tail)).
Proof.
  intros Hb. destruct tail as [| c rest]; [reflexivity |].
  cbn [Utf8.encode]. rewrite Hb, andb_false_r. reflexivity.
Qed.

Lemma utf8_encode_continuation (hi : nat) (lo : nat) (b : ascii) (tail : string) :
  (hi <= 191)%nat -> Utf8.between lo hi b = true ->
  Utf8.encode (String b tail) = String b (Utf8.encode tail).
Proof.
  intros Hhi Hb. apply between_bounds in Hb. apply utf8_encode_cons. lia.
Qed.

(** The encoding of a string that is well-formed UTF-8 is the string. *)
Lemma utf8_encode_valid (s : string) :
  Utf8.isUtf8 s = true -> Utf8.encode s = s.
Proof.
  remember (String.length s) as n eqn:Hn.
  assert (Hle : (String.length s <= n)%nat) by lia. clear Hn.
  revert s Hle. induction n as [| n IH]; intros s Hle Hwf.
  { destruct s; [reflexivity | simpl in Hle; lia]. }
  destruct s as [| a tail]; [reflexivity |].
  rewrite isUtf8_cons in Hwf. cbn [String.length] in Hle.
  destruct (Utf8.classify a) as [| k lo hi |] eqn:Ha; [| | discriminate].
  - apply classify_single in Ha. rewrite utf8_encode_cons by lia.
    rewrite IH by (try exact Hwf; lia). reflexivity.
  - destruct (classify_lead a k lo hi Ha) as (_ & Hlo & Hhi & _ & Hed).
    assert (Hfirst : forall b r, Utf8.between lo hi b = true ->
              Utf8.encode (String a (String b r)) = String a (Utf8.encode (String b r))).
    { intros b r Hb. destruct (Nat.eq_dec (Utf8.byte a) 237%nat) as [E | E];
        [| apply utf8_encode_cons; exact E].
      apply utf8_encode_low. apply between_bounds in Hb. specialize (Hed E). subst hi.
      destruct (Utf8.between 160 191 b) eqn:Hx; [| reflexivity].
      apply between_bounds in Hx. lia. }
    destruct k as [| [| [| [| k]]]]; try discriminate.
    + destruct tail as [| b r]; [discriminate |].
      apply andb_true_iff in Hwf as [Hb Hr]. cbn [String.length] in Hle.
      rewrite (Hfirst b r Hb), (utf8_encode_continuation hi lo b r Hhi Hb).
      rewrite IH by (try exact Hr; lia). reflexivity.
    + destruct tail as [| b [| c r]]; try discriminate.
      apply andb_true_iff in Hwf as [Hwf Hr]. apply andb_true_iff in Hwf as [Hb Hc].
      cbn [String.length] in Hle.
      rewrite (Hfirst b _ Hb), (utf8_encode_continuation hi lo b _ Hhi Hb).
      rewrite (utf8_encode_continuation 191 128 c r (le_n _) Hc).
      rewrite IH by (try exact Hr; lia). reflexivity.
    + destruct tail as [| b [| c [| d r]]]; try discriminate.
      apply andb_true_iff in Hwf as [Hwf Hr]. apply andb_true_iff in Hwf as [Hwf Hd].
      apply andb_true_iff in Hwf as [Hb Hc]. cbn [String.length] in Hle.
      rewrite (Hfirst b _ Hb), (utf8_encode_continuation hi lo b _ Hhi Hb).
      rewrite (utf8_encode_continuation 191 128 c _ (le_n _) Hc).
      rewrite (utf8_encode_continuation 191 128 d r (le_n _) Hd).
      rewrite IH by (try exact Hr; lia). reflexivity.
Qed.

Lemma length_append (a b : string) :
  String.length (a +:+ b) = (String.length a + String.length b)%nat.
Proof.
  induction a as [| c a IH]; [reflexivity |].
  change (S (String.length (a +:+ b)) = S (String.length a + String.length b)).
  rewrite IH. reflexivity.
Qed.

Lemma utf8_encode_three (a b c : ascii) (rest : string) :
  Utf8.encode (String a (String b (String c rest))) =
  if (Utf8.byte a =? 237)%nat && Utf8.between 160 191 b && Utf8.between 128 191 c
  then Utf8.replacement +:+ Utf8.encode rest
  else String a (Utf8.encode (String b (String c rest))).
Proof. reflexivity. Qed.

(** Encoding keeps the number of bytes. *)
Lemma utf8_encode_length (s : string) :
  String.length (Utf8.encode s) = String.length s.
Proof.
  assert (H : forall n s, (String.length s <= n)%nat ->
                          String.length (Utf8.encode s) = String.length s);
    [| apply (H (String.length s)); lia].
  clear s. induction n as [| n IH]; intros s Hle.
  { destruct s; [reflexivity | simpl in Hle; lia]. }
  destruct s as [| a [| b [| c rest]]]; try reflexivity.
  cbn [String.length] in Hle. rewrite utf8_encode_three.
  destruct (_ && _).
  - rewrite length_append, IH by lia. reflexivity.
  - change (S (String.length (Utf8.encode (String b (String c rest))))
            = S (String.length (String b (String c rest)))).
    rewrite IH by (cbn [String.length]; lia). reflexivity.
Qed.

Lemma utf8_encode_empty (s : string) : Utf8.encode s = "" <-> s = "".
Proof.
  split; [| intros ->; reflexivity].
  intros H. pose proof (utf8_encode_length s) as Hlen. rewrite H in Hlen.
  destruct s; [reflexivity | discriminate].
Qed.

End Utf8Lemmas.

(** ** Running binds and handlers *)

Section RunLemmas.

Variable h : host.

Lemma run_bind {A B : Type} (p : prog A) (f : A -> prog B) (t : tree) :
  run h (bind p f) t =
  match run h p t with
  | (inr a, t') => run h (f a) t'
  | (inl e, t') => (inl e, t')
  end.
Proof.
  revert t. induction p as [a | e | C c k IH]; intros t; simpl; try reflexivity.
  destruct (Fs.exec h c t) as [r t']. apply IH.
Qed.

Lemma run_try_catch {A : Type} (p : prog A) (handler : js_error -> prog A) (t : tree) :
  run h (try_catch p handler) t =
  match run h p t with
  | (inr a, t') => (inr a, t')
  | (inl e, t') => run h (handler e) t'
  end.
Proof.
  revert t. induction p as [a | e | C c k IH]; intros t; simpl; try reflexivity.
  destruct (Fs.exec h c t) as [r t']. apply IH.
Qed.

Lemma run_await {B : Type} (c : call B) (t : tree) :
  run h (await c) t = Fs.exec h c t.
Proof.
  unfold await. simpl. destruct (Fs.exec h c t) as [[e | b] t']; reflexivity.
Qed.

Lemma run_validated {B : Type} (p : string) (k : prog B) (t : tree) :
  run h (Lib.validated p k) t =
  if Str.has_char Str.nul p then (inl (NullBytes p), t) else run h k t.
Proof. unfold Lib.validated. destruct (Str.has_char Str.nul p); reflexivity. Qed.

End RunLemmas.

Lemma pair_of_fst {A B : Type} (x : A * B) (a : A) : x.1 = a -> x = (a, x.2).
Proof. destruct x as [a0 b]. simpl. intros ->. reflexivity. Qed.

Lemma truthy_VStr (s : string) : truthy (VStr s) = true <-> s <> "".
Proof.
  simpl. rewrite negb_true_iff. split.
  - intros H ->. discriminate.
  - intros H. destruct s; [congruence | reflexivity].
Qed.

Section Answers.

Variable h : host.

Lemma answers_ret (P : response -> Prop) (r : response) : P r -> answers h P (Ret r).
Proof. intros H t. exact H. Qed.

Lemma answers_throw (P : response -> Prop) (e : js_error) : answers h P (Throw e).
Proof. intros t. exact I. Qed.

Lemma answers_bind {B : Type} (P : response -> Prop) (q : prog B) (f : B -> prog response) :
  (forall b, answers h P (f b)) -> answers h P (bind q f).
Proof.
  intros H t. rewrite run_bind.
  destruct (run h q t) as [[e | b] t']; [exact I | apply H].
Qed.

Lemma answers_caught (P : response -> Prop) (p : prog response) (t : tree) :
  answers h P p ->
  (forall e, P (status_json 500 (App.error_body (message h e)))) ->
  exists r t', run h (try_catch p (App.catch_500 h)) t = (inr r, t') /\ P r.
Proof.
  intros Hp H500. rewrite run_try_catch. specialize (Hp t).
  destruct (run h p t) as [[e | r] t']; simpl; eauto.
Qed.

Lemma refusal (code : Z) (msg : string) :
  code = 400 \/ code = 403 -> In msg fixed_messages ->
  answers h (answer h) (Ret (status_json code (App.error_body msg))).
Proof. intros Hc Hm. apply answers_ret. constructor; assumption. Qed.

Lemma success (v : jsval) : answers h (answer h) (Ret (json v)).
Proof. apply answers_ret. constructor. reflexivity. Qed.

Ltac refuse := apply refusal; [ auto | simpl; auto 10 ].
Ltac walk :=
  repeat first
    [ progress cbv zeta
    | apply success
    | refuse
    | apply answers_throw
    | apply answers_bind; intros ?
    | match goal with
      | |- answers _ _ (if ?c then _ else _) => destruct c
      | |- answers _ _ (match ?o with Some _ => _ | None => _ end) => destruct o
      end ].

(** Every route answers, and with one of the three kinds of
    response. *)
Lemma routes_answer (ep : App.endpoint) (req : request) (t : tree) :
  exists r t', App.serve h ep req t = (inr r, t') /\ answer h r.
Proof.
  unfold App.serve.
  destruct ep; simpl; cbv zeta;
    (apply answers_caught; [ | intros e; apply answer_caught ]); walk.
Qed.

End Answers.

(** ** The containment check *)

(** C1: with the root [/var/www/html], the relative path
    [../html-secret] joins to the sibling directory
    [/var/www/html-secret], which lies outside the root but has the root
    as a string prefix.  The check lets it through: the listing handler
    answers 200 with the contents of the sibling, and the write handler
    creates a file in it.  The claim asks for 403 here. *)
Theorem sibling_directory_not_denied :
  Path.join [App.FILES_DIR docker; "../html-secret"] = "/var/www/html-secret" /\
  Str.startsWith "/var/www/html-secret" (App.FILES_DIR docker) = true /\
  (App.serve docker App.GET_api_files (with_query "../html-secret") www).1 =
    inr (json (VArr [VObj [("name", VStr "passwords.txt");
                           ("path", VStr "../html-secret/passwords.txt");
                           ("isDirectory", VBool false);
                           ("size", VNum 7);
                           ("modified", VDate 0)]])) /\
  (let w := App.serve docker App.POST_api_files
              (with_body [("filePath", VStr "../html-secret/x"); ("content", VStr "y")]) www in
   w.1 = inr (json (VObj [("success", VBool true); ("path", VStr "../html-secret/x")])) /\
   w.2 !! ["var"; "www"; "html-secret"; "x"] = Some (File "y")).
Proof. vm_compute. repeat split; reflexivity. Qed.

(** What the check does decide: an input whose join with the root does
    not keep the root as a string prefix is refused with 403, and no
    filesystem step is taken. *)
Lemma outside_prefix_is_refused (h : host) (req : request) (t : tree) (s : string) :
  s <> "" ->
  Str.startsWith (Path.join [App.FILES_DIR h; s]) (App.FILES_DIR h) = false ->
  (prop (query req) "path" = VStr s ->
   forall ep,
     In ep [App.GET_api_files; App.GET_api_files_content; App.DELETE_api_files] ->
     App.serve h ep req t = (inr (status_json 403 (App.error_body "Access denied")), t) /\
     trace h (App.route h ep req) t = []) /\
  (prop (body req) "filePath" = VStr s ->
   App.serve h App.POST_api_files req t
     = (inr (status_json 403 (App.error_body "Access denied")), t) /\
   trace h (App.post_api_files h req) t = []).
Proof.
  intros Hs Hprefix. apply truthy_VStr in Hs. split.
  - intros Hq ep Hep. unfold App.serve.
    destruct Hep as [<- | [<- | [<- | []]]]; simpl;
      [ unfold App.get_api_files
      | unfold App.get_api_files_content
      | unfold App.delete_api_files ];
      cbv zeta; rewrite Hq, Hs; cbn [negb];
      unfold Lib.path_join; cbn [Lib.strings_of bind];
      rewrite Hprefix; split; reflexivity.
  - intros Hb. unfold App.serve, App.route, App.post_api_files. cbv zeta.
    rewrite Hb, Hs. cbn [negb].
    unfold Lib.path_join. cbn [Lib.strings_of bind].
    rewrite Hprefix. split; reflexivity.
Qed.

(** ** The shape of error responses *)

Section Attempts.

Variable h : host.

(** Every route is its [try] block and the [catch]. *)
Lemma route_catches (ep : App.endpoint) (req : request) :
  App.route h ep req = try_catch (App.attempt h ep req) (App.catch_500 h).
Proof. destruct ep; reflexivity. Qed.

(** What [error.message] of a caught error is sent in. *)
Lemma serve_attempt (ep : App.endpoint) (req : request) (t : tree) :
  App.serve h ep req t =
  match run h (App.attempt h ep req) t with
  | (inr r, t') => (inr r, t')
  | (inl e, t') => (inr (status_json 500 (App.error_body (message h e))), t')
  end.
Proof.
  unfold App.serve. rewrite route_catches, run_try_catch.
  destruct (run h (App.attempt h ep req) t) as [[e | r] t']; reflexivity.
Qed.

Ltac returns :=
  repeat first
    [ progress cbv zeta
    | apply answers_ret; apply returned_ok; reflexivity
    | apply answers_ret; apply returned_refusal; [ auto | simpl; auto 10 ]
    | apply answers_throw
    | apply answers_bind; intros ?
    | match goal with
      | |- answers _ _ (if ?c then _ else _) => destruct c
      | |- answers _ _ (match ?o with Some _ => _ | None => _ end) => destruct o
      end ].

(** What the [try] blocks send themselves. *)
Lemma attempt_returns (ep : App.endpoint) (req : request) :
  answers h returned (App.attempt h ep req).
Proof. destruct ep; cbn [App.attempt]; returns. Qed.

Lemma attempt_returned (ep : App.endpoint) (req : request) (t t' : tree) (r : response) :
  run h (App.attempt h ep req) t = (inr r, t') -> returned r.
Proof.
  intros Hrun. pose proof (attempt_returns ep req t) as H. rewrite Hrun in H. exact H.
Qed.

Lemma returned_status (r : response) :
  returned r ->
  (status r = 200 /\ prop (sent r) "error" = VUndefined) \/
  ((status r = 400 \/ status r = 403) /\
   exists msg, sent r = App.error_body msg /\ In msg fixed_messages).
Proof.
  intros [v Hv | code msg Hcode Hmsg].
  - left. split; [reflexivity | exact Hv].
  - right. split; [exact Hcode | exists msg; split; [reflexivity | exact Hmsg]].
Qed.

End Attempts.

(** C10, as stated, fails: a request to write whose body announces JSON
    and is not JSON never reaches the handler.  [express.json()] refuses
    it with status 400, and as the application has no error handler of
    its own, Express answers with an HTML page, not with a JSON object
    that has a field [error]. *)
Lemma malformed_json_gets_error_page :
  let got := App.receive docker App.POST_api_files (VObj []) (App.BadJson App.ParseFailed) www in
  got.1 = inr (App.ErrorPage 400) /\
  ~ exists r, got.1 = inr (App.Answer r) /\ is_error_body (sent r).
Proof.
  cbv zeta. split; [reflexivity |].
  intros (r & Hr & _). discriminate Hr.
Qed.

(** C10, as amended: every request is answered, and every exit of a
    handler is JSON.  When the [try] block of a handler throws, the
    response has status 500 and its body is an object with the single
    field [error], the message of what was thrown; when the block
    returns, the response is what it returned: status 200 and a body
    without a field [error], or status 400 or 403 and an object with the
    single field [error], one of the four messages that the handlers
    word.  A request that [express.json()] or [upload.single('file')]
    refuses does not reach the handler and is answered with the HTML page
    of Express's error handler and the status of the refusal. *)
Theorem error_exits_carry_error_field (h : host) (ep : App.endpoint) (q : jsval)
    (p : App.payload) (t : tree) :
  (exists rep t', App.receive h ep q p t = (inr rep, t')) /\
  (forall code, App.incoming ep q p = inl code ->
     App.receive h ep q p t = (inr (App.ErrorPage code), t)) /\
  (forall req, App.incoming ep q p = inr req ->
     (forall e t', run h (App.attempt h ep req) t = (inl e, t') ->
        App.receive h ep q p t =
        (inr (App.Answer (status_json 500 (App.error_body (message h e)))), t')) /\
     (forall r t', run h (App.attempt h ep req) t = (inr r, t') ->
        App.receive h ep q p t = (inr (App.Answer r), t') /\
        ((status r = 200 /\ prop (sent r) "error" = VUndefined) \/
         ((status r = 400 \/ status r = 403) /\
          exists msg, sent r = App.error_body msg /\ In msg fixed_messages)))).
Proof.
  split; [| split].
  - unfold App.receive. destruct (App.incoming ep q p) as [code | req]; [eauto |].
    destruct (routes_answer h ep req t) as (r & t' & -> & _). eauto.
  - intros code Hin. unfold App.receive. rewrite Hin. reflexivity.
  - intros req Hin. split.
    + intros e t' Hrun. unfold App.receive. rewrite Hin, serve_attempt, Hrun. reflexivity.
    + intros r t' Hrun. split.
      * unfold App.receive. rewrite Hin, serve_attempt, Hrun. reflexivity.
      * apply returned_status. eapply attempt_returned. exact Hrun.
Qed.

Lemma error_exits_carry_error_field_witness :
  App.receive docker App.GET_api_files_content (VObj [("path", VStr "missing.txt")])
    App.Other www =
  (inr (App.Answer
          (status_json 500
             (App.error_body
                (message docker
                   (SystemError ENOENT "stat" "/var/www/html/missing.txt" None))))),
   (run docker (App.attempt docker App.GET_api_files_content (with_query "missing.txt"))
      www).2).
Proof.
  apply (proj1 (proj2 (proj2 (error_exits_carry_error_field docker
                                App.GET_api_files_content
                                (VObj [("path", VStr "missing.txt")]) App.Other www))
                  (with_query "missing.txt") eq_refl)).
  apply pair_of_fst. vm_compute. reflexivity.
Defined.

(** ** What error messages reveal *)

Lemma includes_needs_first (c : ascii) (msg root : string) :
  Str.has_char c msg = false -> Str.first_is c root = true -> Str.includes msg root = false.
Proof.
  intros Hmsg Hroot. destruct root as [| d root']; [discriminate |].
  simpl in Hroot. apply Ascii.eqb_eq in Hroot. subst d.
  induction msg as [| d msg' IH]; [reflexivity |].
  simpl in Hmsg. apply orb_false_iff in Hmsg as [Hd Hrest].
  simpl. rewrite Hd. simpl. apply IH. exact Hrest.
Qed.

Lemma fixed_messages_have_no_slash (msg : string) :
  In msg fixed_messages -> Str.has_char Str.slash msg = false.
Proof.
  intros H. repeat (destruct H as [<- | H]; [reflexivity |]). destruct H.
Qed.

(** C6, as amended: a response that a handler sends with status 400 or
    403 carries one of the four messages worded by the handlers, which
    hold no slash and hence no absolute path.  A response with status 500
    is what the [catch] of a handler sends: the handler sends it when its
    [try] block throws, and only then, and its body carries the message
    of the error that was thrown, as it is. *)
Theorem refusals_name_no_path (h : host) (ep : App.endpoint) (req : request) (t : tree) :
  (forall e t', run h (App.attempt h ep req) t = (inl e, t') ->
     App.serve h ep req t =
     (inr (status_json 500 (App.error_body (message h e))), t')) /\
  (forall r t', App.serve h ep req t = (inr r, t') ->
     (status r = 400 \/ status r = 403 ->
      exists msg, sent r = App.error_body msg /\ In msg fixed_messages /\
        forall root, Str.first_is Str.slash root = true -> Str.includes msg root = false) /\
     (status r = 500 ->
      exists e, run h (App.attempt h ep req) t = (inl e, t') /\
                sent r = App.error_body (message h e))).
Proof.
  split.
  - intros e t' Hrun. rewrite serve_attempt, Hrun. reflexivity.
  - intros r t' Hrun. rewrite serve_attempt in Hrun.
    destruct (run h (App.attempt h ep req) t) as [[e | r0] t0] eqn:Htry.
    + injection Hrun as <- <-. split.
      * intros [H | H]; discriminate H.
      * intros _. exists e. split; reflexivity.
    + injection Hrun as <- <-.
      apply attempt_returned, returned_status in Htry.
      destruct Htry as [[H200 _] | [Hcode (msg & Hsent & Hmsg)]]; split.
      * intros [H | H]; rewrite H200 in H; discriminate H.
      * intros H; rewrite H200 in H; discriminate H.
      * intros _. exists msg. split; [exact Hsent |]. split; [exact Hmsg |].
        intros root Hroot. eapply includes_needs_first; [| exact Hroot].
        apply fixed_messages_have_no_slash. exact Hmsg.
      * intros H. destruct Hcode as [Hc | Hc]; rewrite Hc in H; discriminate H.
Qed.

Lemma refusals_name_no_path_witness :
  App.serve docker App.GET_api_files_content (with_query "missing.txt") www =
  (inr (status_json 500
          (App.error_body
             (message docker
                (SystemError ENOENT "stat" "/var/www/html/missing.txt" None)))),
   (run docker (App.attempt docker App.GET_api_files_content (with_query "missing.txt"))
      www).2).
Proof.
  apply (proj1 (refusals_name_no_path docker App.GET_api_files_content
                  (with_query "missing.txt") www)).
  apply pair_of_fst. vm_compute. reflexivity.
Defined.

(** C6, as stated, fails: reading a file that does not exist is answered
    with status 500 and the message of the failed [stat], which spells out
    the absolute path of the target and so the root. *)
Lemma error_message_leaks_root :
  exists msg,
    (App.serve docker App.GET_api_files_content (with_query "missing.txt") www).1 =
      inr (status_json 500 (App.error_body msg)) /\
    msg = "ENOENT: no such file or directory, stat '/var/www/html/missing.txt'" /\
    Str.includes msg (App.FILES_DIR docker) = true.
Proof. eexists. vm_compute. repeat split; reflexivity. Qed.

(** ** Reading content *)

(** C8: when the target of a content read is a directory, the handler
    answers 400 with the message saying so, and returns no content. *)
Theorem content_of_directory_is_refused (h : host) (req : request) (t : tree)
    (s : string) (k : list string) :
  prop (query req) "path" = VStr s ->
  s <> "" ->
  Str.startsWith (Path.join [App.FILES_DIR h; s]) (App.FILES_DIR h) = true ->
  Str.has_char Str.nul (Path.join [App.FILES_DIR h; s]) = false ->
  Fs.lookup_path h t (Path.join [App.FILES_DIR h; s]) = inr (k, Some Dir) ->
  App.serve h App.GET_api_files_content req t =
  (inr (status_json 400 (App.error_body "Path points to a directory, not a file")), t).
Proof.
  intros Hq Hs Hprefix Hnul Hdir.
  unfold App.serve, App.route, App.get_api_files_content.
  rewrite run_try_catch, Hq.
  apply truthy_VStr in Hs. rewrite Hs. cbn [negb].
  rewrite run_bind. unfold Lib.path_join. cbn [Lib.strings_of run].
  rewrite Hprefix. cbn [negb].
  rewrite run_bind. unfold Lib.stat. rewrite run_validated, Hnul, run_await.
  cbn [Fs.exec]. unfold Fs.stat_as. rewrite Hdir. reflexivity.
Qed.

Lemma content_of_directory_is_refused_witness :
  App.serve docker App.GET_api_files_content (with_query ".") www =
  (inr (status_json 400 (App.error_body "Path points to a directory, not a file")), www).
Proof.
  apply (content_of_directory_is_refused docker (with_query ".") www "."
           ["var"; "www"; "html"]).
  - reflexivity.
  - discriminate.
  - vm_compute. reflexivity.
  - vm_compute. reflexivity.
  - vm_compute. reflexivity.
Defined.

(** ** Deleting *)

(** C5, as stated, fails: deleting [missing.txt], which does not exist,
    is answered with 200 and [{ success: true }]. *)
Lemma delete_of_missing_path_succeeds :
  Fs.missing docker www (Path.join [App.FILES_DIR docker; "missing.txt"]) = true /\
  (App.serve docker App.DELETE_api_files (with_query "missing.txt") www).1 =
  inr (json (VObj [("success", VBool true)])).
Proof. split; vm_compute; reflexivity. Qed.

(** C5, as amended: deleting a path under the root at which nothing lies
    succeeds silently; the answer is 200 with [{ success: true }] and the
    tree is left as it was. *)
Theorem delete_is_idempotent (h : host) (req : request) (t : tree) (s : string) :
  prop (query req) "path" = VStr s ->
  s <> "" ->
  Str.startsWith (Path.join [App.FILES_DIR h; s]) (App.FILES_DIR h) = true ->
  Str.has_char Str.nul (Path.join [App.FILES_DIR h; s]) = false ->
  Fs.missing h t (Path.join [App.FILES_DIR h; s]) = true ->
  App.serve h App.DELETE_api_files req t =
  (inr (json (VObj [("success", VBool true)])), t).
Proof.
  intros Hq Hs Hprefix Hnul Hmissing.
  unfold App.serve, App.route, App.delete_api_files. cbv zeta.
  rewrite run_try_catch, Hq.
  apply truthy_VStr in Hs. rewrite Hs. cbn [negb].
  rewrite run_bind. unfold Lib.path_join. cbn [Lib.strings_of run].
  rewrite Hprefix. cbn [negb].
  rewrite run_bind. unfold Lib.remove. rewrite run_validated, Hnul, run_await.
  cbn [Fs.exec]. unfold Fs.missing in Hmissing.
  destruct (Fs.lookup_path h t (Path.join [App.FILES_DIR h; s])) as [[] | [k [n |]]];
    try discriminate; reflexivity.
Qed.

Lemma delete_is_idempotent_witness :
  App.serve docker App.DELETE_api_files (with_query "missing.txt") www =
  (inr (json (VObj [("success", VBool true)])), www).
Proof.
  apply (delete_is_idempotent docker (with_query "missing.txt") www "missing.txt").
  - reflexivity.
  - discriminate.
  - vm_compute. reflexivity.
  - vm_compute. reflexivity.
  - vm_compute. reflexivity.
Defined.

(** ** Null characters in a path *)

(** C4, as stated, fails.  A path with an embedded null character whose
    null disappears when the path is normalised is served like any other
    (status 200); one that keeps it is answered with 500, not with the
    400 of an invalid path; and the write handler has by then created the
    parent directory. *)
Lemma null_character_not_rejected_outright :
  Str.has_char Str.nul nul_name = true /\
  (App.serve docker App.GET_api_files_content
     (with_query (nul_name +:+ "/../index.html")) www).1 =
    inr (json (VObj [("content", VStr "<h1>hi</h1>")])) /\
  (exists msg,
     (App.serve docker App.GET_api_files_content (with_query nul_name) www).1 =
       inr (status_json 500 (App.error_body msg))) /\
  (let w := App.serve docker App.POST_api_files
              (with_body [("filePath", VStr ("new/" +:+ nul_name)); ("content", VStr "x")])
              www in
   (exists msg, w.1 = inr (status_json 500 (App.error_body msg))) /\
   www !! ["var"; "www"; "html"; "new"] = None /\
   w.2 !! ["var"; "www"; "html"; "new"] = Some Dir).
Proof.
  split; [reflexivity |]. split; [vm_compute; reflexivity |].
  split; [eexists; vm_compute; reflexivity |].
  cbv zeta. split; [eexists; vm_compute; reflexivity |].
  split; vm_compute; reflexivity.
Qed.

Section NullBytes.

Variable h : host.

Lemma first_call_rejects {B : Type} (p : string) (c : call B)
    (k : B -> prog response) (t : tree) :
  Str.has_char Str.nul p = true ->
  run h (try_catch (bind (Lib.validated p (await c)) k) (App.catch_500 h)) t =
  (inr (null_bytes_response h p), t).
Proof.
  intros Hnul. rewrite run_try_catch, run_bind, run_validated, Hnul. reflexivity.
Qed.

Lemma first_call_silent {B : Type} (p : string) (c : call B)
    (k : B -> prog response) (t : tree) :
  Str.has_char Str.nul p = true ->
  trace h (try_catch (bind (Lib.validated p (await c)) k) (App.catch_500 h)) t = [].
Proof. intros Hnul. unfold Lib.validated. rewrite Hnul. reflexivity. Qed.

(** C4, as amended: a path input with an embedded null character is
    not refused as an invalid path.  It is joined onto the root and
    prefix-checked like any other; when the joined path still holds the
    null character and passes the check, the listing, content and delete
    handlers answer 500 with the message of Node's argument check and
    leave the tree as it was (the content handler issues no filesystem
    step at all), and the write handler answers 500 as well. *)
Theorem null_path_ends_in_500 (req wreq : request) (t : tree) (s : string) :
  prop (query req) "path" = VStr s ->
  prop (body wreq) "filePath" = VStr s ->
  Str.has_char Str.nul s = true ->
  Str.startsWith (Path.join [App.FILES_DIR h; s]) (App.FILES_DIR h) = true ->
  Str.has_char Str.nul (Path.join [App.FILES_DIR h; s]) = true ->
  App.serve h App.GET_api_files req t = (inr (null_bytes_response h (Path.join [App.FILES_DIR h; s])), t) /\
  App.serve h App.GET_api_files_content req t
    = (inr (null_bytes_response h (Path.join [App.FILES_DIR h; s])), t) /\
  App.serve h App.DELETE_api_files req t
    = (inr (null_bytes_response h (Path.join [App.FILES_DIR h; s])), t) /\
  trace h (App.get_api_files_content h req) t = [] /\
  exists r t', App.serve h App.POST_api_files wreq t = (inr r, t') /\ status r = 500.
Proof.
  intros Hq Hb Hs Hprefix Hnul.
  assert (Htruthy : truthy (VStr s) = true).
  { apply truthy_VStr. intros ->. discriminate. }
  unfold App.serve, App.route.
  repeat split.
  - unfold App.get_api_files. rewrite Hq, Htruthy.
    unfold Lib.path_join. cbn [Lib.strings_of bind]. rewrite Hprefix. cbn [negb].
    apply first_call_rejects. exact Hnul.
  - unfold App.get_api_files_content. rewrite Hq, Htruthy. cbn [negb].
    unfold Lib.path_join. cbn [Lib.strings_of bind]. rewrite Hprefix. cbn [negb].
    apply first_call_rejects. exact Hnul.
  - unfold App.delete_api_files. cbv zeta. rewrite Hq, Htruthy. cbn [negb].
    unfold Lib.path_join. cbn [Lib.strings_of bind]. rewrite Hprefix. cbn [negb].
    apply first_call_rejects. exact Hnul.
  - unfold App.get_api_files_content. rewrite Hq, Htruthy. cbn [negb].
    unfold Lib.path_join. cbn [Lib.strings_of bind]. rewrite Hprefix. cbn [negb].
    apply first_call_silent. exact Hnul.
  - unfold App.post_api_files. cbv zeta. rewrite Hb, Htruthy. cbn [negb].
    unfold Lib.path_join. cbn [Lib.strings_of bind]. rewrite Hprefix. cbn [negb].
    rewrite run_try_catch, run_bind.
    destruct (run h (Lib.ensureDir _) t) as [[e | []] t1]; [simpl; eauto |].
    rewrite run_bind.
    assert (Hw : exists e, run h (Lib.writeFile (Path.join [App.FILES_DIR h; s])
                                    (js_or (prop (body wreq) "content") (VStr ""))) t1
                           = (inl e, t1)).
    { unfold Lib.writeFile.
      destruct (js_or _ _); try (eexists; reflexivity).
      rewrite run_validated, Hnul. eexists; reflexivity. }
    destruct Hw as [e ->]. simpl. eauto.
Qed.

End NullBytes.

Lemma null_path_ends_in_500_witness :
  exists r t',
    App.serve docker App.GET_api_files_content (with_query nul_name) www = (inr r, t') /\
    status r = 500.
Proof.
  destruct (null_path_ends_in_500 docker (with_query nul_name)
              (with_body [("filePath", VStr nul_name)]) www nul_name)
    as (_ & Hcontent & _ & _ & _).
  - reflexivity.
  - reflexivity.
  - reflexivity.
  - vm_compute. reflexivity.
  - vm_compute. reflexivity.
  - eexists _, _. split; [exact Hcontent | reflexivity].
Defined.

(** ** Facts about the filesystem steps *)

Section FsLemmas.

Variable h : host.

Lemma append_empty_r (s : string) : s +:+ "" = s.
Proof.
  induction s as [| c s IH]; [reflexivity |].
  change (String c (s +:+ "") = String c s). now rewrite IH.
Qed.

Lemma overlay_empty (c : string) : Fs.overlay "" 0 c = c.
Proof.
  unfold Fs.overlay. simpl.
  change (c +:+ String.substring (String.length c) (0 - String.length c) "" = c).
  destruct (String.length c); simpl; apply append_empty_r.
Qed.

Lemma ancestors_shorter (k a : list string) :
  In a (Fs.ancestors k) -> (length a < length k)%nat.
Proof.
  revert a. induction k as [| x k IH]; intros a Ha; simpl in *; [contradiction |].
  destruct Ha as [<- | Ha]; [simpl; lia |].
  apply in_map_iff in Ha as (a' & <- & Ha'). simpl. apply IH in Ha'. lia.
Qed.

Lemma node_at_insert_ne (t : tree) (k a : list string) (n : node) :
  a <> k -> Fs.node_at (<[k := n]> t) a = Fs.node_at t a.
Proof.
  intros Hne. destruct a; [reflexivity |]. simpl.
  apply lookup_insert_ne. congruence.
Qed.

Lemma blocked_insert (t : tree) (k : list string) (n : node) (ps : list (list string)) :
  ~ In k ps -> Fs.blocked (<[k := n]> t) ps = Fs.blocked t ps.
Proof.
  induction ps as [| a ps IH]; intros Hk; simpl; [reflexivity |].
  rewrite node_at_insert_ne by (intros ->; apply Hk; left; reflexivity).
  rewrite IH by (intros Hin; apply Hk; right; exact Hin).
  reflexivity.
Qed.

Lemma blocked_insert_self (t : tree) (k : list string) (n : node) :
  Fs.blocked (<[k := n]> t) (Fs.ancestors k) = Fs.blocked t (Fs.ancestors k).
Proof.
  apply blocked_insert. intros Hin. apply ancestors_shorter in Hin. lia.
Qed.

(** Where a path resolved to a file or to nothing, writing a file
    there makes it resolve to that file. *)
Lemma lookup_path_written (t : tree) (p : string) (k : list string)
    (o : option node) (c : string) :
  Fs.lookup_path h t p = inr (k, o) ->
  o <> Some Dir ->
  Str.last_is Str.slash p = false ->
  Fs.lookup_path h (<[k := File c]> t) p = inr (k, Some (File c)).
Proof.
  unfold Fs.lookup_path. intros Hlook Ho Hslash.
  destruct (String.eqb p ""); [discriminate |].
  destruct (Fs.blocked t (Fs.ancestors (Fs.key h p))) eqn:Hblocked; [discriminate |].
  assert (Hk : k = Fs.key h p).
  { destruct (Fs.node_at t (Fs.key h p)) as [[c0 |] |];
      [ rewrite Hslash in Hlook | |]; congruence. }
  subst k. rewrite blocked_insert_self, Hblocked.
  destruct (Fs.key h p) as [| x k'] eqn:Hkey.
  - exfalso. apply Ho. simpl in Hlook. congruence.
  - simpl. rewrite lookup_insert_eq, Hslash. reflexivity.
Qed.

(** A successful open for writing leaves an empty file at the key it
    returns. *)
Lemma openW_inv (t t2 : tree) (p : string) (k : list string) :
  Fs.exec h (OpenW p) t = (inr k, t2) ->
  t2 = <[k := File ""]> t /\
  Str.last_is Str.slash p = false /\
  exists o, Fs.lookup_path h t p = inr (k, o) /\ o <> Some Dir.
Proof.
  cbn [Fs.exec]. intros H.
  destruct (Fs.lookup_path h t p) as [e | [k0 [[c |] |]]] eqn:Hlook; try discriminate.
  - injection H as <- <-. split; [reflexivity |].
    split; [| eexists; split; [reflexivity | discriminate]].
    unfold Fs.lookup_path in Hlook.
    destruct (String.eqb p ""); [discriminate |].
    destruct (Fs.blocked _ _); [discriminate |].
    destruct (Fs.node_at _ _) as [[c0 |] |]; try congruence.
    destruct (Str.last_is Str.slash p); [discriminate | reflexivity].
  - destruct (Str.last_is Str.slash p); [discriminate |].
    injection H as <- <-. split; [reflexivity |].
    split; [reflexivity |]. eexists; split; [reflexivity | discriminate].
Qed.

Lemma run_writeFile (p c : string) (t : tree) :
  run h (Lib.writeFile p (VStr c)) t =
  if Str.has_char Str.nul p then (inl (NullBytes p), t)
  else match Fs.exec h (OpenW p) t with
       | (inl e, t1) => (inl e, t1)
       | (inr fd, t1) => Fs.exec h (Write fd 0 (Utf8.encode c)) t1
       end.
Proof.
  unfold Lib.writeFile. rewrite run_validated.
  destruct (Str.has_char Str.nul p); [reflexivity |].
  rewrite run_bind, run_await.
  destruct (Fs.exec h (OpenW p) t) as [[e | fd] t1]; [reflexivity |].
  apply run_await.
Qed.

(** [fs.writeFile] on a fresh descriptor: when it succeeds the target
    resolves to a file holding exactly the bytes of the data. *)
Lemma writeFile_inv (p c : string) (t t' : tree) :
  run h (Lib.writeFile p (VStr c)) t = (inr tt, t') ->
  Str.has_char Str.nul p = false /\
  exists k, Fs.lookup_path h t' p = inr (k, Some (File (Utf8.encode c))).
Proof.
  rewrite run_writeFile.
  destruct (Str.has_char Str.nul p); [discriminate |]. intros H.
  split; [reflexivity |].
  destruct (Fs.exec h (OpenW p) t) as [[e | k] t1] eqn:Hopen; [discriminate |].
  apply openW_inv in Hopen as (-> & Hslash & o & Hlook & Ho).
  exists k. cbn [Fs.exec] in H. rewrite lookup_insert_eq in H.
  apply (f_equal snd) in H. simpl in H. subst t'. rewrite overlay_empty.
  apply lookup_path_written with (o := Some (File "")); [| discriminate | exact Hslash].
  apply lookup_path_written with (o := o); assumption.
Qed.

Lemma run_readFile (p : string) (t : tree) :
  run h (Lib.readFile_utf8 p) t =
  if Str.has_char Str.nul p then (inl (NullBytes p), t)
  else match Fs.exec h (ReadFile p) t with
       | (inl e, t1) => (inl e, t1)
       | (inr bytes, t1) => (inr (Utf8.decode bytes), t1)
       end.
Proof.
  unfold Lib.readFile_utf8. rewrite run_validated.
  destruct (Str.has_char Str.nul p); [reflexivity |].
  rewrite run_bind, run_await.
  destruct (Fs.exec h (ReadFile p) t) as [[e | bytes] t1]; reflexivity.
Qed.

End FsLemmas.

(** ** Writing and reading back *)

Lemma js_or_string (c : string) : js_or (VStr c) (VStr "") = VStr c.
Proof. destruct c; reflexivity. Qed.

(** A write that answers 200 has passed the checks and left the bytes
    of the content at the target. *)
Lemma post_success_inv (h : host) (req : request) (t t' : tree)
    (s c : string) (r : response) :
  prop (body req) "filePath" = VStr s ->
  prop (body req) "content" = VStr c ->
  App.serve h App.POST_api_files req t = (inr r, t') ->
  status r = 200 ->
  s <> "" /\
  Str.startsWith (Path.join [App.FILES_DIR h; s]) (App.FILES_DIR h) = true /\
  Str.has_char Str.nul (Path.join [App.FILES_DIR h; s]) = false /\
  exists k, Fs.lookup_path h t' (Path.join [App.FILES_DIR h; s])
            = inr (k, Some (File (Utf8.encode c))).
Proof.
  intros Hpath Hcontent Hpost Hok.
  unfold App.serve, App.route, App.post_api_files in Hpost. cbv zeta in Hpost.
  rewrite Hpath, Hcontent, js_or_string in Hpost.
  destruct (truthy (VStr s)) eqn:Hs; cbn [negb] in Hpost.
  2: { simpl in Hpost. injection Hpost as <- <-. discriminate. }
  apply truthy_VStr in Hs.
  unfold Lib.path_join in Hpost. cbn [Lib.strings_of bind] in Hpost.
  destruct (Str.startsWith (Path.join [App.FILES_DIR h; s]) (App.FILES_DIR h));
    cbn [negb] in Hpost.
  2: { simpl in Hpost. injection Hpost as <- <-. discriminate. }
  rewrite run_try_catch, run_bind in Hpost.
  destruct (run h (Lib.ensureDir _) t) as [[e | []] t1].
  { simpl in Hpost. injection Hpost as <- <-. discriminate. }
  rewrite run_bind in Hpost.
  destruct (run h (Lib.writeFile _ _) t1) as [[e | []] t2] eqn:Hwrite.
  { simpl in Hpost. injection Hpost as <- <-. discriminate. }
  simpl in Hpost. injection Hpost as <- <-.
  apply writeFile_inv in Hwrite as (Hnul & k & Hlook).
  repeat split; [exact Hs | exact Hnul | exists k; exact Hlook].
Qed.

(** C7, as stated, fails.  The content of a write is a JavaScript
    string, and one that holds a surrogate without its pair (the JSON
    text ["\ud800"]) has no UTF-8 encoding: [fs.writeFile] stores U+FFFD
    in its place, and reading the file gives U+FFFD back. *)
Lemma lone_surrogate_is_replaced :
  let wrote := App.serve docker App.POST_api_files
                 (with_body [("filePath", VStr "a.txt"); ("content", VStr lone_surrogate)])
                 www in
  wrote.1 = inr (json (VObj [("success", VBool true); ("path", VStr "a.txt")])) /\
  (App.serve docker App.GET_api_files_content (with_query "a.txt") wrote.2).1 =
    inr (json (VObj [("content", VStr Utf8.replacement)])) /\
  Utf8.replacement <> lone_surrogate.
Proof.
  cbv zeta. split; [vm_compute; reflexivity |].
  split; [vm_compute; reflexivity | discriminate].
Qed.

(** C7, as amended: when a write of [content] to a path has succeeded,
    reading the content of the same path returns the text that decoding
    the written bytes gives; for content that is well-formed Unicode
    this is exactly [content]. *)
Theorem write_then_read_content (h : host) (wreq rreq : request) (t t' : tree)
    (s c : string) (r : response) :
  prop (body wreq) "filePath" = VStr s ->
  prop (body wreq) "content" = VStr c ->
  prop (query rreq) "path" = VStr s ->
  App.serve h App.POST_api_files wreq t = (inr r, t') ->
  status r = 200 ->
  App.serve h App.GET_api_files_content rreq t' =
    (inr (json (VObj [("content", VStr (Utf8.decode (Utf8.encode c)))])), t') /\
  (Utf8.isUtf8 c = true ->
   App.serve h App.GET_api_files_content rreq t' =
     (inr (json (VObj [("content", VStr c)])), t')).
Proof.
  intros Hpath Hcontent Hquery Hpost Hok.
  destruct (post_success_inv h wreq t t' s c r Hpath Hcontent Hpost Hok)
    as (Hs & Hprefix & Hnul & k & Hlook).
  assert (Hread : App.serve h App.GET_api_files_content rreq t' =
                  (inr (json (VObj [("content", VStr (Utf8.decode (Utf8.encode c)))])), t')).
  { unfold App.serve, App.route, App.get_api_files_content. rewrite Hquery.
    apply truthy_VStr in Hs. rewrite Hs. cbn [negb].
    unfold Lib.path_join. cbn [Lib.strings_of bind]. rewrite Hprefix. cbn [negb].
    rewrite run_try_catch, run_bind.
    unfold Lib.stat. rewrite run_validated, Hnul, run_await.
    cbn [Fs.exec]. unfold Fs.stat_as. rewrite Hlook. cbn [Fs.stats_of isDirectory].
    rewrite run_bind, run_readFile, Hnul.
    cbn [Fs.exec]. rewrite Hlook. reflexivity. }
  split; [exact Hread |].
  intros Hwf. rewrite Hread, (utf8_encode_valid c Hwf), (utf8_decode_valid c Hwf).
  reflexivity.
Qed.

Lemma write_then_read_content_witness :
  App.serve docker App.GET_api_files_content (with_query "a/b.txt")
    (App.serve docker App.POST_api_files
       (with_body [("filePath", VStr "a/b.txt"); ("content", VStr "hello")]) www).2 =
  (inr (json (VObj [("content", VStr "hello")])),
   (App.serve docker App.POST_api_files
      (with_body [("filePath", VStr "a/b.txt"); ("content", VStr "hello")]) www).2).
Proof.
  refine (proj2 (write_then_read_content docker
                   (with_body [("filePath", VStr "a/b.txt"); ("content", VStr "hello")])
                   (with_query "a/b.txt") www _ "a/b.txt" "hello"
                   (json (VObj [("success", VBool true); ("path", VStr "a/b.txt")]))
                   _ _ _ _ _) _).
  - reflexivity.
  - reflexivity.
  - reflexivity.
  - apply pair_of_fst. vm_compute. reflexivity.
  - reflexivity.
  - reflexivity.
Defined.

(** ** Writing without content *)

Section MissingContent.

Variable h : host.



End MissingContent.


(** ** Writing in place *)

(** C2, as stated, fails.  Overwriting [index.html] issues three steps:
    the creation of the parent directory, an open of the target itself,
    and a write to it.  There is no temporary file and no rename; a
    request cut short after the open has lost the original content (the
    target is empty), and a reader served between the open and the write
    is sent that empty content, which is neither the old nor the new. *)
Lemma write_is_not_atomic :
  let p := App.post_api_files docker
             (with_body [("filePath", VStr "index.html"); ("content", VStr "new")]) in
  www !! index_html = Some (File "<h1>hi</h1>") /\
  trace docker p www =
    [Event (Mkdirp "/var/www/html");
     Event (OpenW "/var/www/html/index.html");
     Event (Write index_html 0 "new")] /\
  settled (run_steps docker 2 p www).1 = None /\
  (run_steps docker 2 p www).2 !! index_html = Some (File "") /\
  (run docker p www).2 !! index_html = Some (File "new") /\
  settled (interleave docker [true; true; false; false; true] p
             (App.get_api_files_content docker (with_query "index.html")) www).1.2 =
    Some (inr (json (VObj [("content", VStr "")]))).
Proof. cbv zeta. repeat split; vm_compute; reflexivity. Qed.

Section InPlace.

Variable h : host.

Lemma lookup_path_key (t : tree) (p : string) (k : list string) (o : option node) :
  Fs.lookup_path h t p = inr (k, o) -> k = Fs.key h p.
Proof.
  unfold Fs.lookup_path.
  destruct (String.eqb p ""); [discriminate |].
  destruct (Fs.blocked _ _); [discriminate |].
  destruct (Fs.node_at _ _) as [[c |] |]; [destruct (Str.last_is _ _) | |]; congruence.
Qed.

(** C2, as amended: a write is done in place.  Besides creating the
    parent directories, the only steps the handler issues are an open of
    the target path itself, which creates or truncates it, and a write of
    the bytes of the content to that descriptor: it writes no temporary file and
    renames nothing.  A write cut short after the open and before the
    write leaves an empty file at the target. *)
Theorem write_is_in_place (req : request) (t : tree) (s c : string) :
  prop (body req) "filePath" = VStr s ->
  prop (body req) "content" = VStr c ->
  s <> "" ->
  (forall e, In e (trace h (App.post_api_files h req) t) ->
     e = Event (Mkdirp (Path.dirname (Path.join [App.FILES_DIR h; s]))) \/
     e = Event (OpenW (Path.join [App.FILES_DIR h; s])) \/
     e = Event (Write (Fs.key h (Path.join [App.FILES_DIR h; s])) 0 (Utf8.encode c))) /\
  (forall p2 t2,
     run_steps h 2 (App.post_api_files h req) t = (p2, t2) ->
     settled p2 = None ->
     t2 !! Fs.key h (Path.join [App.FILES_DIR h; s]) = Some (File "")).
Proof.
  intros Hpath Hcontent Hs.
  unfold App.post_api_files. cbv zeta.
  rewrite Hpath, Hcontent, js_or_string.
  apply truthy_VStr in Hs. rewrite Hs. cbn [negb].
  unfold Lib.path_join. cbn [Lib.strings_of bind].
  set (fullPath := Path.join [App.FILES_DIR h; s]).
  destruct (Str.startsWith fullPath (App.FILES_DIR h)); cbn [negb].
  2: { split; [intros e [] | intros p2 t2 H; injection H as <- <-; discriminate]. }
  unfold Lib.ensureDir, Lib.writeFile, Lib.validated.
  destruct (Str.has_char Str.nul (Path.dirname fullPath)).
  { split; [intros e [] | intros p2 t2 H; injection H as <- <-; discriminate]. }
  cbn [await bind try_catch trace run_steps step].
  destruct (Fs.exec h (Mkdirp (Path.dirname fullPath)) t) as [[e1 | []] t1].
  { split; [ intros e [<- | []]; auto
           | intros p2 t2 H; injection H as <- <-; discriminate ]. }
  destruct (Str.has_char Str.nul fullPath).
  { split; [ intros e [<- | []]; auto
           | intros p2 t2 H; injection H as <- <-; discriminate ]. }
  cbn [await bind try_catch trace step].
  destruct (Fs.exec h (OpenW fullPath) t1) as [[e2 | fd] t2] eqn:Hopen.
  { split; [ intros e [<- | [<- | []]]; auto
           | intros p2 t2' H; injection H as <- <-; discriminate ]. }
  apply openW_inv in Hopen as (-> & _ & o & Hlook & _).
  apply lookup_path_key in Hlook. subst fd.
  cbn [await bind try_catch trace].
  destruct (Fs.exec h (Write _ 0 (Utf8.encode c)) _) as [[e3 | []] t3].
  - split; [ intros e [<- | [<- | [<- | []]]]; auto
           | intros p2 t2' H; injection H as <- <-; intros _; apply lookup_insert_eq ].
  - split; [ intros e [<- | [<- | [<- | []]]]; auto
           | intros p2 t2' H; injection H as <- <-; intros _; apply lookup_insert_eq ].
Qed.

End InPlace.

Lemma write_is_in_place_witness :
  (run_steps docker 2 (App.post_api_files docker
     (with_body [("filePath", VStr "index.html"); ("content", VStr "new")])) www).2
    !! Fs.key docker (Path.join [App.FILES_DIR docker; "index.html"]) = Some (File "").
Proof.
  refine (proj2 (write_is_in_place docker
                   (with_body [("filePath", VStr "index.html"); ("content", VStr "new")])
                   www "index.html" "new" _ _ _) _ _ (surjective_pairing _) _).
  - reflexivity.
  - reflexivity.
  - discriminate.
  - vm_compute. reflexivity.
Defined.

(** ** Two requests in flight *)

(** C3, as stated, fails.  Two writes to [index.html], of [AAAA] and of
    [BB], whose steps alternate both answer 200 and leave [BBAA]: neither
    what the first followed by the second leaves ([BB]) nor what the second
    followed by the first leaves ([AAAA]). *)
Lemma concurrent_writes_interleave :
  let p := App.post_api_files docker
             (with_body [("filePath", VStr "index.html"); ("content", VStr "AAAA")]) in
  let q := App.post_api_files docker
             (with_body [("filePath", VStr "index.html"); ("content", VStr "BB")]) in
  let ok := json (VObj [("success", VBool true); ("path", VStr "index.html")]) in
  let both := interleave docker [true; false; true; false; true; false] p q www in
  settled both.1.1 = Some (inr ok) /\
  settled both.1.2 = Some (inr ok) /\
  both.2 !! index_html = Some (File "BBAA") /\
  (run docker q (run docker p www).2).2 !! index_html = Some (File "BB") /\
  (run docker p (run docker q www).2).2 !! index_html = Some (File "AAAA").
Proof. cbv zeta. repeat split; vm_compute; reflexivity. Qed.

Section Interleaving.

Variable h : host.
Variable s : string.

Lemma mkdirs_preserves (ps : list (list string)) (t t' : tree) :
  Fs.mkdirs t ps = inr t' ->
  forall k n, t !! k = Some n -> t' !! k = Some n.
Proof.
  revert t. induction ps as [| p ps IH]; intros t Hmk k n Hk; simpl in Hmk.
  - congruence.
  - destruct (Fs.node_at t p) as [[c |] |] eqn:Hp; [discriminate | eauto |].
    apply (IH _ Hmk). rewrite lookup_insert_ne; [exact Hk |].
    intros ->. destruct k; simpl in Hp; congruence.
Qed.

(** A write request is the first stage of its thread. *)
Lemma post_is_thread (req : request) (c : string) :
  prop (body req) "filePath" = VStr s ->
  prop (body req) "content" = VStr c ->
  s <> "" ->
  Str.startsWith (fullPath h s) (App.FILES_DIR h) = true ->
  App.post_api_files h req = thread h s c Start.
Proof.
  intros Hpath Hcontent Hs Hprefix.
  unfold App.post_api_files, thread. cbv zeta.
  rewrite Hpath, Hcontent, js_or_string.
  apply truthy_VStr in Hs. rewrite Hs. cbn [negb].
  unfold Lib.path_join. cbn [Lib.strings_of bind].
  fold (fullPath h s). rewrite Hprefix. reflexivity.
Qed.

(** Each step of a thread takes it to a later stage. *)
Lemma step_thread (c : string) (st : stage) (t t' : tree) (p' : prog response) :
  step h (thread h s c st) t = (p', t') ->
  exists st', p' = thread h s c st' /\ transition h s c st st' t t'.
Proof.
  destruct st as [| | | | e]; unfold thread; cbv zeta.
  - unfold Lib.ensureDir, Lib.validated.
    destruct (Str.has_char Str.nul (Path.dirname (fullPath h s))).
    + intros H. injection H as <- <-.
      exists (Failed (NullBytes (Path.dirname (fullPath h s)))).
      split; [reflexivity | right; eauto].
    + cbn [await bind try_catch step].
      destruct (Fs.exec h (Mkdirp _) t) as [[e | []] t1] eqn:Hexec;
        intros H; injection H as <- <-.
      * exists (Failed e). split; [reflexivity |]. right. exists e. split; [reflexivity |].
        cbn [Fs.exec] in Hexec. destruct (Fs.mkdirs _ _); congruence.
      * exists Made. split; [reflexivity |]. left. split; [reflexivity |].
        cbn [Fs.exec] in Hexec.
        destruct (Fs.mkdirs t _) as [e | t2] eqn:Hmk; [discriminate |].
        injection Hexec as <-. eapply mkdirs_preserves. exact Hmk.
  - unfold Lib.writeFile, Lib.validated.
    destruct (Str.has_char Str.nul (fullPath h s)).
    + intros H. injection H as <- <-.
      exists (Failed (NullBytes (fullPath h s))).
      split; [reflexivity | right; eauto].
    + cbn [await bind try_catch step].
      destruct (Fs.exec h (OpenW _) t) as [[e | fd] t1] eqn:Hexec;
        intros H; injection H as <- <-.
      * exists (Failed e). split; [reflexivity |]. right. exists e. split; [reflexivity |].
        cbn [Fs.exec] in Hexec.
        destruct (Fs.lookup_path h t (fullPath h s)) as [e0 | [k [[c0 |] |]]];
          try destruct (Str.last_is _ _); congruence.
      * apply openW_inv in Hexec as (-> & _ & o & Hlook & _).
        apply lookup_path_key in Hlook. subst fd.
        exists Opened. split; [reflexivity |]. left. split; reflexivity.
  - cbn [await bind try_catch step].
    destruct (Fs.exec h (Write _ 0 (Utf8.encode c)) t) as [[e | []] t1] eqn:Hexec;
      intros H; injection H as <- <-; cbn [Fs.exec] in Hexec.
    + destruct (t !! target h s) as [[x |] |]; discriminate.
    + exists Done. split; [reflexivity |]. split; [reflexivity |].
      intros x Hx. rewrite Hx in Hexec. congruence.
  - intros H. injection H as <- <-. exists Done. split; [reflexivity | split; reflexivity].
  - intros H. injection H as <- <-. exists (Failed e).
    split; [reflexivity | split; reflexivity].
Qed.

Ltac unpack :=
  repeat match goal with
    | H : _ \/ _ |- _ => destruct H
    | H : _ /\ _ |- _ => destruct H
    | H : exists _, _ |- _ => destruct H
    | H : In _ (_ :: _) |- _ => destruct H
    | H : In _ [] |- _ => destruct H
    | H : True |- _ => clear H
    end; subst.

Ltac holds x := exists x; split; [ | simpl; auto 10 ].

Ltac settle :=
  unpack; simpl;
  try exact I;
  try discriminate;
  match goal with
  | Hw : forall x, ?t !! _ = Some (File x) -> _, Hx : ?t !! _ = Some (File ?x0) |- _ =>
      rewrite (Hw _ Hx); rewrite ?overlay_empty;
      eexists; split; [ apply lookup_insert_eq | rewrite ?overlay_empty; simpl; auto 10 ]
  | |- exists x, <[_ := File ?c]> _ !! _ = _ /\ _ =>
      holds c; apply lookup_insert_eq
  | Hp : forall k n, ?t !! k = Some n -> _, Hx : ?t !! _ = Some (File ?x0) |- _ =>
      holds x0; apply Hp; exact Hx
  | Hx : ?t !! _ = Some (File ?x0) |- exists x, ?t !! _ = _ /\ _ =>
      holds x0; exact Hx
  end.

Lemma consistent_left (c1 c2 : string) (s1 s1' s2 : stage) (t t' : tree) :
  consistent h s (Utf8.encode c1) (Utf8.encode c2) s1 s2 t ->
  transition h s c1 s1 s1' t t' ->
  consistent h s (Utf8.encode c1) (Utf8.encode c2) s1' s2 t'.
Proof.
  unfold consistent, transition.
  destruct s1, s2; simpl; intros Hc Ht; settle.
Qed.

Lemma consistent_right (c1 c2 : string) (s1 s2 s2' : stage) (t t' : tree) :
  consistent h s (Utf8.encode c1) (Utf8.encode c2) s1 s2 t ->
  transition h s c2 s2 s2' t t' ->
  consistent h s (Utf8.encode c1) (Utf8.encode c2) s1 s2' t'.
Proof.
  unfold consistent, transition.
  destruct s1, s2; simpl; intros Hc Ht; settle.
Qed.

Lemma interleave_threads (c1 c2 : string) (schedule : list bool) :
  forall (s1 s2 : stage) (t t' : tree) (p' q' : prog response),
    consistent h s (Utf8.encode c1) (Utf8.encode c2) s1 s2 t ->
    interleave h schedule (thread h s c1 s1) (thread h s c2 s2) t = (p', q', t') ->
    exists s1' s2',
      p' = thread h s c1 s1' /\ q' = thread h s c2 s2' /\
      consistent h s (Utf8.encode c1) (Utf8.encode c2) s1' s2' t'.
Proof.
  induction schedule as [| [] schedule IH]; intros s1 s2 t t' p' q' Hc Hrun;
    simpl in Hrun.
  - injection Hrun as <- <- <-. eauto.
  - destruct (step h (thread h s c1 s1) t) as [p1 t1] eqn:Hstep.
    apply step_thread in Hstep as (s1' & -> & Htr).
    eapply IH; [| exact Hrun]. eapply consistent_left; eassumption.
  - destruct (step h (thread h s c2 s2) t) as [q1 t1] eqn:Hstep.
    apply step_thread in Hstep as (s2' & -> & Htr).
    eapply IH; [| exact Hrun]. eapply consistent_right; eassumption.
Qed.

Lemma thread_done (c : string) (st : stage) (r : response) :
  settled (thread h s c st) = Some (inr r) -> status r = 200 -> st = Done.
Proof.
  destruct st as [| | | | e]; unfold thread; cbv zeta; try reflexivity.
  - unfold Lib.ensureDir, Lib.validated. destruct (Str.has_char _ _); simpl.
    + intros H. injection H as <-. discriminate.
    + discriminate.
  - unfold Lib.writeFile, Lib.validated. destruct (Str.has_char _ _); simpl.
    + intros H. injection H as <-. discriminate.
    + discriminate.
  - discriminate.
  - simpl. intros H. injection H as <-. discriminate.
Qed.

(** A request that has answered stays as it is. *)
Lemma interleave_settled_left {A : Type} (schedule : list bool) (p q : prog A) (t : tree) :
  settled p <> None -> (interleave h schedule p q t).1.1 = p.
Proof.
  intros Hp. revert q t. induction schedule as [| [] schedule IH]; intros q t; simpl.
  - reflexivity.
  - destruct p; simpl; [apply IH | apply IH | contradiction].
  - destruct (step h q t) as [q' t']. apply IH.
Qed.

End Interleaving.

(** C3, as amended: no lock is taken, and the steps of two operations on
    the same path interleave.  Two writes to the same path that do not
    overlap apply in their order: the file holds the content of the later
    one.  When they overlap and both answer 200, the file holds the
    content of one of them, or the content of one written over the
    beginning of the other.  (The content of a file is the bytes that
    encode the string that was sent.) *)
Theorem overlapping_writes (h : host) (req1 req2 : request) (t : tree) (s c1 c2 : string) :
  prop (body req1) "filePath" = VStr s ->
  prop (body req1) "content" = VStr c1 ->
  prop (body req2) "filePath" = VStr s ->
  prop (body req2) "content" = VStr c2 ->
  (forall r1 r2 t1 t2,
      App.serve h App.POST_api_files req1 t = (inr r1, t1) ->
      App.serve h App.POST_api_files req2 t1 = (inr r2, t2) ->
      status r2 = 200 ->
      exists k, Fs.lookup_path h t2 (fullPath h s) = inr (k, Some (File (Utf8.encode c2)))) /\
  (forall schedule p' q' t' r1 r2,
      interleave h schedule (App.post_api_files h req1) (App.post_api_files h req2) t
        = (p', q', t') ->
      settled p' = Some (inr r1) -> status r1 = 200 ->
      settled q' = Some (inr r2) -> status r2 = 200 ->
      exists x, t' !! target h s = Some (File x) /\
                In x [Utf8.encode c1; Utf8.encode c2;
                      Fs.overlay (Utf8.encode c1) 0 (Utf8.encode c2);
                      Fs.overlay (Utf8.encode c2) 0 (Utf8.encode c1)]).
Proof.
  intros Hpath1 Hcontent1 Hpath2 Hcontent2. split.
  - intros r1 r2 t1 t2 _ Hsecond Hok.
    destruct (post_success_inv h req2 t1 t2 s c2 r2 Hpath2 Hcontent2 Hsecond Hok)
      as (_ & _ & _ & Hk).
    exact Hk.
  - intros schedule p' q' t' r1 r2 Hrun Hp H1 Hq H2.
    destruct (String.eqb_spec s "") as [-> | Hs].
    { pose proof (interleave_settled_left h schedule
                    (App.post_api_files h req1) (App.post_api_files h req2) t) as Hkeep.
      rewrite Hrun in Hkeep. simpl in Hkeep.
      unfold App.post_api_files in Hkeep. cbv zeta in Hkeep.
      rewrite Hpath1 in Hkeep. simpl in Hkeep.
      rewrite Hkeep in Hp by discriminate. injection Hp as <-. discriminate. }
    destruct (Str.startsWith (fullPath h s) (App.FILES_DIR h)) eqn:Hprefix.
    2: { pose proof (interleave_settled_left h schedule
                    (App.post_api_files h req1) (App.post_api_files h req2) t) as Hkeep.
      rewrite Hrun in Hkeep. simpl in Hkeep.
      unfold App.post_api_files in Hkeep. cbv zeta in Hkeep.
      rewrite Hpath1 in Hkeep. apply truthy_VStr in Hs. rewrite Hs in Hkeep.
      unfold Lib.path_join in Hkeep. cbn [Lib.strings_of bind negb] in Hkeep.
      fold (fullPath h s) in Hkeep. rewrite Hprefix in Hkeep. simpl in Hkeep.
      rewrite Hkeep in Hp by discriminate. injection Hp as <-. discriminate. }
    rewrite (post_is_thread h s req1 c1), (post_is_thread h s req2 c2) in Hrun
      by assumption.
    apply (interleave_threads h s c1 c2) in Hrun as (s1' & s2' & -> & -> & Hc);
      [| exact I].
    apply thread_done in Hp; [| exact H1]. apply thread_done in Hq; [| exact H2].
    subst s1' s2'. exact Hc.
Qed.

Lemma triple_eta {A B C : Type} (x : A * B * C) : x = (x.1.1, x.1.2, x.2).
Proof. destruct x as [[a b] c]. reflexivity. Qed.

Lemma overlapping_writes_witness :
  exists x,
    (interleave docker [true; false; true; false; true; false]
       (App.post_api_files docker
          (with_body [("filePath", VStr "index.html"); ("content", VStr "AAAA")]))
       (App.post_api_files docker
          (with_body [("filePath", VStr "index.html"); ("content", VStr "BB")]))
       www).2 !! target docker "index.html" = Some (File x) /\
    In x ["AAAA"; "BB"; Fs.overlay "AAAA" 0 "BB"; Fs.overlay "BB" 0 "AAAA"].
Proof.
  refine (proj2 (overlapping_writes docker
                   (with_body [("filePath", VStr "index.html"); ("content", VStr "AAAA")])
                   (with_body [("filePath", VStr "index.html"); ("content", VStr "BB")])
                   www "index.html" "AAAA" "BB" _ _ _ _)
            [true; false; true; false; true; false] _ _ _
            (json (VObj [("success", VBool true); ("path", VStr "index.html")]))
            (json (VObj [("success", VBool true); ("path", VStr "index.html")]))
            (triple_eta _) _ _ _ _).
  - reflexivity.
  - reflexivity.
  - reflexivity.
  - reflexivity.
  - vm_compute. reflexivity.
  - reflexivity.
  - vm_compute. reflexivity.
  - reflexivity.
Defined.

(** * Further properties *)

(** ** Requests that only read *)

Section Reading.

Variable h : host.

Lemma exec_reads {B : Type} (c : call B) (t : tree) :
  reads c = true -> (Fs.exec h c t).2 = t.
Proof.
  destruct c; try discriminate; intros _; cbn [Fs.exec]; try reflexivity.
  - destruct (Fs.lookup_path h t p) as [e | [k [[c |] |]]]; reflexivity.
  - destruct (Fs.lookup_path h t p) as [e | [k [[c |] |]]]; reflexivity.
Qed.

Lemma read_only_run {A : Type} (p : prog A) (t : tree) :
  ReadOnly p -> (run h p t).2 = t /\ forallb is_read (trace h p t) = true.
Proof.
  intros Hp. revert t. induction Hp as [a | e | B c k Hc Hk IH]; intros t;
    [split; reflexivity | split; reflexivity |].
  simpl. pose proof (exec_reads c t Hc) as Hsame.
  destruct (Fs.exec h c t) as [r t']. simpl in Hsame. subst t'.
  destruct (IH r t) as [Hrun Htrace]. split; [exact Hrun |].
  simpl. rewrite Hc, Htrace. reflexivity.
Qed.

Lemma read_only_bind {A B : Type} (p : prog A) (f : A -> prog B) :
  ReadOnly p -> (forall a, ReadOnly (f a)) -> ReadOnly (bind p f).
Proof.
  intros Hp Hf. induction Hp as [a | e | C c k Hc Hk IH]; simpl.
  - apply Hf.
  - constructor.
  - constructor; [exact Hc | exact IH].
Qed.

Lemma read_only_try_catch {A : Type} (p : prog A) (handler : js_error -> prog A) :
  ReadOnly p -> (forall e, ReadOnly (handler e)) -> ReadOnly (try_catch p handler).
Proof.
  intros Hp Hh. induction Hp as [a | e | C c k Hc Hk IH]; simpl.
  - constructor.
  - apply Hh.
  - constructor; [exact Hc | exact IH].
Qed.

Lemma read_only_await {B : Type} (c : call B) : reads c = true -> ReadOnly (await c).
Proof. intros Hc. constructor; [exact Hc |]. intros [e | b]; constructor. Qed.

Lemma read_only_validated {B : Type} (p : string) (k : prog B) :
  ReadOnly k -> ReadOnly (Lib.validated p k).
Proof. intros Hk. unfold Lib.validated. destruct (Str.has_char _ _); [constructor | exact Hk]. Qed.

Lemma read_only_path_join (args : list jsval) : ReadOnly (Lib.path_join args).
Proof. unfold Lib.path_join. destruct (Lib.strings_of args); constructor. Qed.

Lemma read_only_mapM {A B : Type} (f : A -> prog B) (l : list A) :
  (forall a, ReadOnly (f a)) -> ReadOnly (mapM f l).
Proof.
  intros Hf. induction l as [| x l IH]; simpl; [constructor |].
  apply read_only_bind; [apply Hf |]. intros y.
  apply read_only_bind; [exact IH |]. intros ys. constructor.
Qed.

Lemma read_only_stat (p : string) : ReadOnly (Lib.stat p).
Proof. apply read_only_validated, read_only_await. reflexivity. Qed.

Lemma read_only_listing (req : request) : ReadOnly (App.get_api_files h req).
Proof.
  unfold App.get_api_files.
  apply read_only_try_catch; [| intros e; constructor].
  apply read_only_bind.
  { destruct (truthy _); [apply read_only_path_join | constructor]. }
  intros dirPath. destruct (negb _); [constructor |].
  apply read_only_bind.
  { apply read_only_validated, read_only_await. reflexivity. }
  intros files. apply read_only_bind; [| intros; constructor].
  apply read_only_mapM. intros file.
  apply read_only_bind; [apply read_only_path_join |]. intros filePath.
  apply read_only_bind; [apply read_only_stat |]. intros stats. constructor.
Qed.

Lemma read_only_content (req : request) : ReadOnly (App.get_api_files_content h req).
Proof.
  unfold App.get_api_files_content.
  apply read_only_try_catch; [| intros e; constructor].
  destruct (negb _); [constructor |].
  apply read_only_bind; [apply read_only_path_join |]. intros filePath.
  destruct (negb _); [constructor |].
  apply read_only_bind; [apply read_only_stat |]. intros stats.
  destruct (isDirectory stats); [constructor |].
  apply read_only_bind; [| intros; constructor].
  apply read_only_validated, read_only_bind; [| intros; constructor].
  apply read_only_await. reflexivity.
Qed.

End Reading.

(** X1: the two GET handlers only read.  Whatever the request and the
    tree, the tree is left as it was, and every filesystem step they issue
    is a [stat], a [readdir] or a [readFile]. *)
Theorem get_requests_only_read (h : host) (req : request) (t : tree) :
  (App.serve h App.GET_api_files req t).2 = t /\
  forallb is_read (trace h (App.get_api_files h req) t) = true /\
  (App.serve h App.GET_api_files_content req t).2 = t /\
  forallb is_read (trace h (App.get_api_files_content h req) t) = true.
Proof.
  destruct (read_only_run h _ t (read_only_listing h req)) as [H1 H2].
  destruct (read_only_run h _ t (read_only_content h req)) as [H3 H4].
  repeat split; assumption.
Qed.

(** ** When a request is refused *)

Section Refusing.

Variable h : host.

Lemma startsWith_refl (s : string) : Str.startsWith s s = true.
Proof. induction s as [| c s IH]; simpl; [reflexivity |]. now rewrite Ascii.eqb_refl. Qed.

Lemma strings_of_not_string (v : jsval) :
  (forall s, v <> VStr s) ->
  Lib.strings_of [VStr (App.FILES_DIR h); v] = inl (InvalidArgType "path" "of type string" v).
Proof. intros Hv. destruct v; try reflexivity. exfalso. eapply Hv. reflexivity. Qed.

Ltac by_status :=
  repeat first
    [ progress cbv zeta
    | apply answers_ret; discriminate
    | apply answers_throw
    | apply answers_bind; intros ?
    | match goal with
      | |- answers _ _ (if ?c then _ else _) => destruct c
      end ].

(** Past the prefix check no route answers 403. *)
Lemma rest_is_not_403 (ep : App.endpoint) (req : request) (t t' : tree) (r : response) :
  ep <> App.POST_api_upload ->
  (truthy (path_input ep req) = false \/
   exists s, path_input ep req = VStr s /\
             Str.startsWith (Path.join [App.FILES_DIR h; s]) (App.FILES_DIR h) = true) ->
  App.serve h ep req t = (inr r, t') ->
  status r <> 403.
Proof.
  intros Hep Hin Hrun H403. unfold App.serve in Hrun.
  assert (Hans : exists p, App.route h ep req = try_catch p (App.catch_500 h) /\
                           answers h (fun r => status r <> 403) p).
  { destruct ep; try contradiction; simpl in Hin |- *; eexists; (split; [reflexivity |]);
      cbv zeta.
    - destruct Hin as [Hf | (s & Hs & Hprefix)].
      + rewrite Hf. cbn [bind]. rewrite startsWith_refl. cbn [negb]. by_status.
      + rewrite Hs. destruct (truthy (VStr s)).
        * unfold Lib.path_join. cbn [Lib.strings_of bind]. rewrite Hprefix. cbn [negb].
          by_status.
        * cbn [bind]. rewrite startsWith_refl. cbn [negb]. by_status.
    - destruct Hin as [Hf | (s & Hs & Hprefix)].
      + rewrite Hf. cbn [negb]. by_status.
      + rewrite Hs. destruct (truthy (VStr s)); cbn [negb]; [| by_status].
        unfold Lib.path_join. cbn [Lib.strings_of bind]. rewrite Hprefix. cbn [negb].
        by_status.
    - destruct Hin as [Hf | (s & Hs & Hprefix)].
      + rewrite Hf. cbn [negb]. by_status.
      + rewrite Hs. destruct (truthy (VStr s)); cbn [negb]; [| by_status].
        unfold Lib.path_join. cbn [Lib.strings_of bind]. rewrite Hprefix. cbn [negb].
        by_status.
    - destruct Hin as [Hf | (s & Hs & Hprefix)].
      + rewrite Hf. cbn [negb]. by_status.
      + rewrite Hs. destruct (truthy (VStr s)); cbn [negb]; [| by_status].
        unfold Lib.path_join. cbn [Lib.strings_of bind]. rewrite Hprefix. cbn [negb].
        by_status. }
  destruct Hans as (p & Hp & Hans). rewrite Hp in Hrun.
  destruct (answers_caught h _ p t Hans ltac:(intros e; discriminate))
    as (r0 & t0 & Hrun0 & Hr0).
  rewrite Hrun in Hrun0. injection Hrun0 as <- <-. exact (Hr0 H403).
Qed.

(** A truthy input that is not a string makes [path.join] throw. *)
Lemma not_a_string_run (ep : App.endpoint) (req : request) (t : tree) :
  ep <> App.POST_api_upload ->
  truthy (path_input ep req) = true ->
  (forall s, path_input ep req <> VStr s) ->
  App.serve h ep req t = (inr (not_a_string_response h (path_input ep req)), t) /\
  trace h (App.route h ep req) t = [].
Proof.
  intros Hep Htruthy Hv. unfold App.serve.
  destruct ep; try contradiction; simpl in Htruthy, Hv |- *;
    [ unfold App.get_api_files
    | unfold App.get_api_files_content
    | unfold App.post_api_files
    | unfold App.delete_api_files ];
    cbv zeta; rewrite Htruthy; cbn [negb];
    unfold Lib.path_join; rewrite (strings_of_not_string _ Hv); split; reflexivity.
Qed.

End Refusing.

(** X2: a listing, content, write or delete request is answered 403
    exactly when its path input is a non-empty string whose join with the
    root does not start with the root, as a string. *)
Theorem access_denied_iff (h : host) (ep : App.endpoint) (req : request)
    (t t' : tree) (r : response) :
  ep <> App.POST_api_upload ->
  App.serve h ep req t = (inr r, t') ->
  (status r = 403 <-> outside_prefix h (path_input ep req)).
Proof.
  intros Hep Hrun. split.
  - intros H403.
    destruct (truthy (path_input ep req)) eqn:Htruthy.
    + destruct (path_input ep req) as [| | b | n | s | d | l | fs] eqn:Hv;
        try discriminate;
        try (destruct (not_a_string_run h ep req t Hep) as [Hbad _];
             [ rewrite Hv; exact Htruthy
             | rewrite Hv; intros s0; discriminate
             | rewrite Hbad in Hrun; injection Hrun as <- <-; discriminate ]).
      exists s. split; [reflexivity |]. split; [apply truthy_VStr; exact Htruthy |].
      destruct (Str.startsWith _ _) eqn:Hprefix; [| reflexivity].
      exfalso. eapply (rest_is_not_403 h ep req t t' r Hep); [| exact Hrun | exact H403].
      right. exists s. split; [exact Hv | exact Hprefix].
    + exfalso. eapply (rest_is_not_403 h ep req t t' r Hep); [| exact Hrun | exact H403].
      left. exact Htruthy.
  - intros (s & Hv & Hs & Hprefix).
    destruct (outside_prefix_is_refused h req t s Hs Hprefix) as [Hquery Hbody].
    destruct ep; try contradiction; simpl in Hv.
    + destruct (Hquery Hv App.GET_api_files) as [Hgo _]; [simpl; auto |].
      rewrite Hgo in Hrun. injection Hrun as <- <-. reflexivity.
    + destruct (Hquery Hv App.GET_api_files_content) as [Hgo _]; [simpl; auto |].
      rewrite Hgo in Hrun. injection Hrun as <- <-. reflexivity.
    + destruct (Hbody Hv) as [Hgo _].
      rewrite Hgo in Hrun. injection Hrun as <- <-. reflexivity.
    + destruct (Hquery Hv App.DELETE_api_files) as [Hgo _]; [simpl; auto |].
      rewrite Hgo in Hrun. injection Hrun as <- <-. reflexivity.
Qed.

Lemma access_denied_iff_witness :
  status (status_json 403 (App.error_body "Access denied")) = 403 <->
  outside_prefix docker (path_input App.DELETE_api_files (with_query "../../etc/passwd")).
Proof.
  apply (access_denied_iff docker App.DELETE_api_files (with_query "../../etc/passwd") www
           (App.serve docker App.DELETE_api_files (with_query "../../etc/passwd") www).2).
  - discriminate.
  - apply pair_of_fst. vm_compute. reflexivity.
Defined.

(** X3: a truthy path input that is not a string (the array or object
    that a query such as [?path[]=a] parses to, a number or [true] in a
    JSON body) is answered 500 with the message of [path.join]'s argument
    check; no filesystem step is taken and the tree is left as it was. *)
Theorem non_string_path_is_500 (h : host) (ep : App.endpoint) (req : request) (t : tree) :
  ep <> App.POST_api_upload ->
  truthy (path_input ep req) = true ->
  (forall s, path_input ep req <> VStr s) ->
  App.serve h ep req t = (inr (not_a_string_response h (path_input ep req)), t) /\
  trace h (App.route h ep req) t = [].
Proof. exact (not_a_string_run h ep req t). Qed.

Lemma non_string_path_is_500_witness :
  App.serve docker App.GET_api_files
    {| query := VObj [("path", VArr [VStr "a"])]; body := VObj []; file := None |} www =
    (inr (not_a_string_response docker (VArr [VStr "a"])), www) /\
  trace docker (App.route docker App.GET_api_files
    {| query := VObj [("path", VArr [VStr "a"])]; body := VObj []; file := None |}) www = [].
Proof.
  apply (non_string_path_is_500 docker App.GET_api_files
           {| query := VObj [("path", VArr [VStr "a"])]; body := VObj []; file := None |} www).
  - discriminate.
  - reflexivity.
  - intros s. discriminate.
Defined.

(** ** What writing and deleting change *)

Section Effects.

Variable h : host.

Lemma lookup_prune (t : tree) (k k' : list string) :
  Fs.prune t k !! k' = if Fs.is_under k k' then None else t !! k'.
Proof.
  unfold Fs.prune. destruct (Fs.is_under k k') eqn:Hu.
  - apply map_lookup_filter_None_2. right. intros n _ Hn. simpl in Hn. congruence.
  - destruct (t !! k') as [n |] eqn:Hk'.
    + apply map_lookup_filter_Some_2; [exact Hk' | exact Hu].
    + apply map_lookup_filter_None_2. left. exact Hk'.
Qed.

Lemma is_under_longer (k k' : list string) :
  Fs.is_under k k' = true -> (length k <= length k')%nat.
Proof.
  revert k'. induction k as [| x k IH]; intros [| y k'] H; simpl in *;
    try lia; try discriminate.
  apply andb_true_iff in H as [_ H]. apply IH in H. lia.
Qed.

Lemma is_under_refl (k : list string) : Fs.is_under k k = true.
Proof. induction k as [| x k IH]; simpl; [reflexivity |]. now rewrite String.eqb_refl. Qed.

Lemma node_at_prune (t : tree) (k a : list string) :
  Fs.is_under k a = false -> Fs.node_at (Fs.prune t k) a = Fs.node_at t a.
Proof.
  intros Ha. destruct a; [reflexivity |]. simpl. rewrite lookup_prune, Ha. reflexivity.
Qed.

Lemma blocked_prune (t : tree) (k : list string) :
  Fs.blocked (Fs.prune t k) (Fs.ancestors k) = Fs.blocked t (Fs.ancestors k).
Proof.
  assert (H : forall ps, (forall a, In a ps -> Fs.is_under k a = false) ->
                         Fs.blocked (Fs.prune t k) ps = Fs.blocked t ps).
  { induction ps as [| a ps IH]; intros Hps; simpl; [reflexivity |].
    rewrite node_at_prune by (apply Hps; left; reflexivity).
    rewrite IH by (intros a' Ha'; apply Hps; right; exact Ha'). reflexivity. }
  apply H. intros a Ha. apply ancestors_shorter in Ha.
  destruct (Fs.is_under k a) eqn:Hu; [| reflexivity].
  apply is_under_longer in Hu. lia.
Qed.

(** Once a path has been pruned, nothing lies at it. *)
Lemma missing_after_prune (t : tree) (p : string) (k : list string) (n : node) :
  Fs.lookup_path h t p = inr (k, Some n) ->
  k <> [] ->
  Fs.missing h (Fs.prune t k) p = true.
Proof.
  intros Hlook Hk. pose proof (lookup_path_key h t p k _ Hlook) as ->.
  unfold Fs.missing, Fs.lookup_path in *.
  destruct (String.eqb p ""); [discriminate |].
  rewrite blocked_prune.
  destruct (Fs.blocked t _); [discriminate |].
  destruct (Fs.key h p) as [| x k'] eqn:Hkey; [contradiction |].
  simpl. rewrite lookup_prune, is_under_refl. reflexivity.
Qed.

(** How a delete request past the checks runs. *)
Lemma delete_run (req : request) (t : tree) (s : string) :
  prop (query req) "path" = VStr s ->
  s <> "" ->
  Str.startsWith (Path.join [App.FILES_DIR h; s]) (App.FILES_DIR h) = true ->
  Str.has_char Str.nul (Path.join [App.FILES_DIR h; s]) = false ->
  App.serve h App.DELETE_api_files req t =
  match Fs.exec h (Rm (Path.join [App.FILES_DIR h; s])) t with
  | (inl e, t') => (inr (status_json 500 (App.error_body (message h e))), t')
  | (inr _, t') => (inr (json (VObj [("success", VBool true)])), t')
  end.
Proof.
  intros Hq Hs Hprefix Hnul.
  unfold App.serve, App.route, App.delete_api_files. cbv zeta.
  rewrite run_try_catch, Hq.
  apply truthy_VStr in Hs. rewrite Hs. cbn [negb].
  rewrite run_bind. unfold Lib.path_join. cbn [Lib.strings_of run].
  rewrite Hprefix. cbn [negb].
  rewrite run_bind. unfold Lib.remove. rewrite run_validated, Hnul, run_await.
  destruct (Fs.exec h (Rm _) t) as [[e | []] t']; reflexivity.
Qed.

(** A delete that answers 200 has passed the checks, and has either
    found nothing or pruned what it found. *)
Lemma delete_success_inv (req : request) (t t' : tree) (s : string) (r : response) :
  prop (query req) "path" = VStr s ->
  App.serve h App.DELETE_api_files req t = (inr r, t') ->
  status r = 200 ->
  s <> "" /\
  Str.startsWith (Path.join [App.FILES_DIR h; s]) (App.FILES_DIR h) = true /\
  Str.has_char Str.nul (Path.join [App.FILES_DIR h; s]) = false /\
  ((Fs.missing h t (Path.join [App.FILES_DIR h; s]) = true /\ t' = t) \/
   exists k n, Fs.lookup_path h t (Path.join [App.FILES_DIR h; s]) = inr (k, Some n) /\
               t' = Fs.prune t k).
Proof.
  intros Hq Hrun Hok.
  destruct (String.eqb_spec s "") as [-> | Hs].
  { unfold App.serve, App.route, App.delete_api_files in Hrun. cbv zeta in Hrun.
    rewrite Hq in Hrun. simpl in Hrun. injection Hrun as <- <-. discriminate. }
  destruct (Str.startsWith (Path.join [App.FILES_DIR h; s]) (App.FILES_DIR h)) eqn:Hprefix.
  2: { destruct (outside_prefix_is_refused h req t s Hs Hprefix) as [Hquery _].
       destruct (Hquery Hq App.DELETE_api_files) as [Hgo _]; [simpl; auto |].
       rewrite Hgo in Hrun. injection Hrun as <- <-. discriminate. }
  destruct (Str.has_char Str.nul (Path.join [App.FILES_DIR h; s])) eqn:Hnul.
  { unfold App.serve, App.route, App.delete_api_files in Hrun. cbv zeta in Hrun.
    apply truthy_VStr in Hs. rewrite Hq, Hs in Hrun. cbn [negb] in Hrun.
    unfold Lib.path_join in Hrun. cbn [Lib.strings_of bind] in Hrun.
    rewrite Hprefix in Hrun. cbn [negb] in Hrun.
    unfold Lib.remove in Hrun. rewrite first_call_rejects in Hrun by exact Hnul.
    injection Hrun as <- <-. discriminate. }
  rewrite (delete_run req t s Hq Hs Hprefix Hnul) in Hrun.
  repeat split; try assumption; try reflexivity.
  cbn [Fs.exec] in Hrun. unfold Fs.missing.
  destruct (Fs.lookup_path h t (Path.join [App.FILES_DIR h; s]))
    as [[] | [k [n |]]]; injection Hrun as <- <-; try discriminate; eauto.
Qed.

End Effects.

Section WriteEffects.

Variable h : host.

Lemma lookup_path_node (t : tree) (p : string) (k : list string) (o : option node) :
  Fs.lookup_path h t p = inr (k, o) -> Fs.node_at t k = o.
Proof.
  intros Hlook. pose proof (lookup_path_key h t p k o Hlook) as ->.
  unfold Fs.lookup_path in Hlook.
  destruct (String.eqb p ""); [discriminate |].
  destruct (Fs.blocked _ _); [discriminate |].
  destruct (Fs.node_at t (Fs.key h p)) as [[c |] |];
    [destruct (Str.last_is _ _) | |]; congruence.
Qed.

Lemma blocked_none (t : tree) (ps : list (list string)) :
  Fs.blocked t ps = None <-> forall a, In a ps -> Fs.node_at t a = Some Dir.
Proof.
  induction ps as [| p ps IH]; simpl.
  - split; [intros _ a [] | reflexivity].
  - destruct (Fs.node_at t p) as [[c |] |] eqn:Hp.
    + split; [discriminate |]. intros H. specialize (H p (or_introl eq_refl)). congruence.
    + rewrite IH. split.
      * intros H a [<- | Ha]; [exact Hp | apply H; exact Ha].
      * intros H a Ha. apply H. right. exact Ha.
    + split; [discriminate |]. intros H. specialize (H p (or_introl eq_refl)). congruence.
Qed.

Lemma lookup_path_ancestors (t : tree) (p : string) (k : list string) (o : option node) :
  Fs.lookup_path h t p = inr (k, o) ->
  forall a, In a (Fs.ancestors k) -> Fs.node_at t a = Some Dir.
Proof.
  intros Hlook. pose proof (lookup_path_key h t p k o Hlook) as ->.
  unfold Fs.lookup_path in Hlook.
  destruct (String.eqb p ""); [discriminate |].
  destruct (Fs.blocked t _) eqn:Hb; [discriminate |].
  apply blocked_none. exact Hb.
Qed.

Lemma exec_openW_fail (t t1 : tree) (p : string) (e : js_error) :
  Fs.exec h (OpenW p) t = (inl e, t1) -> t1 = t.
Proof.
  cbn [Fs.exec].
  destruct (Fs.lookup_path h t p) as [e0 | [k [[c |] |]]];
    try destruct (Str.last_is _ _); congruence.
Qed.

Lemma exec_mkdirp_inv (t t1 : tree) (p : string) (r : js_error + unit) :
  Fs.exec h (Mkdirp p) t = (r, t1) ->
  (exists e, r = inl e /\ t1 = t) \/
  (r = inr tt /\ Fs.mkdirs t (Fs.ancestors (Fs.key h p) ++ [Fs.key h p]) = inr t1).
Proof.
  cbn [Fs.exec]. destruct (Fs.mkdirs t _) as [e | t2]; intros H; injection H as <- <-.
  - left. eauto.
  - right. split; reflexivity.
Qed.

Lemma mkdirs_made (ps : list (list string)) (t t' : tree) :
  Fs.mkdirs t ps = inr t' -> forall a, In a ps -> Fs.node_at t' a = Some Dir.
Proof.
  revert t. induction ps as [| p ps IH]; intros t Hmk a Ha; [destruct Ha |].
  simpl in Hmk.
  assert (Hkeep : forall t1, Fs.mkdirs t1 ps = inr t' ->
                             Fs.node_at t1 p = Some Dir -> Fs.node_at t' p = Some Dir).
  { intros t1 H1 Hp. destruct p as [| x p]; [reflexivity |]. simpl in *.
    eapply mkdirs_preserves; eassumption. }
  destruct (Fs.node_at t p) as [[c |] |] eqn:Hp; [discriminate | |].
  - destruct Ha as [<- | Ha]; [eapply Hkeep; eassumption | eapply IH; eassumption].
  - destruct Ha as [<- | Ha]; [| eapply IH; eassumption].
    apply (Hkeep _ Hmk). destruct p as [| x p]; [reflexivity |].
    simpl. apply lookup_insert_eq.
Qed.

Lemma mkdirs_noop (ps : list (list string)) (t : tree) :
  (forall a, In a ps -> Fs.node_at t a = Some Dir) -> Fs.mkdirs t ps = inr t.
Proof.
  induction ps as [| p ps IH]; intros Hps; simpl; [reflexivity |].
  rewrite (Hps p (or_introl eq_refl)). apply IH. intros a Ha. apply Hps. right. exact Ha.
Qed.

(** How a write request past the checks runs: the parent directories,
    then [fs.writeFile]. *)
Lemma post_run (req : request) (t : tree) (s : string) :
  prop (body req) "filePath" = VStr s ->
  s <> "" ->
  Str.startsWith (Path.join [App.FILES_DIR h; s]) (App.FILES_DIR h) = true ->
  App.serve h App.POST_api_files req t =
  match run h (Lib.ensureDir (Path.dirname (Path.join [App.FILES_DIR h; s]))) t with
  | (inl e, t0) => (inr (status_json 500 (App.error_body (message h e))), t0)
  | (inr _, t0) =>
      match run h (Lib.writeFile (Path.join [App.FILES_DIR h; s])
                     (js_or (prop (body req) "content") (VStr ""))) t0 with
      | (inl e, t1) => (inr (status_json 500 (App.error_body (message h e))), t1)
      | (inr _, t1) =>
          (inr (json (VObj [("success", VBool true); ("path", VStr s)])), t1)
      end
  end.
Proof.
  intros Hpath Hs Hprefix.
  unfold App.serve, App.route, App.post_api_files. cbv zeta.
  rewrite Hpath. apply truthy_VStr in Hs. rewrite Hs. cbn [negb].
  unfold Lib.path_join. cbn [Lib.strings_of bind]. rewrite Hprefix. cbn [negb].
  rewrite run_try_catch, run_bind.
  destruct (run h (Lib.ensureDir _) t) as [[e | []] t0]; [reflexivity |].
  rewrite run_bind.
  destruct (run h (Lib.writeFile _ _) t0) as [[e | []] t1]; reflexivity.
Qed.

(** The shapes a write request can take. *)
Lemma post_cases (req : request) (t : tree) :
  (exists r, App.serve h App.POST_api_files req t = (inr r, t) /\ status r <> 200) \/
  exists s, prop (body req) "filePath" = VStr s /\ s <> "" /\
            Str.startsWith (Path.join [App.FILES_DIR h; s]) (App.FILES_DIR h) = true.
Proof.
  destruct (truthy (prop (body req) "filePath")) eqn:Htruthy.
  - destruct (prop (body req) "filePath") as [| | b | n | s | d | l | fs] eqn:Hv;
      try discriminate;
      try (left; eexists; split;
           [ apply (not_a_string_run h App.POST_api_files req t);
             [ discriminate | simpl; rewrite Hv; exact Htruthy
             | simpl; rewrite Hv; intros s0; discriminate ]
           | discriminate ]).
    apply truthy_VStr in Htruthy.
    destruct (Str.startsWith (Path.join [App.FILES_DIR h; s]) (App.FILES_DIR h)) eqn:Hprefix.
    + right. exists s. auto.
    + left. eexists. split; [| shelve].
      apply (outside_prefix_is_refused h req t s Htruthy Hprefix). exact Hv.
      Unshelve. discriminate.
  - left. eexists. split.
    + unfold App.serve, App.route, App.post_api_files. cbv zeta.
      rewrite Htruthy. reflexivity.
    + discriminate.
Qed.

Lemma run_ensureDir (p : string) (t : tree) :
  run h (Lib.ensureDir p) t =
  if Str.has_char Str.nul p then (inl (NullBytes p), t) else Fs.exec h (Mkdirp p) t.
Proof. unfold Lib.ensureDir. rewrite run_validated, run_await. reflexivity. Qed.

End WriteEffects.

Section WriteTheorems.

Variable h : host.

(** What a write that answers 200 has done, step by step. *)
Lemma post_success_steps (req : request) (t t1 : tree) (r : response) :
  App.serve h App.POST_api_files req t = (inr r, t1) ->
  status r = 200 ->
  exists s c t0 k o,
    prop (body req) "filePath" = VStr s /\
    s <> "" /\
    Str.startsWith (Path.join [App.FILES_DIR h; s]) (App.FILES_DIR h) = true /\
    js_or (prop (body req) "content") (VStr "") = VStr c /\
    r = json (VObj [("success", VBool true); ("path", VStr s)]) /\
    Str.has_char Str.nul (Path.dirname (Path.join [App.FILES_DIR h; s])) = false /\
    Str.has_char Str.nul (Path.join [App.FILES_DIR h; s]) = false /\
    Fs.mkdirs t (Fs.ancestors (Fs.key h (Path.dirname (Path.join [App.FILES_DIR h; s])))
                 ++ [Fs.key h (Path.dirname (Path.join [App.FILES_DIR h; s]))]) = inr t0 /\
    Fs.lookup_path h t0 (Path.join [App.FILES_DIR h; s]) = inr (k, o) /\
    o <> Some Dir /\
    Str.last_is Str.slash (Path.join [App.FILES_DIR h; s]) = false /\
    t1 = <[k := File (Utf8.encode c)]> (<[k := File ""]> t0).
Proof.
  intros Hrun Hok.
  destruct (post_cases h req t) as [(r0 & Hgo & Hr0) | (s & Hpath & Hs & Hprefix)].
  { rewrite Hgo in Hrun. injection Hrun as <- <-. contradiction. }
  rewrite (post_run h req t s Hpath Hs Hprefix), run_ensureDir in Hrun.
  destruct (Str.has_char Str.nul (Path.dirname _)) eqn:Hnuld.
  { injection Hrun as <- <-. discriminate. }
  destruct (Fs.exec h (Mkdirp _) t) as [rm t0] eqn:Hmk.
  apply exec_mkdirp_inv in Hmk as [(e & -> & ->) | (-> & Hmk)].
  { injection Hrun as <- <-. discriminate. }
  destruct (js_or (prop (body req) "content") (VStr "")) as [| | b | n | c | d | l | fs] eqn:Hc;
    try (simpl in Hrun; injection Hrun as <- <-; discriminate).
  rewrite run_writeFile in Hrun.
  destruct (Str.has_char Str.nul (Path.join _)) eqn:Hnul.
  { injection Hrun as <- <-. discriminate. }
  destruct (Fs.exec h (OpenW _) t0) as [[e | fd] t2] eqn:Hopen.
  { injection Hrun as <- <-. discriminate. }
  apply openW_inv in Hopen as (-> & Hslash & o & Hlook & Ho).
  cbn [Fs.exec] in Hrun. rewrite lookup_insert_eq, overlay_empty in Hrun.
  injection Hrun as <- <-.
  exists s, c, t0, fd, o. repeat split; assumption.
Qed.


End WriteTheorems.



(** X5: writing is idempotent: when a write request has answered 200,
    the same request sent again answers the same and leaves the tree as
    the first one left it. *)
Theorem write_twice_is_write_once (h : host) (req : request) (t t1 : tree) (r : response) :
  App.serve h App.POST_api_files req t = (inr r, t1) ->
  status r = 200 ->
  App.serve h App.POST_api_files req t1 = (inr r, t1).
Proof.
  intros Hrun Hok.
  destruct (post_success_steps h req t t1 r Hrun Hok)
    as (s & c & t0 & k & o & Hpath & Hs & Hprefix & Hc & -> & Hnuld & Hnul & Hmk & Hlook
        & Ho & Hslash & ->).
  assert (Hsame : <[k := File (Utf8.encode c)]> (<[k := File ""]> t0) = <[k := File (Utf8.encode c)]> t0)
    by apply insert_insert_eq.
  rewrite Hsame.
  assert (Hlook1 : Fs.lookup_path h (<[k := File (Utf8.encode c)]> t0) (Path.join [App.FILES_DIR h; s])
                   = inr (k, Some (File (Utf8.encode c)))).
  { apply lookup_path_written with (o := o); assumption. }
  assert (Hdirs : forall a,
             In a (Fs.ancestors (Fs.key h (Path.dirname (Path.join [App.FILES_DIR h; s])))
                   ++ [Fs.key h (Path.dirname (Path.join [App.FILES_DIR h; s]))]) ->
             Fs.node_at (<[k := File (Utf8.encode c)]> t0) a = Some Dir).
  { intros a Ha. pose proof (mkdirs_made _ _ _ Hmk a Ha) as Hdir.
    rewrite node_at_insert_ne; [exact Hdir |].
    intros ->. apply Ho. rewrite <- Hdir. symmetry.
    eapply lookup_path_node. exact Hlook. }
  rewrite (post_run h req _ s Hpath Hs Hprefix), run_ensureDir, Hnuld.
  cbn [Fs.exec]. rewrite (mkdirs_noop _ _ Hdirs).
  rewrite Hc, run_writeFile, Hnul. cbn [Fs.exec]. rewrite Hlook1.
  rewrite lookup_insert_eq, overlay_empty, !insert_insert_eq. reflexivity.
Qed.

Lemma write_twice_is_write_once_witness :
  App.serve docker App.POST_api_files
    (with_body [("filePath", VStr "a/b.txt"); ("content", VStr "hello")])
    (App.serve docker App.POST_api_files
       (with_body [("filePath", VStr "a/b.txt"); ("content", VStr "hello")]) www).2 =
  (inr (json (VObj [("success", VBool true); ("path", VStr "a/b.txt")])),
   (App.serve docker App.POST_api_files
      (with_body [("filePath", VStr "a/b.txt"); ("content", VStr "hello")]) www).2).
Proof.
  apply (write_twice_is_write_once docker
           (with_body [("filePath", VStr "a/b.txt"); ("content", VStr "hello")]) www).
  - apply pair_of_fst. vm_compute. reflexivity.
  - reflexivity.
Defined.

Section DeleteTheorems.

Variable h : host.

Lemma exec_rm_effect (t t' : tree) (p : string) (r : js_error + unit) :
  Fs.exec h (Rm p) t = (r, t') ->
  t' = t \/ (r = inr tt /\ exists n, Fs.lookup_path h t p = inr (Fs.key h p, Some n) /\
                                     t' = Fs.prune t (Fs.key h p)).
Proof.
  cbn [Fs.exec].
  destruct (Fs.lookup_path h t p) as [[] | [k [n |]]] eqn:Hlook;
    intros H; injection H as <- <-; auto.
  right. split; [reflexivity |]. exists n.
  pose proof (lookup_path_key h t p k _ Hlook) as ->. split; reflexivity.
Qed.

Lemma delete_effect (req : request) (t t' : tree) (r : response) (s : string) :
  prop (query req) "path" = VStr s ->
  App.serve h App.DELETE_api_files req t = (inr r, t') ->
  t' = t \/ t' = Fs.prune t (Fs.key h (Path.join [App.FILES_DIR h; s])).
Proof.
  intros Hq Hrun.
  destruct (String.eqb_spec s "") as [-> | Hs].
  { unfold App.serve, App.route, App.delete_api_files in Hrun. cbv zeta in Hrun.
    rewrite Hq in Hrun. simpl in Hrun. injection Hrun as <- <-. left. reflexivity. }
  destruct (Str.startsWith (Path.join [App.FILES_DIR h; s]) (App.FILES_DIR h)) eqn:Hprefix.
  2: { destruct (outside_prefix_is_refused h req t s Hs Hprefix) as [Hquery _].
       destruct (Hquery Hq App.DELETE_api_files) as [Hgo _]; [simpl; auto |].
       rewrite Hgo in Hrun. injection Hrun as <- <-. left. reflexivity. }
  destruct (Str.has_char Str.nul (Path.join [App.FILES_DIR h; s])) eqn:Hnul.
  { unfold App.serve, App.route, App.delete_api_files in Hrun. cbv zeta in Hrun.
    apply truthy_VStr in Hs. rewrite Hq, Hs in Hrun. cbn [negb] in Hrun.
    unfold Lib.path_join in Hrun. cbn [Lib.strings_of bind] in Hrun.
    rewrite Hprefix in Hrun. cbn [negb] in Hrun.
    unfold Lib.remove in Hrun. rewrite first_call_rejects in Hrun by exact Hnul.
    injection Hrun as <- <-. left. reflexivity. }
  rewrite (delete_run h req t s Hq Hs Hprefix Hnul) in Hrun.
  destruct (Fs.exec h (Rm _) t) as [rr t0] eqn:Hrm.
  apply exec_rm_effect in Hrm as [-> | (-> & n & _ & ->)].
  - destruct rr; injection Hrun as <- <-; left; reflexivity.
  - injection Hrun as <- <-. right. reflexivity.
Qed.

(** How a content request past the checks runs on a path at which
    nothing lies. *)
Lemma content_of_missing (req : request) (t : tree) (s : string) :
  prop (query req) "path" = VStr s ->
  s <> "" ->
  Str.startsWith (Path.join [App.FILES_DIR h; s]) (App.FILES_DIR h) = true ->
  Str.has_char Str.nul (Path.join [App.FILES_DIR h; s]) = false ->
  Fs.missing h t (Path.join [App.FILES_DIR h; s]) = true ->
  App.serve h App.GET_api_files_content req t =
  (inr (status_json 500 (App.error_body
          (message h (SystemError ENOENT "stat" (Path.join [App.FILES_DIR h; s]) None)))), t).
Proof.
  intros Hq Hs Hprefix Hnul Hmissing.
  unfold App.serve, App.route, App.get_api_files_content.
  rewrite run_try_catch, Hq.
  apply truthy_VStr in Hs. rewrite Hs. cbn [negb].
  rewrite run_bind. unfold Lib.path_join. cbn [Lib.strings_of run].
  rewrite Hprefix. cbn [negb].
  rewrite run_bind. unfold Lib.stat. rewrite run_validated, Hnul, run_await.
  cbn [Fs.exec]. unfold Fs.stat_as. unfold Fs.missing in Hmissing.
  destruct (Fs.lookup_path h t (Path.join [App.FILES_DIR h; s])) as [[] | [k [n |]]];
    try discriminate; reflexivity.
Qed.

Lemma delete_of_missing (req : request) (t : tree) (s : string) :
  prop (query req) "path" = VStr s ->
  s <> "" ->
  Str.startsWith (Path.join [App.FILES_DIR h; s]) (App.FILES_DIR h) = true ->
  Str.has_char Str.nul (Path.join [App.FILES_DIR h; s]) = false ->
  Fs.missing h t (Path.join [App.FILES_DIR h; s]) = true ->
  App.serve h App.DELETE_api_files req t = (inr (json (VObj [("success", VBool true)])), t).
Proof.
  intros Hq Hs Hprefix Hnul Hmissing.
  rewrite (delete_run h req t s Hq Hs Hprefix Hnul). cbn [Fs.exec].
  unfold Fs.missing in Hmissing.
  destruct (Fs.lookup_path h t (Path.join [App.FILES_DIR h; s])) as [[] | [k [n |]]];
    try discriminate; reflexivity.
Qed.

(** A delete request leaves the tree as it was or prunes its target. *)
Lemma delete_cases (req : request) (t : tree) :
  (App.serve h App.DELETE_api_files req t).2 = t \/
  exists s, prop (query req) "path" = VStr s /\
            (App.serve h App.DELETE_api_files req t).2
            = Fs.prune t (Fs.key h (Path.join [App.FILES_DIR h; s])).
Proof.
  destruct (routes_answer h App.DELETE_api_files req t) as (r & t' & Hrun & _).
  destruct (truthy (prop (query req) "path")) eqn:Htruthy.
  - destruct (prop (query req) "path") as [| | b | n | s | d | l | fs] eqn:Hv;
      try discriminate;
      try (left;
           destruct (not_a_string_run h App.DELETE_api_files req t) as [Hbad _];
           [ discriminate | simpl; rewrite Hv; exact Htruthy
           | simpl; rewrite Hv; intros s0; discriminate
           | rewrite Hbad; reflexivity ]).
    rewrite Hrun. simpl.
    destruct (delete_effect req t t' r s Hv Hrun) as [-> | ->]; [left; reflexivity |].
    right. exists s. split; reflexivity.
  - left. unfold App.serve, App.route, App.delete_api_files. cbv zeta.
    rewrite Htruthy. reflexivity.
Qed.

End DeleteTheorems.

(** X6: a delete request touches nothing outside its target: whatever
    its outcome, every entry that is not at or below the target path is
    left as it was; and when it answers 200 for a target that existed, the
    target and everything below it are gone. *)
Theorem delete_removes_exactly_the_subtree (h : host) (req : request) (t t' : tree)
    (s : string) (r : response) :
  prop (query req) "path" = VStr s ->
  App.serve h App.DELETE_api_files req t = (inr r, t') ->
  (forall k', Fs.is_under (Fs.key h (Path.join [App.FILES_DIR h; s])) k' = false ->
              t' !! k' = t !! k') /\
  (status r = 200 ->
   forall k n, Fs.lookup_path h t (Path.join [App.FILES_DIR h; s]) = inr (k, Some n) ->
   forall k', Fs.is_under k k' = true -> t' !! k' = None).
Proof.
  intros Hq Hrun. split.
  - intros k' Hk'. destruct (delete_effect h req t t' r s Hq Hrun) as [-> | ->];
      [reflexivity |]. rewrite lookup_prune, Hk'. reflexivity.
  - intros Hok k n Hlook k' Hk'.
    destruct (delete_success_inv h req t t' s r Hq Hrun Hok)
      as (_ & _ & _ & [[Hmissing _] | (k0 & n0 & Hlook0 & ->)]).
    + unfold Fs.missing in Hmissing. rewrite Hlook in Hmissing. discriminate.
    + rewrite Hlook in Hlook0. injection Hlook0 as <- <-.
      rewrite lookup_prune, Hk'. reflexivity.
Qed.

Lemma delete_removes_exactly_the_subtree_witness :
  (App.serve docker App.DELETE_api_files (with_query ".") www).2
    !! ["var"; "www"; "html-secret"; "passwords.txt"]
  = www !! ["var"; "www"; "html-secret"; "passwords.txt"] /\
  (App.serve docker App.DELETE_api_files (with_query ".") www).2 !! index_html = None.
Proof.
  assert (Hrun : App.serve docker App.DELETE_api_files (with_query ".") www =
                 (inr (json (VObj [("success", VBool true)])),
                  (App.serve docker App.DELETE_api_files (with_query ".") www).2)).
  { apply pair_of_fst. vm_compute. reflexivity. }
  destruct (delete_removes_exactly_the_subtree docker (with_query ".") www _ "." _
              eq_refl Hrun) as [Hout Hin].
  split.
  - apply Hout. vm_compute. reflexivity.
  - apply (Hin eq_refl ["var"; "www"; "html"] Dir); vm_compute; reflexivity.
Defined.

(** X7: once a delete request has answered 200, nothing lies at its
    path: a content request for the same path is answered 500 with the
    [ENOENT] of the failed [stat], and the same delete request sent again
    answers 200 and changes nothing.  (The path is not the root of the
    filesystem itself.) *)
Theorem deleted_path_is_gone (h : host) (req : request) (t t' : tree)
    (s : string) (r : response) :
  prop (query req) "path" = VStr s ->
  App.serve h App.DELETE_api_files req t = (inr r, t') ->
  status r = 200 ->
  Fs.key h (Path.join [App.FILES_DIR h; s]) <> [] ->
  App.serve h App.GET_api_files_content req t' =
    (inr (status_json 500 (App.error_body
            (message h (SystemError ENOENT "stat" (Path.join [App.FILES_DIR h; s]) None)))),
     t') /\
  App.serve h App.DELETE_api_files req t' = (inr (json (VObj [("success", VBool true)])), t').
Proof.
  intros Hq Hrun Hok Hroot.
  destruct (delete_success_inv h req t t' s r Hq Hrun Hok)
    as (Hs & Hprefix & Hnul & Hcases).
  assert (Hmissing : Fs.missing h t' (Path.join [App.FILES_DIR h; s]) = true).
  { destruct Hcases as [[Hmissing ->] | (k & n & Hlook & ->)]; [exact Hmissing |].
    eapply missing_after_prune; [exact Hlook |].
    rewrite (lookup_path_key h _ _ _ _ Hlook). exact Hroot. }
  split.
  - apply content_of_missing; assumption.
  - apply delete_of_missing with (s := s); assumption.
Qed.

Lemma deleted_path_is_gone_witness :
  App.serve docker App.GET_api_files_content (with_query "index.html")
    (App.serve docker App.DELETE_api_files (with_query "index.html") www).2 =
    (inr (status_json 500 (App.error_body
            (message docker (SystemError ENOENT "stat"
                               (Path.join [App.FILES_DIR docker; "index.html"]) None)))),
     (App.serve docker App.DELETE_api_files (with_query "index.html") www).2) /\
  App.serve docker App.DELETE_api_files (with_query "index.html")
    (App.serve docker App.DELETE_api_files (with_query "index.html") www).2 =
    (inr (json (VObj [("success", VBool true)])),
     (App.serve docker App.DELETE_api_files (with_query "index.html") www).2).
Proof.
  apply (deleted_path_is_gone docker (with_query "index.html") www _ "index.html"
           (json (VObj [("success", VBool true)]))).
  - reflexivity.
  - apply pair_of_fst. vm_compute. reflexivity.
  - reflexivity.
  - vm_compute. discriminate.
Defined.

(** ** Trees stay well formed *)

Section WellFormed.

Variable h : host.

Lemma node_at_insert_dir (t : tree) (k a : list string) :
  Fs.node_at t a = Some Dir -> Fs.node_at (<[k := Dir]> t) a = Some Dir.
Proof.
  intros Ha. destruct a as [| x a]; [reflexivity |]. simpl in *.
  destruct (decide (k = x :: a)) as [-> | Hne].
  - apply lookup_insert_eq.
  - rewrite lookup_insert_ne by exact Hne. exact Ha.
Qed.

Lemma well_formed_insert_dir (t : tree) (k : list string) :
  well_formed t ->
  (forall a, In a (Fs.ancestors k) -> Fs.node_at t a = Some Dir) ->
  well_formed (<[k := Dir]> t).
Proof.
  intros Hwf Hk k' n Hk' a Ha. apply node_at_insert_dir.
  destruct (decide (k = k')) as [-> | Hne].
  - apply Hk. exact Ha.
  - rewrite lookup_insert_ne in Hk' by exact Hne. eapply Hwf; eassumption.
Qed.

Lemma well_formed_insert_file (t : tree) (k : list string) (c : string) :
  well_formed t ->
  Fs.node_at t k <> Some Dir ->
  (forall a, In a (Fs.ancestors k) -> Fs.node_at t a = Some Dir) ->
  well_formed (<[k := File c]> t).
Proof.
  intros Hwf Hfile Hk k' n Hk' a Ha.
  assert (Hdir : Fs.node_at t a = Some Dir).
  { destruct (decide (k = k')) as [-> | Hne]; [apply Hk; exact Ha |].
    rewrite lookup_insert_ne in Hk' by exact Hne. eapply Hwf; eassumption. }
  rewrite node_at_insert_ne; [exact Hdir |]. intros ->. contradiction.
Qed.

(** The prefixes of a key come in order: the ancestors of each are the
    ones listed before it. *)
Lemma prefixes_in_order (k : list string) :
  forall l1 p l2, Fs.ancestors k ++ [k] = l1 ++ p :: l2 ->
  forall b, In b (Fs.ancestors p) -> In b l1.
Proof.
  induction k as [| x k IH]; intros l1 p l2 Heq b Hb.
  - destruct l1 as [| y l1]; simpl in Heq.
    + injection Heq as <- _. destruct Hb.
    + injection Heq as _ Heq. destruct l1; discriminate.
  - simpl in Heq. destruct l1 as [| y l1]; simpl in Heq.
    + injection Heq as <- _. destruct Hb.
    + injection Heq as <- Heq.
      assert (Hmap : List.map (cons x) (Fs.ancestors k) ++ [x :: k]
                     = List.map (cons x) (Fs.ancestors k ++ [k]))
        by (rewrite List.map_app; reflexivity).
      rewrite Hmap in Heq.
      apply List.map_eq_app in Heq as (m1 & m2 & Heq & <- & Hm2).
      destruct m2 as [| p' m2]; [discriminate |]. simpl in Hm2.
      injection Hm2 as <- _.
      simpl in Hb. destruct Hb as [<- | Hb]; [left; reflexivity |].
      right. apply in_map_iff in Hb as (b' & <- & Hb').
      apply in_map. eapply IH; eassumption.
Qed.

Lemma mkdirs_well_formed (ps : list (list string)) :
  forall (seen : list (list string)) (t t' : tree),
    well_formed t ->
    (forall a, In a seen -> Fs.node_at t a = Some Dir) ->
    (forall l1 p l2, ps = l1 ++ p :: l2 ->
                     forall b, In b (Fs.ancestors p) -> In b (seen ++ l1)) ->
    Fs.mkdirs t ps = inr t' ->
    well_formed t'.
Proof.
  induction ps as [| p ps IH]; intros seen t t' Hwf Hseen Hord Hmk; simpl in Hmk.
  - injection Hmk as <-. exact Hwf.
  - assert (Hanc : forall b, In b (Fs.ancestors p) -> Fs.node_at t b = Some Dir).
    { intros b Hb. apply Hseen. specialize (Hord [] p ps eq_refl b Hb).
      rewrite app_nil_r in Hord. exact Hord. }
    assert (Hord' : forall l1 q l2, ps = l1 ++ q :: l2 ->
                      forall b, In b (Fs.ancestors q) -> In b ((seen ++ [p]) ++ l1)).
    { intros l1 q l2 -> b Hb. rewrite <- app_assoc. simpl.
      apply (Hord (p :: l1) q l2 eq_refl b Hb). }
    destruct (Fs.node_at t p) as [[c |] |] eqn:Hp; [discriminate | |].
    + apply (IH (seen ++ [p]) t t' Hwf); [| exact Hord' | exact Hmk].
      intros a Ha. apply in_app_or in Ha as [Ha | [<- | []]]; [apply Hseen; exact Ha | exact Hp].
    + apply (IH (seen ++ [p]) (<[p := Dir]> t) t'); [| | exact Hord' | exact Hmk].
      * apply well_formed_insert_dir; assumption.
      * intros a Ha. apply in_app_or in Ha as [Ha | [<- | []]].
        -- apply node_at_insert_dir, Hseen. exact Ha.
        -- destruct p as [| x p]; [reflexivity |]. simpl. apply lookup_insert_eq.
Qed.

Lemma exec_mkdirp_well_formed (p : string) (t t' : tree) (r : js_error + unit) :
  well_formed t -> Fs.exec h (Mkdirp p) t = (r, t') -> well_formed t'.
Proof.
  intros Hwf Hexec. apply exec_mkdirp_inv in Hexec as [(e & _ & ->) | (_ & Hmk)];
    [exact Hwf |].
  apply (mkdirs_well_formed (Fs.ancestors (Fs.key h p) ++ [Fs.key h p]) [] t t' Hwf);
    [intros a [] | | exact Hmk].
  intros l1 q l2 Heq b Hb. simpl. eapply prefixes_in_order; eassumption.
Qed.

Lemma ancestor_is_above (k a : list string) :
  In a (Fs.ancestors k) -> Fs.is_under a k = true.
Proof.
  revert a. induction k as [| x k IH]; intros a Ha; simpl in Ha; [destruct Ha |].
  destruct Ha as [<- | Ha]; [reflexivity |].
  apply in_map_iff in Ha as (a' & <- & Ha'). simpl.
  rewrite String.eqb_refl. apply IH. exact Ha'.
Qed.

Lemma is_under_trans (a b c : list string) :
  Fs.is_under a b = true -> Fs.is_under b c = true -> Fs.is_under a c = true.
Proof.
  revert b c. induction a as [| x a IH]; intros [| y b] [| z c] Hab Hbc; simpl in *;
    try reflexivity; try discriminate.
  apply andb_true_iff in Hab as [Hxy Hab]. apply andb_true_iff in Hbc as [Hyz Hbc].
  apply String.eqb_eq in Hxy, Hyz. subst. rewrite String.eqb_refl. simpl.
  eapply IH; eassumption.
Qed.

Lemma well_formed_prune (t : tree) (k : list string) :
  well_formed t -> well_formed (Fs.prune t k).
Proof.
  intros Hwf k' n Hk' a Ha. rewrite lookup_prune in Hk'.
  destruct (Fs.is_under k k') eqn:Hu; [discriminate |].
  rewrite node_at_prune; [eapply Hwf; eassumption |].
  destruct (Fs.is_under k a) eqn:Hua; [| reflexivity].
  rewrite (is_under_trans k a k' Hua (ancestor_is_above _ _ Ha)) in Hu. discriminate.
Qed.

End WellFormed.

(** X8: the listing, content, write and delete handlers keep the tree
    well formed: if every entry lies below directories only before a
    request, the same holds after it, whatever the request and its
    outcome. *)
Theorem requests_keep_tree_well_formed (h : host) (ep : App.endpoint) (req : request)
    (t : tree) :
  ep <> App.POST_api_upload ->
  well_formed t ->
  well_formed (App.serve h ep req t).2.
Proof.
  intros Hep Hwf. destruct ep; try contradiction.
  - destruct (get_requests_only_read h req t) as (-> & _). exact Hwf.
  - destruct (get_requests_only_read h req t) as (_ & _ & -> & _). exact Hwf.
  - destruct (post_cases h req t) as [(r0 & -> & _) | (s & Hpath & Hs & Hprefix)];
      [exact Hwf |].
    rewrite (post_run h req t s Hpath Hs Hprefix), run_ensureDir.
    destruct (Str.has_char Str.nul (Path.dirname _)); [exact Hwf |].
    destruct (Fs.exec h (Mkdirp _) t) as [[e | []] t0] eqn:Hmk;
      apply exec_mkdirp_well_formed in Hmk; try exact Hwf; [exact Hmk |].
    destruct (js_or (prop (body req) "content") (VStr "")) as [| | b | n0 | c | d | l | fs];
      try exact Hmk.
    rewrite run_writeFile.
    destruct (Str.has_char Str.nul (Path.join _)); [exact Hmk |].
    destruct (Fs.exec h (OpenW _) t0) as [[e | fd] t2] eqn:Hopen.
    { apply exec_openW_fail in Hopen as ->. exact Hmk. }
    apply openW_inv in Hopen as (-> & _ & o & Hlook & Ho).
    cbn [Fs.exec]. rewrite lookup_insert_eq. simpl.
    rewrite insert_insert_eq.
    apply well_formed_insert_file; [exact Hmk | |].
    + rewrite (lookup_path_node h _ _ _ _ Hlook). exact Ho.
    + eapply lookup_path_ancestors. exact Hlook.
  - destruct (delete_cases h req t) as [-> | (s & _ & ->)];
      [exact Hwf | apply well_formed_prune; exact Hwf].
Qed.

Lemma well_formedb_sound (t : tree) : well_formedb t = true -> well_formed t.
Proof.
  unfold well_formedb. rewrite forallb_forall. intros Hall k n Hk a Ha.
  apply elem_of_map_to_list, list_elem_of_In in Hk.
  specialize (Hall _ Hk). simpl in Hall. rewrite forallb_forall in Hall.
  specialize (Hall a Ha). destruct (Fs.node_at t a) as [[c |] |]; congruence.
Qed.

Lemma requests_keep_tree_well_formed_witness :
  well_formed (App.serve docker App.POST_api_files
                 (with_body [("filePath", VStr "a/b.txt"); ("content", VStr "hello")]) www).2.
Proof.
  apply (requests_keep_tree_well_formed docker App.POST_api_files).
  - discriminate.
  - apply well_formedb_sound. vm_compute. reflexivity.
Defined.

(** ** Uploads *)

Section Uploads.

Variable h : host.

(** Path resolution looks at the ancestors of the key and at the key
    only. *)
Lemma lookup_path_agree (t t' : tree) (p : string) :
  (forall a, In a (Fs.ancestors (Fs.key h p)) -> Fs.node_at t' a = Fs.node_at t a) ->
  Fs.node_at t' (Fs.key h p) = Fs.node_at t (Fs.key h p) ->
  Fs.lookup_path h t' p = Fs.lookup_path h t p.
Proof.
  intros Hanc Hk. unfold Fs.lookup_path.
  destruct (String.eqb p ""); [reflexivity |].
  assert (Hb : forall ps, (forall a, In a ps -> Fs.node_at t' a = Fs.node_at t a) ->
                          Fs.blocked t' ps = Fs.blocked t ps).
  { induction ps as [| a ps IH]; intros Hps; simpl; [reflexivity |].
    rewrite (Hps a (or_introl eq_refl)), IH; [reflexivity |].
    intros a' Ha'. apply Hps. right. exact Ha'. }
  rewrite (Hb _ Hanc), Hk. reflexivity.
Qed.

Lemma lookup_path_keeps (t t' : tree) (p : string) (k : list string) (n : node) :
  Fs.lookup_path h t p = inr (k, Some n) ->
  (forall k' n', t !! k' = Some n' -> t' !! k' = Some n') ->
  Fs.lookup_path h t' p = inr (k, Some n).
Proof.
  intros Hlook Hkeep. rewrite <- Hlook.
  pose proof (lookup_path_key h t p k _ Hlook) as ->.
  assert (Hnode : forall a o, Fs.node_at t a = Some o -> Fs.node_at t' a = Some o).
  { intros [| x a] o Ha; [exact Ha |]. simpl in *. apply Hkeep. exact Ha. }
  apply lookup_path_agree.
  - intros a Ha. rewrite (lookup_path_ancestors h t p _ _ Hlook a Ha).
    apply Hnode. eapply lookup_path_ancestors; eassumption.
  - rewrite (lookup_path_node h t p _ _ Hlook). apply Hnode.
    eapply lookup_path_node. exact Hlook.
Qed.

Lemma above_is_ancestor (k k' : list string) :
  Fs.is_under k k' = true -> k <> k' -> In k (Fs.ancestors k').
Proof.
  revert k'. induction k as [| x k IH]; intros [| y k'] Hu Hne; simpl in *;
    try discriminate; try contradiction; [left; reflexivity |].
  apply andb_true_iff in Hu as [Hxy Hu]. apply String.eqb_eq in Hxy. subst y.
  right. apply in_map. apply IH; [exact Hu | congruence].
Qed.

Lemma ancestors_of_ancestor (a k : list string) :
  In a (Fs.ancestors k) -> forall b, In b (Fs.ancestors a) -> In b (Fs.ancestors k).
Proof.
  revert a. induction k as [| x k IH]; intros a Ha b Hb; simpl in Ha; [destruct Ha |].
  destruct Ha as [<- | Ha]; [destruct Hb |].
  apply in_map_iff in Ha as (a' & <- & Ha'). simpl in Hb |- *.
  destruct Hb as [<- | Hb]; [left; reflexivity |].
  right. apply in_map_iff in Hb as (b' & <- & Hb'). apply in_map. eapply IH; eassumption.
Qed.

(** A regular file is not above anything that resolves. *)
Lemma file_not_above (t : tree) (p : string) (k kf : list string) (o : option node)
    (c : string) :
  Fs.lookup_path h t p = inr (k, o) ->
  Fs.node_at t kf = Some (File c) ->
  Fs.is_under kf k = true -> kf = k.
Proof.
  intros Hlook Hfile Hu. destruct (decide (kf = k)) as [-> | Hne]; [reflexivity |].
  apply above_is_ancestor in Hu; [| exact Hne].
  rewrite (lookup_path_ancestors h t p k o Hlook kf Hu) in Hfile. discriminate.
Qed.

End Uploads.

Section MoveFile.

Variable h : host.

Lemma node_of_lookup (t : tree) (k : list string) (c : string) :
  Fs.node_at t k = Some (File c) -> t !! k = Some (File c).
Proof. destruct k; [discriminate | exact id]. Qed.

Lemma node_at_delete_ne (t : tree) (k a : list string) :
  a <> k -> Fs.node_at (delete k t) a = Fs.node_at t a.
Proof.
  intros Hne. destruct a; [reflexivity |]. simpl. apply lookup_delete_ne. congruence.
Qed.

(** Renaming a regular file onto a path that is not a directory. *)
Lemma rename_file (src dest : string) (t t' : tree) (res : js_error + unit)
    (ks : list string) (c : string) :
  Fs.lookup_path h t src = inr (ks, Some (File c)) ->
  Fs.key h dest <> ks ->
  Fs.exec h (Rename src dest) t = (res, t') ->
  (exists e, res = inl e /\ t' = t) \/
  (res = inr tt /\ t' !! ks = None /\
   Fs.lookup_path h t' dest = inr (Fs.key h dest, Some (File c))).
Proof.
  intros Hsrc Hne Hexec. cbn [Fs.exec] in Hexec. unfold Fs.rename in Hexec.
  rewrite Hsrc in Hexec.
  destruct (Fs.lookup_path h t dest) as [e | [kd d]] eqn:Hdest.
  { injection Hexec as <- <-. left. eauto. }
  pose proof (lookup_path_key h t dest kd d Hdest) as ->.
  assert (Hfile : Fs.node_at t ks = Some (File c))
    by (eapply lookup_path_node; exact Hsrc).
  assert (Hd : d = Some Dir \/ d <> Some Dir)
    by (destruct d as [[c0 |] |]; [right | left | right]; congruence).
  destruct Hd as [-> | Hd].
  { injection Hexec as <- <-. left. eauto. }
  destruct (Str.last_is Str.slash dest) eqn:Hslash.
  { destruct d as [[c0 |] |]; try contradiction; injection Hexec as <- <-; left; eauto. }
  assert (Hres : res = inr tt /\ t' = <[Fs.key h dest := File c]> (delete ks t)).
  { destruct d as [[c0 |] |]; try contradiction; injection Hexec as <- <-;
      split; reflexivity. }
  destruct Hres as [-> ->]. right. split; [reflexivity |]. split.
  - rewrite lookup_insert_ne by exact Hne. apply lookup_delete_eq.
  - apply lookup_path_written with (o := d); [| exact Hd | exact Hslash].
    rewrite <- Hdest. apply lookup_path_agree.
    + intros a Ha. apply node_at_delete_ne. intros ->.
      rewrite (lookup_path_ancestors h t dest _ _ Hdest ks Ha) in Hfile. discriminate.
    + apply node_at_delete_ne. exact Hne.
Qed.

Lemma move_tail (src dest : string) (t t' : tree) (res : js_error + unit)
    (ks : list string) (c : string) :
  Fs.lookup_path h t src = inr (ks, Some (File c)) ->
  Str.has_char Str.nul dest = false ->
  Fs.key h dest <> ks ->
  (forall k, Fs.lookup_path h t dest <> inr (k, Some Dir)) ->
  run h (bind (if String.eqb (Path.dirname dest) "/" then Ret tt
               else Lib.ensureDir (Path.dirname dest))
              (fun _ => bind (Lib.remove dest) (fun _ => await (Rename src dest)))) t
    = (res, t') ->
  (exists e, res = inl e /\ t' !! ks = Some (File c)) \/
  (res = inr tt /\ t' !! ks = None /\
   Fs.lookup_path h t' dest = inr (Fs.key h dest, Some (File c))).
Proof.
  intros Hsrc Hnul Hne Hnodir Hrun.
  pose proof (node_of_lookup t ks c (lookup_path_node h t src ks _ Hsrc)) as Hfile.
  rewrite run_bind in Hrun.
  assert (Hfirst : exists r1 t1,
             run h (if String.eqb (Path.dirname dest) "/" then Ret tt
                    else Lib.ensureDir (Path.dirname dest)) t = (r1, t1) /\
             forall k n, t !! k = Some n -> t1 !! k = Some n).
  { destruct (String.eqb (Path.dirname dest) "/").
    - exists (inr tt), t. split; [reflexivity | auto].
    - rewrite run_ensureDir. destruct (Str.has_char Str.nul (Path.dirname dest)).
      + eexists _, t. split; [reflexivity | auto].
      + destruct (Fs.exec h (Mkdirp _) t) as [r1 t1] eqn:Hmk. exists r1, t1.
        split; [reflexivity |].
        apply exec_mkdirp_inv in Hmk as [(e & _ & ->) | (_ & Hmk)]; [auto |].
        eapply mkdirs_preserves. exact Hmk. }
  destruct Hfirst as (r1 & t1 & Hrun1 & Hkeep). rewrite Hrun1 in Hrun.
  pose proof (Hkeep _ _ Hfile) as Hfile1.
  destruct r1 as [e | []]; [injection Hrun as <- <-; left; eauto |].
  pose proof (lookup_path_keeps h t t1 src ks _ Hsrc Hkeep) as Hsrc1.
  rewrite run_bind in Hrun. unfold Lib.remove in Hrun.
  rewrite run_validated, Hnul, run_await in Hrun.
  destruct (Fs.exec h (Rm dest) t1) as [r2 t2] eqn:Hrm.
  assert (Hsrc2 : Fs.lookup_path h t2 src = inr (ks, Some (File c))).
  { apply exec_rm_effect in Hrm as [-> | (_ & n & Hdest1 & ->)]; [exact Hsrc1 |].
    assert (Hunder : Fs.is_under (Fs.key h dest) ks = false).
    { destruct (Fs.is_under (Fs.key h dest) ks) eqn:Hu; [| reflexivity]. exfalso.
      apply above_is_ancestor in Hu; [| exact Hne].
      apply (Hnodir (Fs.key h dest)).
      unfold Fs.lookup_path in Hdest1 |- *.
      destruct (String.eqb dest ""); [discriminate |].
      assert (Hb : Fs.blocked t (Fs.ancestors (Fs.key h dest)) = None).
      { apply blocked_none. intros a Ha.
        apply (lookup_path_ancestors h t src ks _ Hsrc).
        eapply ancestors_of_ancestor; eassumption. }
      rewrite Hb, (lookup_path_ancestors h t src ks _ Hsrc _ Hu). reflexivity. }
    rewrite <- Hsrc1. pose proof (lookup_path_key h t src ks _ Hsrc) as Hks.
    apply lookup_path_agree; rewrite <- Hks.
    - intros a Ha. apply node_at_prune.
      destruct (Fs.is_under (Fs.key h dest) a) eqn:Hua; [| reflexivity].
      rewrite (is_under_trans _ a ks Hua (ancestor_is_above _ _ Ha)) in Hunder.
      discriminate.
    - apply node_at_prune. exact Hunder. }
  destruct r2 as [e | []].
  { injection Hrun as <- <-. left. exists e. split; [reflexivity |].
    apply node_of_lookup. eapply lookup_path_node. exact Hsrc2. }
  rewrite run_await in Hrun.
  destruct (rename_file src dest t2 t' res ks c Hsrc2 Hne Hrun)
    as [(e & -> & ->) | Hdone].
  - left. exists e. split; [reflexivity |].
    apply node_of_lookup. eapply lookup_path_node. exact Hsrc2.
  - right. exact Hdone.
Qed.

Lemma move_file (src dest : string) (t t' : tree) (res : js_error + unit)
    (ks : list string) (c : string) :
  Fs.lookup_path h t src = inr (ks, Some (File c)) ->
  dest <> "" ->
  run h (Lib.move h src dest true) t = (res, t') ->
  (exists e, res = inl e /\ t' !! ks = Some (File c)) \/
  (res = inr tt /\ t' !! ks = None /\
   Fs.lookup_path h t' dest = inr (Fs.key h dest, Some (File c))).
Proof.
  intros Hsrc Hdest0 Hrun.
  pose proof (lookup_path_key h t src ks _ Hsrc) as Hks.
  pose proof (node_of_lookup t ks c (lookup_path_node h t src ks _ Hsrc)) as Hfile.
  unfold Lib.move in Hrun. cbv zeta in Hrun.
  rewrite run_bind, run_validated in Hrun.
  destruct (Str.has_char Str.nul src).
  { injection Hrun as <- <-. left. eauto. }
  rewrite run_await in Hrun. cbn [Fs.exec] in Hrun. unfold Fs.stat_as in Hrun at 1.
  rewrite Hsrc in Hrun. cbn [Fs.stats_of] in Hrun.
  rewrite run_bind, run_validated in Hrun.
  destruct (Str.has_char Str.nul dest) eqn:Hnul.
  { injection Hrun as <- <-. left. eauto. }
  cbn [run Fs.exec isDirectory andb negb] in Hrun. unfold Fs.stat_as in Hrun.
  destruct (Fs.lookup_path h t dest) as [e | [kd [nd |]]] eqn:Hdest.
  - destruct e; cbn [run] in Hrun;
      try (injection Hrun as <- <-; left; eauto; fail).
    eapply move_tail;
      [exact Hsrc | exact Hnul | | intros k; rewrite Hdest; discriminate | exact Hrun].
    intros Hsame. unfold Fs.lookup_path in Hdest.
    apply String.eqb_neq in Hdest0. rewrite Hdest0, Hsame in Hdest.
    assert (Hb : Fs.blocked t (Fs.ancestors ks) = None).
    { apply blocked_none. eapply lookup_path_ancestors. exact Hsrc. }
    rewrite Hb, (lookup_path_node h t src ks _ Hsrc) in Hdest.
    destruct (Str.last_is Str.slash dest); discriminate.
  - pose proof (lookup_path_key h t dest kd _ Hdest) as ->.
    cbn [run] in Hrun.
    destruct (bool_decide (Fs.key h src = Fs.key h dest)) eqn:Hsame.
    { injection Hrun as <- <-. left. eauto. }
    apply bool_decide_eq_false in Hsame.
    destruct nd as [c0 |]; cbn [Fs.stats_of isDirectory] in Hrun.
    + eapply move_tail; [exact Hsrc | exact Hnul | congruence | | exact Hrun].
      intros k. rewrite Hdest. discriminate.
    + injection Hrun as <- <-. left. eauto.
  - pose proof (lookup_path_key h t dest kd _ Hdest) as ->.
    cbn [run] in Hrun.
    eapply move_tail;
      [exact Hsrc | exact Hnul | | intros k; rewrite Hdest; discriminate | exact Hrun].
    intros Hsame. pose proof (lookup_path_node h t dest _ _ Hdest) as Hnone.
    rewrite Hsame, (lookup_path_node h t src ks _ Hsrc) in Hnone. discriminate.
Qed.

End MoveFile.
Section UploadOutcome.

Variable h : host.

Lemma normalize_nonempty (p : string) : Path.normalize p <> "".
Proof.
  unfold Path.normalize. destruct (String.eqb p ""); [discriminate |].
  destruct (String.eqb_spec (Path.normalizeString p (negb (Str.first_is Str.slash p))) "")
    as [Hq | Hq].
  - destruct (Str.first_is _ _); [discriminate |]. destruct (Str.last_is _ _); discriminate.
  - destruct (Str.first_is Str.slash p); [discriminate |].
    destruct (Path.normalizeString p _) as [| c q]; [contradiction |].
    destruct (Str.last_is _ _); discriminate.
Qed.

Lemma join_nonempty (args : list string) : Path.join args <> "".
Proof.
  unfold Path.join. destruct (filter _ args); [discriminate | apply normalize_nonempty].
Qed.

(** An upload of a stored file either succeeds, and the content has
    moved from the temporary file to the target, or fails, and the
    temporary file is still where multer put it. *)
Lemma upload_outcome (req : request) (t t' : tree) (r : response) (f : upload)
    (ks : list string) (c : string) :
  file req = Some f ->
  Fs.lookup_path h t (upload_path f) = inr (ks, Some (File c)) ->
  App.serve h App.POST_api_upload req t = (inr r, t') ->
  (status r <> 200 /\ t' !! ks = Some (File c)) \/
  (exists d,
     js_or (prop (body req) "path") (VStr "") = VStr d /\
     Str.startsWith (Path.join [App.FILES_DIR h; d; originalname f]) (App.FILES_DIR h) = true /\
     r = json (VObj [("success", VBool true);
                     ("path", VStr (Path.relative (cwd h) (App.FILES_DIR h)
                                      (Path.join [App.FILES_DIR h; d; originalname f])))]) /\
     t' !! ks = None /\
     Fs.lookup_path h t' (Path.join [App.FILES_DIR h; d; originalname f])
     = inr (Fs.key h (Path.join [App.FILES_DIR h; d; originalname f]), Some (File c))).
Proof.
  intros Hf Hsrc Hrun.
  pose proof (node_of_lookup t ks c (lookup_path_node h t _ ks _ Hsrc)) as Hfile.
  unfold App.serve, App.route, App.post_api_upload in Hrun. rewrite Hf in Hrun.
  cbv zeta in Hrun. unfold Lib.path_join in Hrun.
  destruct (js_or (prop (body req) "path") (VStr "")) as [| | b | n | d | dt | l | fs] eqn:Hd;
    try (simpl in Hrun; injection Hrun as <- <-; left; split; [discriminate | exact Hfile]).
  cbn [Lib.strings_of bind] in Hrun.
  destruct (Str.startsWith _ _) eqn:Hprefix; cbn [negb] in Hrun.
  2: { simpl in Hrun. injection Hrun as <- <-. left. split; [discriminate | exact Hfile]. }
  rewrite run_try_catch, run_bind, run_ensureDir in Hrun.
  destruct (Str.has_char Str.nul (Path.dirname _)).
  { simpl in Hrun. injection Hrun as <- <-. left. split; [discriminate | exact Hfile]. }
  destruct (Fs.exec h (Mkdirp _) t) as [r0 t0] eqn:Hmk.
  assert (Hkeep : forall k n, t !! k = Some n -> t0 !! k = Some n).
  { apply exec_mkdirp_inv in Hmk as [(e & _ & ->) | (_ & Hmk)]; [auto |].
    eapply mkdirs_preserves. exact Hmk. }
  destruct r0 as [e | []].
  { simpl in Hrun. injection Hrun as <- <-. left. split; [discriminate | auto]. }
  rewrite run_bind in Hrun.
  destruct (run h (Lib.move h _ _ true) t0) as [res t1] eqn:Hmove.
  apply (move_file h _ _ t0 t1 res ks c) in Hmove;
    [| eapply lookup_path_keeps; eassumption | apply join_nonempty].
  destruct Hmove as [(e & -> & Hks) | (-> & Hks & Hdest)].
  - simpl in Hrun. injection Hrun as <- <-. left. split; [discriminate | exact Hks].
  - simpl in Hrun. injection Hrun as <- <-. right. exists d. repeat split; assumption.
Qed.

End UploadOutcome.
(** X9: when an upload answers 200, the content of the file that multer
    stored has moved to the target, [FILES_DIR] joined with the [path]
    field and the original name, replacing a file that was there; the
    temporary file is gone. *)
Theorem upload_moves_the_stored_file (h : host) (req : request) (t t' : tree)
    (r : response) (f : upload) (ks : list string) (c : string) :
  file req = Some f ->
  Fs.lookup_path h t (upload_path f) = inr (ks, Some (File c)) ->
  App.serve h App.POST_api_upload req t = (inr r, t') ->
  status r = 200 ->
  t' !! ks = None /\
  exists d,
    js_or (prop (body req) "path") (VStr "") = VStr d /\
    Fs.lookup_path h t' (Path.join [App.FILES_DIR h; d; originalname f])
    = inr (Fs.key h (Path.join [App.FILES_DIR h; d; originalname f]), Some (File c)).
Proof.
  intros Hf Hsrc Hrun Hok.
  destruct (upload_outcome h req t t' r f ks c Hf Hsrc Hrun)
    as [[Hbad _] | (d & Hd & _ & _ & Hks & Hdest)]; [contradiction |].
  split; [exact Hks |]. exists d. split; assumption.
Qed.

Lemma upload_moves_the_stored_file_witness :
  (App.serve docker App.POST_api_upload (upload_to "img") www_uploading).2 !! stored_key = None /\
  exists d,
    js_or (prop (body (upload_to "img")) "path") (VStr "") = VStr d /\
    Fs.lookup_path docker
      (App.serve docker App.POST_api_upload (upload_to "img") www_uploading).2
      (Path.join [App.FILES_DIR docker; d; originalname stored_upload])
    = inr (Fs.key docker (Path.join [App.FILES_DIR docker; d; originalname stored_upload]),
           Some (File "data")).
Proof.
  apply (upload_moves_the_stored_file docker (upload_to "img") www_uploading _
           (json (VObj [("success", VBool true); ("path", VStr "img/pic.png")]))
           stored_upload stored_key "data").
  - reflexivity.
  - vm_compute. reflexivity.
  - apply pair_of_fst. vm_compute. reflexivity.
  - reflexivity.
Defined.

(** X10: nothing cleans up after an upload that is not answered 200:
    whether it was refused (403) or failed (500), the temporary file that
    multer stored is still there with its content. *)
Theorem failed_upload_keeps_the_stored_file (h : host) (req : request) (t t' : tree)
    (r : response) (f : upload) (ks : list string) (c : string) :
  file req = Some f ->
  Fs.lookup_path h t (upload_path f) = inr (ks, Some (File c)) ->
  App.serve h App.POST_api_upload req t = (inr r, t') ->
  status r <> 200 ->
  t' !! ks = Some (File c).
Proof.
  intros Hf Hsrc Hrun Hbad.
  destruct (upload_outcome h req t t' r f ks c Hf Hsrc Hrun)
    as [[_ Hks] | (d & _ & _ & -> & _)]; [exact Hks |].
  exfalso. apply Hbad. reflexivity.
Qed.

Lemma failed_upload_keeps_the_stored_file_witness :
  (App.serve docker App.POST_api_upload (upload_to "../..") www_uploading).2 !! stored_key
  = Some (File "data").
Proof.
  apply (failed_upload_keeps_the_stored_file docker (upload_to "../..") www_uploading _
           (status_json 403 (App.error_body "Access denied")) stored_upload stored_key "data").
  - reflexivity.
  - vm_compute. reflexivity.
  - apply pair_of_fst. vm_compute. reflexivity.
  - discriminate.
Defined.

(** ** Paths *)

Section PathTheory.

Lemma split_nonempty (sep : ascii) (s : string) : Str.split sep s <> [].
Proof.
  destruct s as [| c s]; simpl; [discriminate |].
  destruct (Ascii.eqb c sep); [discriminate |].
  destruct (Str.split sep s); discriminate.
Qed.

Lemma split_app (sep : ascii) (a b : string) :
  Str.split sep (a +:+ String sep b) = Str.split sep a ++ Str.split sep b.
Proof.
  induction a as [| c a IH]; simpl.
  - rewrite Ascii.eqb_refl. reflexivity.
  - destruct (Ascii.eqb c sep); [rewrite IH; reflexivity |].
    rewrite IH. pose proof (split_nonempty sep a) as Hne.
    destruct (Str.split sep a); [contradiction | reflexivity].
Qed.

Lemma split_no_sep (sep : ascii) (s : string) :
  Str.has_char sep s = false -> Str.split sep s = [s].
Proof.
  induction s as [| c s IH]; simpl; [reflexivity |].
  intros H. apply orb_false_iff in H as [Hc Hs].
  rewrite Ascii.eqb_sym, Hc, (IH Hs). reflexivity.
Qed.

Lemma split_segments (sep : ascii) (s : string) :
  Forall (fun seg => Str.has_char sep seg = false) (Str.split sep s).
Proof.
  induction s as [| c s IH]; simpl.
  - constructor; [reflexivity | constructor].
  - destruct (Ascii.eqb c sep) eqn:Hc; [constructor; [reflexivity | exact IH] |].
    destruct (Str.split sep s) as [| seg rest]; [repeat constructor; simpl |].
    + rewrite Ascii.eqb_sym, Hc. reflexivity.
    + inversion IH; subst. constructor; [| assumption].
      simpl. rewrite Ascii.eqb_sym, Hc. assumption.
Qed.

Lemma has_char_app (c : ascii) (a b : string) :
  Str.has_char c (a +:+ b) = Str.has_char c a || Str.has_char c b.
Proof.
  induction a as [| d a IH]; simpl; [reflexivity |].
  rewrite IH, orb_assoc. reflexivity.
Qed.

(** Characters other than the separator are those of the segments. *)
Lemma split_chars (sep c : ascii) (s : string) :
  Str.has_char c s = false ->
  Forall (fun seg => Str.has_char c seg = false) (Str.split sep s).
Proof.
  induction s as [| d s IH]; simpl.
  - intros _. repeat constructor.
  - intros H. apply orb_false_iff in H as [Hd Hs]. specialize (IH Hs).
    destruct (Ascii.eqb d sep); [constructor; [reflexivity | exact IH] |].
    destruct (Str.split sep s) as [| seg rest]; [repeat constructor; simpl; rewrite Hd; reflexivity |].
    inversion IH; subst. constructor; [| assumption].
    simpl. rewrite Hd. assumption.
Qed.

Lemma join_cons (sep x : string) (l : list string) :
  l <> [] -> Str.join sep (x :: l) = x +:+ sep +:+ Str.join sep l.
Proof. destruct l; [contradiction | reflexivity]. Qed.

Lemma append_assoc (a b c : string) : (a +:+ b) +:+ c = a +:+ (b +:+ c).
Proof.
  induction a as [| x a IH]; [reflexivity |].
  change (String x ((a +:+ b) +:+ c) = String x (a +:+ b +:+ c)). rewrite IH. reflexivity.
Qed.

Lemma join_app (sep : string) (l1 l2 : list string) :
  l1 <> [] -> l2 <> [] ->
  Str.join sep (l1 ++ l2) = Str.join sep l1 +:+ sep +:+ Str.join sep l2.
Proof.
  intros H1 H2. induction l1 as [| x l1 IH]; [contradiction |].
  destruct l1 as [| y l1].
  - simpl app. apply join_cons. exact H2.
  - change ((x :: y :: l1) ++ l2) with (x :: (y :: l1) ++ l2).
    rewrite join_cons by discriminate. rewrite IH by discriminate.
    rewrite (join_cons sep x (y :: l1)) by discriminate.
    rewrite !append_assoc. reflexivity.
Qed.

Lemma join_chars (c : ascii) (l : list string) :
  Str.has_char c "/" = false ->
  Forall (fun seg => Str.has_char c seg = false) l ->
  Str.has_char c (Str.join "/" l) = false.
Proof.
  intros Hc H. induction H as [| x l Hx Hl IH]; [reflexivity |].
  destruct l as [| y l]; [exact Hx |].
  rewrite join_cons by discriminate. rewrite !has_char_app, Hx, Hc, IH. reflexivity.
Qed.

Lemma split_join (l : list string) :
  l <> [] ->
  Forall (fun seg => Str.has_char Str.slash seg = false) l ->
  Str.split Str.slash (Str.join "/" l) = l.
Proof.
  intros Hne H. induction H as [| x l Hx Hl IH]; [contradiction |].
  destruct l as [| y l]; [apply split_no_sep; exact Hx |].
  rewrite join_cons by discriminate.
  change (x +:+ "/" +:+ Str.join "/" (y :: l))
    with (x +:+ String Str.slash (Str.join "/" (y :: l))).
  rewrite split_app, IH by discriminate. rewrite split_no_sep by exact Hx. reflexivity.
Qed.

End PathTheory.

Section Normalizing.

Lemma normalizeStep_Forall (P : string -> Prop) (b : bool) (res : list string) (seg : string) :
  Forall P res -> P seg -> (b = true -> P "..") ->
  Forall P (Path.normalizeStep b res seg).
Proof.
  intros Hres Hseg Hup. unfold Path.normalizeStep.
  destruct (_ || _); [exact Hres |].
  destruct (String.eqb seg "..").
  - destruct res as [| last rest].
    + destruct b; [repeat constructor; auto | constructor].
    + destruct (String.eqb last "..").
      * destruct b; [constructor; auto | exact Hres].
      * inversion Hres; assumption.
  - constructor; assumption.
Qed.

Lemma fold_normalizeStep_Forall (P : string -> Prop) (b : bool) (segs acc : list string) :
  Forall P acc -> Forall P segs -> (b = true -> P "..") ->
  Forall P (fold_left (Path.normalizeStep b) segs acc).
Proof.
  intros Hacc Hsegs Hup. revert acc Hacc.
  induction Hsegs as [| seg segs Hseg _ IH]; intros acc Hacc; simpl; [exact Hacc |].
  apply IH. apply normalizeStep_Forall; assumption.
Qed.

Lemma normalizeStep_proper (res : list string) (seg : string) :
  Forall (fun s => proper s = true) res ->
  Str.has_char Str.slash seg = false ->
  Forall (fun s => proper s = true) (Path.normalizeStep false res seg).
Proof.
  intros Hres Hseg. unfold Path.normalizeStep.
  destruct (_ || _) eqn:Hskip; [exact Hres |].
  destruct (String.eqb seg "..") eqn:Hup.
  - destruct res as [| last rest]; [constructor |].
    destruct (String.eqb last ".."); [exact Hres | inversion Hres; assumption].
  - constructor; [| exact Hres]. unfold proper. rewrite Hskip, Hup, Hseg. reflexivity.
Qed.

Lemma fold_normalizeStep_proper (segs acc : list string) :
  Forall (fun s => proper s = true) acc ->
  Forall (fun s => Str.has_char Str.slash s = false) segs ->
  Forall (fun s => proper s = true) (fold_left (Path.normalizeStep false) segs acc).
Proof.
  intros Hacc Hsegs. revert acc Hacc.
  induction Hsegs as [| seg segs Hseg _ IH]; intros acc Hacc; simpl; [exact Hacc |].
  apply IH. apply normalizeStep_proper; assumption.
Qed.

(** What [path.resolve] leaves are names. *)
Lemma normalizeSegments_proper (p : string) :
  Forall (fun s => proper s = true) (Path.normalizeSegments false p).
Proof.
  unfold Path.normalizeSegments. apply Forall_rev.
  apply fold_normalizeStep_proper; [constructor | apply split_segments].
Qed.

Lemma normalizeStep_push (b : bool) (res : list string) (seg : string) :
  proper seg = true -> Path.normalizeStep b res seg = seg :: res.
Proof.
  unfold proper, Path.normalizeStep. intros H.
  apply andb_true_iff in H as [H _]. apply andb_true_iff in H as [H1 H2].
  apply negb_true_iff in H1, H2. rewrite H1, H2. reflexivity.
Qed.

Lemma fold_normalizeStep_push (b : bool) (segs acc : list string) :
  Forall (fun s => proper s = true) segs ->
  fold_left (Path.normalizeStep b) segs acc = List.rev segs ++ acc.
Proof.
  intros H. revert acc. induction H as [| seg segs Hseg _ IH]; intros acc; simpl;
    [reflexivity |].
  rewrite normalizeStep_push by exact Hseg. rewrite IH, <- app_assoc. reflexivity.
Qed.

Lemma normalizeSegments_app (a b : string) :
  Path.normalizeSegments false (a +:+ "/" +:+ b) =
  List.rev (fold_left (Path.normalizeStep false) (Str.split Str.slash b)
              (List.rev (Path.normalizeSegments false a))).
Proof.
  unfold Path.normalizeSegments.
  change (a +:+ "/" +:+ b) with (a +:+ String Str.slash b).
  rewrite split_app, fold_left_app, rev_involutive. reflexivity.
Qed.

Lemma proper_nonempty (seg : string) : proper seg = true -> seg <> "".
Proof. intros H ->. discriminate. Qed.

Lemma proper_no_slash (seg : string) :
  proper seg = true -> Str.has_char Str.slash seg = false.
Proof. unfold proper. intros H. apply andb_true_iff in H as [_ H]. apply negb_true_iff, H. Qed.

Lemma Forall_proper_no_slash (l : list string) :
  Forall (fun s => proper s = true) l ->
  Forall (fun s => Str.has_char Str.slash s = false) l.
Proof. apply List.Forall_impl. exact proper_no_slash. Qed.

Lemma join_proper_nonempty (l : list string) :
  l <> [] -> Forall (fun s => proper s = true) l -> Str.join "/" l <> "".
Proof.
  intros Hne H. destruct H as [| x l Hx _]; [contradiction |].
  apply proper_nonempty in Hx. destruct x as [| c x]; [contradiction |].
  destruct l; discriminate.
Qed.

Lemma first_is_nonempty (c : ascii) (p : string) : Str.first_is c p = true -> p <> "".
Proof. intros H ->. discriminate. Qed.

(** The shape of a normalised absolute path. *)
Lemma normalize_absolute (p : string) :
  Str.first_is Str.slash p = true ->
  Path.normalize p =
  match Path.normalizeSegments false p with
  | [] => "/"
  | N => "/" +:+ Str.join "/" N +:+ (if Str.last_is Str.slash p then "/" else "")
  end.
Proof.
  intros Habs. unfold Path.normalize.
  destruct (String.eqb_spec p "") as [-> | _]; [discriminate |].
  rewrite Habs. cbn [negb]. unfold Path.normalizeString.
  pose proof (normalizeSegments_proper p) as Hproper.
  destruct (Path.normalizeSegments false p) as [| x N] eqn:HN; [reflexivity |].
  destruct (String.eqb_spec (Str.join "/" (x :: N)) "") as [Hq | _].
  { exfalso. eapply join_proper_nonempty; [| exact Hproper | exact Hq]. discriminate. }
  destruct (Str.last_is Str.slash p); [reflexivity |].
  rewrite append_empty_r. reflexivity.
Qed.

Lemma split_absolute (x : string) :
  Str.split Str.slash ("/" +:+ x) = "" :: Str.split Str.slash x.
Proof. reflexivity. Qed.

Lemma normalizeSegments_shape (N : list string) (tr : string) :
  Forall (fun s => proper s = true) N -> N <> [] ->
  tr = "" \/ tr = "/" ->
  Path.normalizeSegments false ("/" +:+ Str.join "/" N +:+ tr) = N.
Proof.
  intros HN Hne Htr. unfold Path.normalizeSegments. rewrite split_absolute.
  assert (Hsplit : exists l, Str.split Str.slash (Str.join "/" N +:+ tr) = N ++ l /\
                             (l = [] \/ l = [""])).
  { destruct Htr as [-> | ->].
    - exists []. rewrite append_empty_r, app_nil_r.
      split; [apply split_join; [exact Hne | apply Forall_proper_no_slash, HN] | auto].
    - exists [""]. change (Str.join "/" N +:+ "/") with (Str.join "/" N +:+ String Str.slash "").
      rewrite split_app, split_join by (try exact Hne; apply Forall_proper_no_slash, HN).
      split; [reflexivity | auto]. }
  destruct Hsplit as (l & -> & Hl).
  cbn [fold_left]. change (Path.normalizeStep false [] "") with (@nil string).
  rewrite fold_left_app. rewrite (fold_normalizeStep_push false N) by exact HN.
  rewrite app_nil_r. destruct Hl as [-> | ->]; simpl; apply rev_involutive.
Qed.

(** Normalising an absolute path does not change what it resolves to. *)
Lemma normalizeSegments_normalize (p : string) :
  Str.first_is Str.slash p = true ->
  Path.normalizeSegments false (Path.normalize p) = Path.normalizeSegments false p.
Proof.
  intros Habs. rewrite normalize_absolute by exact Habs.
  pose proof (normalizeSegments_proper p) as Hproper.
  destruct (Path.normalizeSegments false p) as [| x N]; [reflexivity |].
  apply normalizeSegments_shape; [exact Hproper | discriminate |].
  destruct (Str.last_is Str.slash p); auto.
Qed.

Lemma first_is_normalize (p : string) :
  Str.first_is Str.slash p = true -> Str.first_is Str.slash (Path.normalize p) = true.
Proof.
  intros Habs. rewrite normalize_absolute by exact Habs.
  destruct (Path.normalizeSegments false p); reflexivity.
Qed.

Lemma first_is_app (c : ascii) (a b : string) :
  Str.first_is c a = true -> Str.first_is c (a +:+ b) = true.
Proof. destruct a; [discriminate | intros H; exact H]. Qed.

Lemma join_two (a b : string) :
  a <> "" -> b <> "" -> Path.join [a; b] = Path.normalize (a +:+ "/" +:+ b).
Proof.
  intros Ha Hb. unfold Path.join.
  rewrite filter_cons_True by exact Ha. rewrite filter_cons_True by exact Hb.
  reflexivity.
Qed.

End Normalizing.

Section Keys.

Variable h : host.

Lemma key_absolute (p : string) :
  Str.first_is Str.slash p = true -> Fs.key h p = Path.normalizeSegments false p.
Proof. intros Habs. unfold Fs.key, Path.resolveSegments. rewrite Habs. reflexivity. Qed.

(** What the join of an absolute path with a relative one resolves to:
    the segments of the second, taken from where the first leads. *)
Lemma key_join (a b : string) :
  Str.first_is Str.slash a = true -> b <> "" ->
  Str.first_is Str.slash (Path.join [a; b]) = true /\
  Fs.key h (Path.join [a; b]) =
  List.rev (fold_left (Path.normalizeStep false) (Str.split Str.slash b)
              (List.rev (Fs.key h a))).
Proof.
  intros Habs Hb.
  rewrite join_two by (try exact Hb; eapply first_is_nonempty; exact Habs).
  assert (Habs' : Str.first_is Str.slash (a +:+ "/" +:+ b) = true)
    by (apply first_is_app; exact Habs).
  split; [apply first_is_normalize; exact Habs' |].
  rewrite key_absolute by (apply first_is_normalize; exact Habs').
  rewrite normalizeSegments_normalize by exact Habs'.
  rewrite normalizeSegments_app, (key_absolute a Habs). reflexivity.
Qed.

End Keys.

Section Inside.

Variable h : host.

Lemma startsWith_app (a b : string) : Str.startsWith (a +:+ b) a = true.
Proof.
  induction a as [| c a IH]; [destruct b; reflexivity |].
  change (Ascii.eqb c c && Str.startsWith (a +:+ b) a = true).
  rewrite Ascii.eqb_refl. exact IH.
Qed.


(** Segments that never climb above their start leave what lies below
    it alone. *)
Lemma fold_inside (segs X R : list string) :
  Forall (fun s => proper s = true) X ->
  inside (length X) segs = true ->
  Forall (fun s => Str.has_char Str.slash s = false) segs ->
  exists X', fold_left (Path.normalizeStep false) segs (X ++ R) = X' ++ R /\
             Forall (fun s => proper s = true) X'.
Proof.
  intros HX Hin Hsegs. revert X HX Hin.
  induction Hsegs as [| seg segs Hseg _ IH]; intros X HX Hin; [exists X; auto |].
  cbn [fold_left]. cbn [inside] in Hin. unfold Path.normalizeStep at 2.
  destruct (_ || _) eqn:Hskip; [apply IH; assumption |].
  destruct (String.eqb seg "..") eqn:Hup.
  - destruct X as [| x X]; [discriminate |]. cbn [length] in Hin.
    inversion HX as [| ? ? Hx HX']; subst.
    assert (Hx' : String.eqb x ".." = false).
    { unfold proper in Hx. apply andb_true_iff in Hx as [Hx _].
      apply andb_true_iff in Hx as [_ Hx]. apply negb_true_iff, Hx. }
    cbn [app]. rewrite Hx'. apply IH; assumption.
  - apply (IH (seg :: X)); [| exact Hin].
    constructor; [| exact HX]. unfold proper. rewrite Hskip, Hup, Hseg. reflexivity.
Qed.

Lemma normal_root_absolute (root : list string) :
  normal_root h root -> Str.first_is Str.slash (App.FILES_DIR h) = true.
Proof. intros [-> _]. reflexivity. Qed.

Lemma normal_root_Forall (root : list string) :
  normal_root h root -> Forall (fun s => proper s = true) root.
Proof.
  intros (_ & _ & H). apply List.Forall_forall.
  exact (proj1 (List.forallb_forall proper root) H).
Qed.

Lemma normal_root_key (root : list string) :
  normal_root h root -> Fs.key h (App.FILES_DIR h) = root.
Proof.
  intros Hroot. rewrite key_absolute by (eapply normal_root_absolute; exact Hroot).
  pose proof (normal_root_Forall root Hroot) as Hproper.
  destruct Hroot as (-> & Hne & _).
  rewrite <- (append_empty_r (Str.join "/" root)).
  apply normalizeSegments_shape; auto.
Qed.

(** The join of an absolute path with a relative one, from what it
    resolves to. *)
Lemma join_shape (a b : string) :
  Str.first_is Str.slash a = true -> b <> "" ->
  Path.join [a; b] =
  match Fs.key h (Path.join [a; b]) with
  | [] => "/"
  | K => "/" +:+ Str.join "/" K +:+ (if Str.last_is Str.slash (a +:+ "/" +:+ b) then "/" else "")
  end.
Proof.
  intros Habs Hb.
  assert (Habs' : Str.first_is Str.slash (a +:+ "/" +:+ b) = true)
    by (apply first_is_app; exact Habs).
  rewrite key_absolute by (apply (key_join h a b); assumption).
  rewrite join_two by (try exact Hb; eapply first_is_nonempty; exact Habs).
  rewrite normalizeSegments_normalize by exact Habs'.
  apply normalize_absolute. exact Habs'.
Qed.

Lemma inside_key (root : list string) (s : string) :
  normal_root h root -> s <> "" ->
  inside 0 (Str.split Str.slash s) = true ->
  exists Y, Fs.key h (Path.join [App.FILES_DIR h; s]) = root ++ Y /\
            Forall (fun x => proper x = true) Y.
Proof.
  intros Hroot Hs Hin.
  destruct (key_join h (App.FILES_DIR h) s (normal_root_absolute root Hroot) Hs) as [_ ->].
  rewrite (normal_root_key root Hroot).
  destruct (fold_inside (Str.split Str.slash s) [] (List.rev root))
    as (X' & HX' & Hproper); [constructor | exact Hin | apply split_segments |].
  cbn [app] in HX'. rewrite HX', rev_app_distr, rev_involutive.
  exists (List.rev X'). split; [reflexivity | apply Forall_rev; exact Hproper].
Qed.

(** A path that stays inside passes the prefix check. *)
Lemma inside_passes (root : list string) (s : string) :
  normal_root h root -> s <> "" ->
  inside 0 (Str.split Str.slash s) = true ->
  Str.startsWith (Path.join [App.FILES_DIR h; s]) (App.FILES_DIR h) = true.
Proof.
  intros Hroot Hs Hin.
  destruct (inside_key root s Hroot Hs Hin) as (Y & HY & _).
  rewrite (join_shape _ s (normal_root_absolute root Hroot) Hs), HY.
  destruct Hroot as (HF & Hne & _).
  destruct (root ++ Y) as [| x K] eqn:HK; [destruct root; [contradiction | discriminate] |].
  rewrite <- HK. rewrite HF at 2.
  destruct Y as [| y Y].
  - rewrite app_nil_r, <- append_assoc. apply startsWith_app.
  - rewrite join_app by (try exact Hne; discriminate).
    rewrite append_assoc, <- (append_assoc "/"). apply startsWith_app.
Qed.

End Inside.

(** X11: a path that never climbs above the root is never refused.
    When the root is an absolute path in normal form, a listing, content,
    write or delete request whose path input is a string whose [..]
    segments only go back over names the path itself has entered is not
    answered 403. *)
Theorem paths_inside_are_not_refused (h : host) (root : list string) (ep : App.endpoint)
    (req : request) (t t' : tree) (s : string) (r : response) :
  normal_root h root ->
  ep <> App.POST_api_upload ->
  path_input ep req = VStr s ->
  inside 0 (Str.split Str.slash s) = true ->
  App.serve h ep req t = (inr r, t') ->
  status r <> 403.
Proof.
  intros Hroot Hep Hv Hin Hrun.
  apply (rest_is_not_403 h ep req t t' r Hep); [| exact Hrun].
  destruct (String.eqb_spec s "") as [-> | Hs].
  - left. rewrite Hv. reflexivity.
  - right. exists s. split; [exact Hv |]. eapply inside_passes; eassumption.
Qed.

Lemma docker_root : normal_root docker ["var"; "www"; "html"].
Proof. repeat split. discriminate. Qed.

Lemma paths_inside_are_not_refused_witness :
  status (status_json 500 (App.error_body
            (message docker (SystemError ENOENT "stat" "/var/www/html/b" None)))) <> 403.
Proof.
  apply (paths_inside_are_not_refused docker ["var"; "www"; "html"] App.GET_api_files_content
           (with_query "a/../b") www
           (App.serve docker App.GET_api_files_content (with_query "a/../b") www).2 "a/../b").
  - exact docker_root.
  - discriminate.
  - reflexivity.
  - reflexivity.
  - apply pair_of_fst. vm_compute. reflexivity.
Defined.

(** ** Listings *)

Section Listing.

Variable h : host.

Lemma run_mapM {A B : Type} (f : A -> prog B) (g : A -> B) (l : list A) (t : tree) :
  (forall x, In x l -> run h (f x) t = (inr (g x), t)) ->
  run h (mapM f l) t = (inr (List.map g l), t).
Proof.
  induction l as [| x l IH]; intros H; [reflexivity |].
  cbn [mapM]. rewrite run_bind, (H x (or_introl eq_refl)).
  rewrite run_bind, IH by (intros y Hy; apply H; right; exact Hy).
  reflexivity.
Qed.

Lemma child_of_Some (k e : list string) (f : string) :
  Fs.child_of k e = Some f -> e = k ++ [f].
Proof.
  revert e. induction k as [| x k IH]; intros e H.
  - destruct e as [| y [| z e]]; try discriminate. injection H as <-. reflexivity.
  - destruct e as [| y e]; [discriminate |]. simpl in H.
    destruct (String.eqb_spec x y) as [<- | _]; [| discriminate].
    rewrite (IH e H). reflexivity.
Qed.

Lemma children_In (t : tree) (k : list string) (f : string) :
  In f (Fs.children t k) -> exists n, t !! (k ++ [f]) = Some n.
Proof.
  unfold Fs.children. intros H. apply list_elem_of_In, list_elem_of_omap in H.
  destruct H as ([e n] & He & Hf). simpl in Hf.
  apply child_of_Some in Hf as ->. apply elem_of_map_to_list in He. eauto.
Qed.

Lemma real_names_lookup (t : tree) (k : list string) (n : node) :
  real_names t = true -> t !! k = Some n -> Forall (fun s => entry_name s = true) k.
Proof.
  unfold real_names. intros Hall Hk.
  apply elem_of_map_to_list, list_elem_of_In in Hk.
  pose proof (proj1 (List.forallb_forall _ _) Hall _ Hk) as H. simpl in H.
  apply List.Forall_forall. exact (proj1 (List.forallb_forall _ _) H).
Qed.

Lemma children_names (t : tree) (k : list string) (f : string) :
  real_names t = true -> In f (Fs.children t k) -> entry_name f = true.
Proof.
  intros Hnames Hf. apply children_In in Hf as [n Hn].
  pose proof (real_names_lookup t _ n Hnames Hn) as H.
  apply Forall_app in H as [_ H]. inversion H; assumption.
Qed.

Lemma ancestors_snoc (k : list string) (x : string) :
  Fs.ancestors (k ++ [x]) = Fs.ancestors k ++ [k].
Proof.
  induction k as [| y k IH]; [reflexivity |].
  cbn [app Fs.ancestors]. rewrite IH, List.map_app. reflexivity.
Qed.

Lemma last_is_app (c : ascii) (a b : string) :
  b <> "" -> Str.last_is c (a +:+ b) = Str.last_is c b.
Proof.
  intros Hb. induction a as [| x a IH]; [reflexivity |].
  change (Str.last_is c (String x (a +:+ b)) = Str.last_is c b).
  destruct (a +:+ b) as [| y ab] eqn:Hab.
  - destruct a; [simpl in Hab; contradiction | discriminate].
  - rewrite <- IH. reflexivity.
Qed.

Lemma last_is_has_char (c : ascii) (s : string) :
  Str.has_char c s = false -> Str.last_is c s = false.
Proof.
  induction s as [| x s IH]; [reflexivity |]. simpl. intros H.
  apply orb_false_iff in H as [Hx Hs]. destruct s; [exact Hx | apply IH; exact Hs].
Qed.

Lemma last_is_join (l : list string) (f : string) :
  f <> "" -> Str.has_char Str.slash f = false ->
  Str.last_is Str.slash (Str.join "/" (l ++ [f])) = false.
Proof.
  intros Hne Hf.
  pose proof (last_is_has_char _ f Hf) as Hlast.
  destruct l as [| x l]; [exact Hlast |].
  rewrite join_app by discriminate. cbn [Str.join].
  rewrite last_is_app; [| destruct f; [contradiction | discriminate]].
  change ("/" +:+ f) with (String Str.slash f).
  destruct f; [contradiction | exact Hlast].
Qed.

(** The entry [f] of the directory that the absolute path [dir] names:
    where its path leads, and that the path is fit for a system call. *)
Lemma entry_path (dir f : string) :
  Str.first_is Str.slash dir = true ->
  Str.has_char Str.nul dir = false ->
  entry_name f = true ->
  Fs.key h (Path.join [dir; f]) = Fs.key h dir ++ [f] /\
  Path.join [dir; f] = "/" +:+ Str.join "/" (Fs.key h dir ++ [f]) /\
  Str.has_char Str.nul (Path.join [dir; f]) = false /\
  Str.last_is Str.slash (Path.join [dir; f]) = false.
Proof.
  intros Habs Hnul Hf. unfold entry_name in Hf. apply andb_true_iff in Hf as [Hf Hfnul].
  apply negb_true_iff in Hfnul.
  pose proof (proper_nonempty f Hf) as Hne.
  assert (Hkey : Fs.key h (Path.join [dir; f]) = Fs.key h dir ++ [f]).
  { destruct (key_join h dir f Habs Hne) as [_ ->].
    rewrite (split_no_sep _ f (proper_no_slash f Hf)). cbn [fold_left].
    rewrite normalizeStep_push by exact Hf. cbn [List.rev]. rewrite rev_involutive.
    reflexivity. }
  assert (Hshape : Path.join [dir; f] = "/" +:+ Str.join "/" (Fs.key h dir ++ [f])).
  { rewrite (join_shape h dir f Habs Hne), Hkey.
    destruct (Fs.key h dir ++ [f]) as [| x K] eqn:HK; [destruct (Fs.key h dir); discriminate |].
    rewrite (last_is_app _ dir ("/" +:+ f)) by discriminate.
    change ("/" +:+ f) with (String Str.slash f).
    replace (Str.last_is Str.slash (String Str.slash f)) with (Str.last_is Str.slash f)
      by (destruct f; [contradiction | reflexivity]).
    rewrite (last_is_has_char _ f (proper_no_slash f Hf)), append_empty_r. reflexivity. }
  split; [exact Hkey |]. split; [exact Hshape |]. split.
  - rewrite Hshape. change (Str.has_char Str.nul (Str.join "/" (Fs.key h dir ++ [f])) = false).
    apply join_chars; [reflexivity |]. apply Forall_app. split; [| repeat constructor; exact Hfnul].
    rewrite (key_absolute h dir Habs). unfold Path.normalizeSegments. apply Forall_rev.
    apply fold_normalizeStep_Forall; [constructor | | discriminate].
    apply split_chars. exact Hnul.
  - rewrite Hshape. change (Str.last_is Str.slash (String Str.slash (Str.join "/" (Fs.key h dir ++ [f]))) = false).
    pose proof (last_is_join (Fs.key h dir) f Hne (proper_no_slash f Hf)) as Hlast.
    destruct (Str.join "/" (Fs.key h dir ++ [f])) eqn:Hj; [| exact Hlast].
    exfalso. destruct (Fs.key h dir) as [| x [| y K]]; simpl in Hj.
    + contradiction.
    + destruct x; discriminate.
    + destruct x; discriminate.
Qed.

(** An entry of a directory that was reached is found where the join
    of the directory with its name leads. *)
Lemma lookup_entry (t : tree) (dir f : string) (k : list string) (n : node) :
  Str.first_is Str.slash dir = true ->
  Str.has_char Str.nul dir = false ->
  entry_name f = true ->
  Fs.lookup_path h t dir = inr (k, Some Dir) ->
  t !! (k ++ [f]) = Some n ->
  Fs.lookup_path h t (Path.join [dir; f]) = inr (k ++ [f], Some n).
Proof.
  intros Habs Hnul Hf Hlook Hn.
  destruct (entry_path dir f Habs Hnul Hf) as (Hkey & _ & Hfnul & Hlast).
  pose proof (lookup_path_key h t dir k _ Hlook) as Hk. rewrite <- Hk in Hkey.
  unfold Fs.lookup_path.
  destruct (String.eqb_spec (Path.join [dir; f]) "") as [He | _];
    [exfalso; exact (join_nonempty _ He) |].
  rewrite Hkey, ancestors_snoc.
  assert (Hb : Fs.blocked t (Fs.ancestors k ++ [k]) = None).
  { apply blocked_none. intros a Ha. apply in_app_or in Ha as [Ha | [<- | []]].
    - eapply lookup_path_ancestors; eassumption.
    - eapply lookup_path_node; eassumption. }
  rewrite Hb.
  assert (Hnode : Fs.node_at t (k ++ [f]) = Some n) by (destruct k; exact Hn).
  rewrite Hnode, Hlast. destruct n; reflexivity.
Qed.

(** The [stat] of an entry of a directory that was reached. *)
Lemma stat_entry (t : tree) (dir f : string) (k : list string) (n : node) :
  Str.first_is Str.slash dir = true ->
  Str.has_char Str.nul dir = false ->
  entry_name f = true ->
  Fs.lookup_path h t dir = inr (k, Some Dir) ->
  t !! (k ++ [f]) = Some n ->
  run h (Lib.stat (Path.join [dir; f])) t = (inr (Fs.stats_of h t (k ++ [f]) n), t).
Proof.
  intros Habs Hnul Hf Hlook Hn.
  destruct (entry_path dir f Habs Hnul Hf) as (_ & _ & Hfnul & _).
  unfold Lib.stat. rewrite run_validated, Hfnul, run_await. cbn [Fs.exec].
  unfold Fs.stat_as. rewrite (lookup_entry t dir f k n Habs Hnul Hf Hlook Hn). reflexivity.
Qed.

Lemma relative_keys_spec (from to : string) :
  Path.relative (cwd h) from to = relative_keys (Fs.key h from) (Fs.key h to).
Proof. reflexivity. Qed.

(** How a listing runs once its directory is known. *)
Lemma listing_run (req : request) (t : tree) (dirPath : string) :
  listing_dir h req = Some dirPath ->
  App.serve h App.GET_api_files req t =
  if negb (Str.startsWith dirPath (App.FILES_DIR h))
  then (inr (status_json 403 (App.error_body "Access denied")), t)
  else
    run h (try_catch
      (bind (Lib.readdir dirPath) (fun files =>
       bind (mapM (fun file =>
           bind (Lib.path_join [VStr dirPath; VStr file]) (fun filePath =>
           bind (Lib.stat filePath) (fun stats =>
           Ret (VObj [("name", VStr file);
                      ("path", VStr (Path.relative (cwd h) (App.FILES_DIR h) filePath));
                      ("isDirectory", VBool (isDirectory stats));
                      ("size", VNum (size stats));
                      ("modified", VDate (mtimeMs stats))])))) files)
         (fun fileDetails => Ret (json (VArr fileDetails)))))
      (App.catch_500 h)) t.
Proof.
  unfold listing_dir, App.serve, App.route, App.get_api_files. cbv zeta.
  destruct (truthy (prop (query req) "path")).
  - destruct (prop (query req) "path"); try discriminate.
    intros H. injection H as <-. unfold Lib.path_join at 1. cbn [Lib.strings_of bind].
    destruct (Str.startsWith _ _); reflexivity.
  - intros H. injection H as <-. cbn [bind].
    destruct (Str.startsWith _ _); reflexivity.
Qed.

Lemma listing_dir_absolute (req : request) (dirPath : string) :
  Str.first_is Str.slash (App.FILES_DIR h) = true ->
  listing_dir h req = Some dirPath ->
  Str.first_is Str.slash dirPath = true.
Proof.
  unfold listing_dir. cbv zeta. intros Habs.
  destruct (truthy (prop (query req) "path")) eqn:Ht.
  - destruct (prop (query req) "path"); try discriminate.
    intros H. injection H as <-. apply (key_join h); [exact Habs |].
    apply truthy_VStr. exact Ht.
  - intros H. injection H as <-. exact Habs.
Qed.

Lemma listing_of_directory (req : request) (t : tree) (dirPath : string) (k : list string) :
  Str.first_is Str.slash (App.FILES_DIR h) = true ->
  real_names t = true ->
  listing_dir h req = Some dirPath ->
  Str.startsWith dirPath (App.FILES_DIR h) = true ->
  Str.has_char Str.nul dirPath = false ->
  Fs.lookup_path h t dirPath = inr (k, Some Dir) ->
  App.serve h App.GET_api_files req t =
  (inr (json (VArr (List.map (listed h t k) (Fs.children t k)))), t).
Proof.
  intros Habs Hnames Hdir Hprefix Hnul Hlook.
  pose proof (listing_dir_absolute req dirPath Habs Hdir) as Habs'.
  rewrite (listing_run req t dirPath Hdir), Hprefix. cbn [negb].
  rewrite run_try_catch, run_bind. unfold Lib.readdir.
  rewrite run_validated, Hnul, run_await. cbn [Fs.exec]. rewrite Hlook.
  rewrite run_bind.
  rewrite (run_mapM _ (listed h t k)); [reflexivity |].
  intros f Hf. pose proof (children_names t k f Hnames Hf) as Hname.
  destruct (children_In t k f Hf) as [n Hn].
  unfold Lib.path_join. cbn [Lib.strings_of bind].
  rewrite run_bind, (stat_entry t dirPath f k n Habs' Hnul Hname Hlook Hn).
  rewrite relative_keys_spec.
  destruct (entry_path dirPath f Habs' Hnul Hname) as (Hkey & _).
  rewrite Hkey, <- (lookup_path_key h t dirPath k _ Hlook).
  unfold listed. cbv zeta. rewrite Hn. destruct n; reflexivity.
Qed.

(** A listing answers 200 only for a directory. *)
Lemma listing_success_inv (req : request) (t t' : tree) (r : response) :
  App.serve h App.GET_api_files req t = (inr r, t') ->
  status r = 200 ->
  exists dirPath k,
    listing_dir h req = Some dirPath /\
    Str.startsWith dirPath (App.FILES_DIR h) = true /\
    Str.has_char Str.nul dirPath = false /\
    Fs.lookup_path h t dirPath = inr (k, Some Dir).
Proof.
  intros Hrun Hok.
  destruct (listing_dir h req) as [dirPath |] eqn:Hdir.
  - rewrite (listing_run req t dirPath Hdir) in Hrun.
    destruct (Str.startsWith dirPath (App.FILES_DIR h)) eqn:Hprefix; cbn [negb] in Hrun;
      [| injection Hrun as <- <-; discriminate].
    rewrite run_try_catch, run_bind in Hrun. unfold Lib.readdir in Hrun.
    rewrite run_validated in Hrun.
    destruct (Str.has_char Str.nul dirPath) eqn:Hnul;
      [simpl in Hrun; injection Hrun as <- <-; discriminate |].
    rewrite run_await in Hrun. cbn [Fs.exec] in Hrun.
    destruct (Fs.lookup_path h t dirPath) as [e | [k [[c |] |]]] eqn:Hlook;
      try (simpl in Hrun; injection Hrun as <- <-; discriminate).
    exists dirPath, k. auto.
  - exfalso. unfold listing_dir in Hdir. cbv zeta in Hdir.
    destruct (truthy (prop (query req) "path")) eqn:Ht; [| discriminate].
    destruct (not_a_string_run h App.GET_api_files req t) as [Hbad _];
      [discriminate | exact Ht | |].
    + simpl. intros s Hs. rewrite Hs in Hdir. discriminate.
    + rewrite Hbad in Hrun. injection Hrun as <- <-. discriminate.
Qed.

End Listing.



(** X13: a listing is answered 200 only for a directory: whenever a
    listing request is answered 200, its path input was absent, empty or a
    string, the directory it names passed the prefix check and holds no
    null character, and a directory lies there; the tree is left as it
    was.  A path that leads to a file or to nothing is never listed. *)
Theorem listing_needs_a_directory (h : host) (req : request) (t t' : tree) (r : response) :
  App.serve h App.GET_api_files req t = (inr r, t') ->
  status r = 200 ->
  t' = t /\
  exists dirPath k,
    listing_dir h req = Some dirPath /\
    Str.startsWith dirPath (App.FILES_DIR h) = true /\
    Str.has_char Str.nul dirPath = false /\
    Fs.lookup_path h t dirPath = inr (k, Some Dir).
Proof.
  intros Hrun Hok. split.
  - pose proof (read_only_run h _ t (read_only_listing h req)) as [Hsame _].
    unfold App.serve, App.route in Hrun. rewrite Hrun in Hsame. exact Hsame.
  - eapply listing_success_inv; eassumption.
Qed.

Lemma listing_needs_a_directory_witness :
  (App.serve docker App.GET_api_files (with_query "") www).2 = www /\
  exists dirPath k,
    listing_dir docker (with_query "") = Some dirPath /\
    Str.startsWith dirPath (App.FILES_DIR docker) = true /\
    Str.has_char Str.nul dirPath = false /\
    Fs.lookup_path docker www dirPath = inr (k, Some Dir).
Proof.
  apply (listing_needs_a_directory docker (with_query "") www _
           (json (VArr (List.map (listed docker www ["var"; "www"; "html"])
                          (Fs.children www ["var"; "www"; "html"]))))).
  - apply pair_of_fst. vm_compute. reflexivity.
  - reflexivity.
Defined.

Section LeadingBack.

Variable h : host.

Lemma dropCommon_spec (a b up down : list string) :
  Path.dropCommon a b = (up, down) ->
  exists C, a = C ++ up /\ b = C ++ down.
Proof.
  revert b. induction a as [| x a IH]; intros b H.
  - injection H as <- <-. exists []. split; reflexivity.
  - destruct b as [| y b]; [injection H as <- <-; exists []; split; reflexivity |].
    simpl in H. destruct (String.eqb_spec x y) as [<- | _].
    + destruct (IH b H) as (C & -> & ->). exists (x :: C). split; reflexivity.
    + injection H as <- <-. exists []. split; reflexivity.
Qed.

(** As many [..] as there are names on top take them all off. *)
Lemma fold_up (U S R : list string) :
  Forall (fun s => proper s = true) S -> length U = length S ->
  fold_left (Path.normalizeStep false) (List.map (fun _ => "..") U) (S ++ R) = R.
Proof.
  revert S. induction U as [| u U IH]; intros S HS Hlen.
  - destruct S; [reflexivity | discriminate].
  - destruct S as [| x S]; [discriminate |]. inversion HS as [| ? ? Hx HS']; subst.
    cbn [List.map fold_left app]. unfold Path.normalizeStep at 2. cbn [String.eqb orb].
    change (String.eqb ".." "..") with true. cbv iota.
    assert (Hx' : String.eqb x ".." = false).
    { unfold proper in Hx. apply andb_true_iff in Hx as [Hx _].
      apply andb_true_iff in Hx as [_ Hx]. apply negb_true_iff, Hx. }
    rewrite Hx'. apply IH; [exact HS' | simpl in Hlen; congruence].
Qed.




(** The way from the root to a key, joined with the root again, is the
    normal form of that key. *)
Lemma relative_joins_back (root K : list string) :
  normal_root h root ->
  Forall (fun s => proper s = true) K ->
  relative_keys root K <> "" ->
  Path.join [App.FILES_DIR h; relative_keys root K] = "/" +:+ Str.join "/" K.
Proof.
  intros Hroot HK Hp.
  pose proof (normal_root_absolute h root Hroot) as Habs.
  unfold relative_keys in *.
  destruct (Path.dropCommon root K) as [up down] eqn:Hdrop.
  destruct (dropCommon_spec _ _ _ _ Hdrop) as (C & HC & HCK).
  pose proof (normal_root_Forall h root Hroot) as Hrootp.
  rewrite HC in Hrootp. apply Forall_app in Hrootp as [HCp Hupp].
  assert (Hdownp : Forall (fun s => proper s = true) down).
  { rewrite HCK in HK. apply Forall_app in HK as [_ HK]. exact HK. }
  set (l := List.map (fun _ : string => "..") up ++ down) in *.
  assert (Hne : l <> []) by (intros Hnil; rewrite Hnil in Hp; contradiction).
  assert (Hsegs : Forall (fun s => s <> "" /\ Str.has_char Str.slash s = false) l).
  { apply Forall_app. split.
    - apply List.Forall_forall. intros x Hx. apply in_map_iff in Hx as (? & <- & _).
      split; [discriminate | reflexivity].
    - eapply List.Forall_impl; [| exact Hdownp].
      intros x Hx. split; [apply proper_nonempty | apply proper_no_slash]; exact Hx. }
  assert (Hsame : Fs.key h (Path.join [App.FILES_DIR h; Str.join "/" l]) = K).
  { destruct (key_join h (App.FILES_DIR h) _ Habs Hp) as [_ ->].
    rewrite (normal_root_key h root Hroot).
    rewrite split_join
      by (first [exact Hne
                | eapply List.Forall_impl; [| exact Hsegs]; intros x [_ Hx]; exact Hx]).
    subst l. rewrite HC, rev_app_distr, fold_left_app.
    rewrite fold_up by (try apply Forall_rev; try exact Hupp; rewrite length_rev; reflexivity).
    rewrite fold_normalizeStep_push by exact Hdownp.
    rewrite <- rev_app_distr, rev_involutive. symmetry. exact HCK. }
  rewrite (join_shape h _ _ Habs Hp), Hsame.
  destruct K as [| x K']; [reflexivity |].
  rewrite (last_is_app _ (App.FILES_DIR h)) by discriminate.
  rewrite (last_is_app _ "/") by exact Hp.
  assert (Hl : Str.last_is Str.slash (Str.join "/" l) = false).
  { destruct (exists_last Hne) as (l0 & z & Hlz). rewrite Hlz.
    rewrite Hlz in Hsegs. apply Forall_app in Hsegs as [_ Hz].
    inversion Hz as [| ? ? [Hz1 Hz2] _]; subst.
    apply last_is_join; assumption. }
  rewrite Hl, append_empty_r. reflexivity.
Qed.



End LeadingBack.



(** ** Requests one after the other *)

Section Sequences.

Variable h : host.

Lemma fold_skip (segs acc : list string) :
  forallb (fun seg => String.eqb seg "" || String.eqb seg ".") segs = true ->
  fold_left (Path.normalizeStep false) segs acc = acc.
Proof.
  revert acc. induction segs as [| seg segs IH]; intros acc H; [reflexivity |].
  cbn [forallb] in H. apply andb_true_iff in H as [Hseg H].
  cbn [fold_left]. unfold Path.normalizeStep at 2. rewrite Hseg. apply IH. exact H.
Qed.

(** A path made of [.] and slashes only joins to the root. *)
Lemma names_root_join (root : list string) (s : string) :
  normal_root h root -> s <> "" -> names_root s = true ->
  Fs.key h (Path.join [App.FILES_DIR h; s]) = root /\
  exists tr, (tr = "" \/ tr = "/") /\ Path.join [App.FILES_DIR h; s] = App.FILES_DIR h +:+ tr.
Proof.
  intros Hroot Hs Hnames.
  pose proof (normal_root_absolute h root Hroot) as Habs.
  assert (Hkey : Fs.key h (Path.join [App.FILES_DIR h; s]) = root).
  { destruct (key_join h _ s Habs Hs) as [_ ->].
    rewrite fold_skip by exact Hnames.
    rewrite rev_involutive. apply normal_root_key. exact Hroot. }
  split; [exact Hkey |].
  rewrite (join_shape h _ s Habs Hs), Hkey.
  destruct Hroot as (HF & Hne & _).
  destruct root as [| x root]; [contradiction |].
  set (tr := if Str.last_is Str.slash (App.FILES_DIR h +:+ "/" +:+ s) then "/" else "").
  exists tr. split; [subst tr; destruct (Str.last_is _ _); auto |].
  rewrite HF, append_assoc. reflexivity.
Qed.

(** Two paths with the same key lead to the same directory. *)
Lemma lookup_same_key (t : tree) (p p' : string) (k : list string) :
  Fs.lookup_path h t p = inr (k, Some Dir) ->
  Fs.key h p' = Fs.key h p -> p' <> "" ->
  Fs.lookup_path h t p' = inr (k, Some Dir).
Proof.
  intros Hlook Hkey Hp'.
  pose proof (lookup_path_key h t p k _ Hlook) as Hk.
  pose proof (lookup_path_node h t p k _ Hlook) as Hnode.
  pose proof (proj2 (blocked_none t (Fs.ancestors k)) (lookup_path_ancestors h t p k _ Hlook))
    as Hb.
  unfold Fs.lookup_path.
  destruct (String.eqb_spec p' "") as [He | _]; [contradiction |].
  rewrite Hkey, <- Hk, Hb, Hnode. reflexivity.
Qed.

(** A listing of a directory that is not there. *)
Lemma listing_of_missing (req : request) (t : tree) (dirPath : string) :
  listing_dir h req = Some dirPath ->
  Str.startsWith dirPath (App.FILES_DIR h) = true ->
  Str.has_char Str.nul dirPath = false ->
  Fs.missing h t dirPath = true ->
  App.serve h App.GET_api_files req t = (inr (no_entry_response h "scandir" dirPath), t).
Proof.
  intros Hdir Hprefix Hnul Hmissing.
  rewrite (listing_run h req t dirPath Hdir), Hprefix. cbn [negb].
  rewrite run_try_catch, run_bind. unfold Lib.readdir.
  rewrite run_validated, Hnul, run_await. cbn [Fs.exec].
  unfold Fs.missing in Hmissing.
  destruct (Fs.lookup_path h t dirPath) as [[] | [k [n |]]]; try discriminate; reflexivity.
Qed.

Lemma delete_of_root (root : list string) (req : request) (t : tree) (s : string) :
  normal_root h root ->
  Str.has_char Str.nul (App.FILES_DIR h) = false ->
  prop (query req) "path" = VStr s ->
  s <> "" -> names_root s = true ->
  Fs.lookup_path h t (App.FILES_DIR h) = inr (root, Some Dir) ->
  App.serve h App.DELETE_api_files req t =
  (inr (json (VObj [("success", VBool true)])), Fs.prune t root).
Proof.
  intros Hroot Hnul Hq Hs Hnames Hlook.
  destruct (names_root_join root s Hroot Hs Hnames) as (Hkey & tr & Htr & Hjoin).
  assert (Hprefix : Str.startsWith (Path.join [App.FILES_DIR h; s]) (App.FILES_DIR h) = true)
    by (rewrite Hjoin; apply startsWith_app).
  assert (Hnul' : Str.has_char Str.nul (Path.join [App.FILES_DIR h; s]) = false).
  { rewrite Hjoin, has_char_app, Hnul. destruct Htr as [-> | ->]; reflexivity. }
  rewrite (delete_run h req t s Hq Hs Hprefix Hnul'). cbn [Fs.exec].
  rewrite (lookup_same_key t (App.FILES_DIR h) _ root Hlook);
    [reflexivity | | apply join_nonempty].
  rewrite Hkey. symmetry. apply normal_root_key. exact Hroot.
Qed.

End Sequences.

(** X15: nothing protects the root itself.  When the root is an
    absolute path in normal form and a directory lies there, a delete
    request whose path is made of [.] and slashes only (such as [.] or
    [./]) passes the prefix check and is answered 200: the root directory
    and everything below it are gone, everything else is left as it was,
    and from then on a listing request without a path is answered 500 with
    the [ENOENT] of the failed [readdir]. *)
Theorem delete_can_remove_the_root (h : host) (root : list string) (req next : request)
    (t : tree) (s : string) :
  normal_root h root ->
  Str.has_char Str.nul (App.FILES_DIR h) = false ->
  prop (query req) "path" = VStr s ->
  s <> "" -> names_root s = true ->
  Fs.lookup_path h t (App.FILES_DIR h) = inr (root, Some Dir) ->
  truthy (prop (query next) "path") = false ->
  exists t',
    App.serve h App.DELETE_api_files req t = (inr (json (VObj [("success", VBool true)])), t') /\
    (forall k, t' !! k = if Fs.is_under root k then None else t !! k) /\
    App.serve h App.GET_api_files next t' =
    (inr (no_entry_response h "scandir" (App.FILES_DIR h)), t').
Proof.
  intros Hroot Hnul Hq Hs Hnames Hlook Hnext.
  exists (Fs.prune t root). split; [| split].
  - eapply delete_of_root; eassumption.
  - intros k. apply lookup_prune.
  - apply listing_of_missing.
    + unfold listing_dir. cbv zeta. rewrite Hnext. reflexivity.
    + apply startsWith_refl.
    + exact Hnul.
    + eapply missing_after_prune; [exact Hlook |]. destruct Hroot as (_ & Hne & _). exact Hne.
Qed.

Lemma delete_can_remove_the_root_witness :
  exists t',
    App.serve docker App.DELETE_api_files (with_query "./") www =
    (inr (json (VObj [("success", VBool true)])), t') /\
    (forall k, t' !! k = if Fs.is_under ["var"; "www"; "html"] k then None else www !! k) /\
    App.serve docker App.GET_api_files (with_query "") t' =
    (inr (no_entry_response docker "scandir" (App.FILES_DIR docker)), t').
Proof.
  apply (delete_can_remove_the_root docker ["var"; "www"; "html"] (with_query "./")
           (with_query "") www "./").
  - exact docker_root.
  - reflexivity.
  - reflexivity.
  - discriminate.
  - reflexivity.
  - vm_compute. reflexivity.
  - reflexivity.
Defined.

Section AfterWriting.

Variable h : host.






Lemma real_names_intro (t : tree) :
  (forall k n, t !! k = Some n -> Forall (fun s => entry_name s = true) k) ->
  real_names t = true.
Proof.
  intros H. unfold real_names. apply List.forallb_forall. intros [k n] Hk.
  apply list_elem_of_In, elem_of_map_to_list in Hk. simpl.
  apply List.forallb_forall. apply List.Forall_forall. eapply H. exact Hk.
Qed.







End AfterWriting.



Section AfterDeleting.

Variable h : host.

Lemma prune_keeps_names (t : tree) (k : list string) :
  real_names t = true -> real_names (Fs.prune t k) = true.
Proof.
  intros Hnames. apply real_names_intro. intros a n Ha.
  rewrite lookup_prune in Ha. destruct (Fs.is_under k a); [discriminate |].
  eapply real_names_lookup; eassumption.
Qed.

(** After a delete that answered 200 nothing lies at its target, as
    seen from a directory that can be listed. *)
Lemma deleted_entry_gone (req : request) (t t' : tree) (r : response)
    (s dirPath name : string) (k : list string) :
  prop (query req) "path" = VStr s ->
  App.serve h App.DELETE_api_files req t = (inr r, t') ->
  status r = 200 ->
  Fs.key h (Path.join [App.FILES_DIR h; s]) = k ++ [name] ->
  Fs.lookup_path h t' dirPath = inr (k, Some Dir) ->
  t' !! (k ++ [name]) = None /\ (real_names t = true -> real_names t' = true).
Proof.
  intros Hq Hrun Hok Hkey Hlook.
  destruct (delete_success_inv h req t t' s r Hq Hrun Hok)
    as (_ & _ & _ & [[Hmissing ->] | (k0 & n & Hlook0 & ->)]).
  - split; [| exact id].
    unfold Fs.missing, Fs.lookup_path in Hmissing.
    destruct (String.eqb_spec (Path.join [App.FILES_DIR h; s]) "") as [He | _];
      [exfalso; exact (join_nonempty _ He) |].
    rewrite Hkey, ancestors_snoc in Hmissing.
    rewrite (proj2 (blocked_none t (Fs.ancestors k ++ [k]))) in Hmissing.
    + assert (Hnode : Fs.node_at t (k ++ [name]) = t !! (k ++ [name]))
        by (destruct k; reflexivity).
      rewrite Hnode in Hmissing.
      destruct (t !! (k ++ [name])) as [[c |] |]; try discriminate; [| reflexivity].
      destruct (Str.last_is _ _); discriminate.
    + intros a Ha. apply in_app_or in Ha as [Ha | [<- | []]].
      * eapply lookup_path_ancestors; eassumption.
      * eapply lookup_path_node; eassumption.
  - split; [| apply prune_keeps_names].
    pose proof (lookup_path_key h t _ k0 _ Hlook0) as Hk0. rewrite Hkey in Hk0. subst k0.
    rewrite lookup_prune, is_under_refl. reflexivity.
Qed.

End AfterDeleting.

(** X17: what was deleted is no longer listed.  When the root is an
    absolute path and the tree holds names only, after a delete request
    that answered 200, a listing of the directory in which the deleted path
    lay, if it is answered 200, holds no object with the name of the
    deleted entry. *)
Theorem deleted_entry_is_not_listed (h : host) (req next : request) (t t' t'' : tree)
    (r r' : response) (s dirPath name : string) :
  Str.first_is Str.slash (App.FILES_DIR h) = true ->
  real_names t = true ->
  prop (query req) "path" = VStr s ->
  App.serve h App.DELETE_api_files req t = (inr r, t') ->
  status r = 200 ->
  listing_dir h next = Some dirPath ->
  Fs.key h (Path.join [App.FILES_DIR h; s]) = Fs.key h dirPath ++ [name] ->
  App.serve h App.GET_api_files next t' = (inr r', t'') ->
  status r' = 200 ->
  exists l : list jsval,
    sent r' = VArr l /\ forall e, In e l -> prop e "name" <> VStr name.
Proof.
  intros Habs Hnames Hq Hrun Hok Hdir Hkey Hrun' Hok'.
  destruct (listing_success_inv h next t' t'' r' Hrun' Hok')
    as (dirPath' & k & Hdir' & Hprefix & Hnul & Hlook).
  rewrite Hdir in Hdir'. injection Hdir' as <-.
  pose proof (lookup_path_key h t' dirPath k _ Hlook) as Hk. rewrite <- Hk in Hkey.
  destruct (deleted_entry_gone h req t t' r s dirPath name k Hq Hrun Hok Hkey Hlook)
    as [Hgone Hkeep].
  rewrite (listing_of_directory h next t' dirPath k Habs (Hkeep Hnames) Hdir Hprefix Hnul Hlook)
    in Hrun'.
  injection Hrun' as <- _.
  exists (List.map (listed h t' k) (Fs.children t' k)). split; [reflexivity |].
  intros e He. apply in_map_iff in He as (f & <- & Hf).
  change (prop (listed h t' k f) "name") with (VStr f). intros Heq. injection Heq as ->.
  apply children_In in Hf as [n Hn]. congruence.
Qed.

Lemma deleted_entry_is_not_listed_witness :
  exists l : list jsval,
    sent (json (VArr [])) = VArr l /\ forall e, In e l -> prop e "name" <> VStr "index.html".
Proof.
  apply (deleted_entry_is_not_listed docker (with_query "index.html") (with_query "") www
           (App.serve docker App.DELETE_api_files (with_query "index.html") www).2
           (App.serve docker App.GET_api_files (with_query "")
              (App.serve docker App.DELETE_api_files (with_query "index.html") www).2).2
           (json (VObj [("success", VBool true)])) (json (VArr []))
           "index.html" "/var/www/html" "index.html").
  - reflexivity.
  - vm_compute. reflexivity.
  - reflexivity.
  - apply pair_of_fst. vm_compute. reflexivity.
  - reflexivity.
  - reflexivity.
  - reflexivity.
  - apply pair_of_fst. vm_compute. reflexivity.
  - reflexivity.
Defined.


(** ** The path an upload reports *)

Section UploadPath.

Variable h : host.

Lemma normalizeStep_segments (b : bool) (res : list string) (seg : string) :
  Forall (fun s => s <> "" /\ Str.has_char Str.slash s = false) res ->
  Str.has_char Str.slash seg = false ->
  Forall (fun s => s <> "" /\ Str.has_char Str.slash s = false)
    (Path.normalizeStep b res seg).
Proof.
  intros Hres Hseg. unfold Path.normalizeStep.
  destruct (String.eqb_spec seg "") as [-> | Hne]; [exact Hres |]. cbn [orb].
  destruct (String.eqb seg "."); [exact Hres |].
  destruct (String.eqb seg "..").
  - destruct res as [| last rest].
    + destruct b; [| constructor]. repeat constructor. discriminate.
    + destruct (String.eqb last "..").
      * destruct b; [| exact Hres]. constructor; [| exact Hres]. split; [discriminate | reflexivity].
      * inversion Hres; assumption.
  - constructor; [split; assumption | exact Hres].
Qed.

Lemma normalizeSegments_segments (b : bool) (p : string) :
  Forall (fun s => s <> "" /\ Str.has_char Str.slash s = false) (Path.normalizeSegments b p).
Proof.
  unfold Path.normalizeSegments. apply Forall_rev.
  assert (H : forall segs acc,
             Forall (fun s => Str.has_char Str.slash s = false) segs ->
             Forall (fun s => s <> "" /\ Str.has_char Str.slash s = false) acc ->
             Forall (fun s => s <> "" /\ Str.has_char Str.slash s = false)
               (fold_left (Path.normalizeStep b) segs acc)).
  { intros segs acc Hsegs. revert acc.
    induction Hsegs as [| seg segs Hseg _ IH]; intros acc Hacc; [exact Hacc |].
    apply IH. apply normalizeStep_segments; assumption. }
  apply H; [apply split_segments | constructor].
Qed.

Lemma first_is_has_char (c : ascii) (s : string) :
  Str.has_char c s = false -> Str.first_is c s = false.
Proof.
  destruct s as [| d s]; [reflexivity |]. simpl. intros H.
  apply orb_false_iff in H as [H _]. exact H.
Qed.

(** Normalising keeps a relative path relative. *)
Lemma normalize_relative (q : string) :
  Str.first_is Str.slash q = false -> Str.first_is Str.slash (Path.normalize q) = false.
Proof.
  intros Hrel. unfold Path.normalize.
  destruct (String.eqb q ""); [reflexivity |]. rewrite Hrel. cbn [negb].
  unfold Path.normalizeString.
  pose proof (normalizeSegments_segments true q) as Hsegs.
  destruct (Path.normalizeSegments true q) as [| x N].
  - cbn [Str.join]. change (String.eqb "" "") with true. cbv iota.
    destruct (Str.last_is Str.slash q); reflexivity.
  - inversion Hsegs as [| ? ? [Hx Hslash] _]; subst.
    assert (Hfirst : forall rest, Str.first_is Str.slash (Str.join "/" (x :: N) +:+ rest) = false).
    { intros rest. destruct x as [| c x]; [contradiction |].
      simpl in Hslash. apply orb_false_iff in Hslash as [Hc _].
      destruct N; exact Hc. }
    destruct (String.eqb (Str.join "/" (x :: N)) "").
    + destruct (Str.last_is Str.slash q); reflexivity.
    + destruct (Str.last_is Str.slash q); [apply Hfirst |].
      rewrite <- (append_empty_r (Str.join "/" (x :: N))). apply Hfirst.
Qed.

(** An absolute join without a trailing slash is the normal form of
    its key. *)
Lemma join_absolute_shape (args : list string) :
  Str.first_is Str.slash (Path.join args) = true ->
  Str.last_is Str.slash (Path.join args) = false ->
  Path.join args = "/" +:+ Str.join "/" (Fs.key h (Path.join args)).
Proof.
  intros Habs Hlast. rewrite (key_absolute h _ Habs).
  revert Habs Hlast. unfold Path.join.
  destruct (filter _ args) as [| a parts]; [intros Habs; discriminate Habs |].
  set (q := Str.join "/" (a :: parts)). intros Habs Hlast.
  assert (Hq : Str.first_is Str.slash q = true).
  { destruct (Str.first_is Str.slash q) eqn:Hq; [reflexivity |].
    rewrite (normalize_relative q Hq) in Habs. discriminate. }
  rewrite (normalizeSegments_normalize q Hq).
  rewrite (normalize_absolute q Hq) in Hlast |- *.
  destruct (Path.normalizeSegments false q) as [| x N]; [discriminate |].
  destruct (Str.last_is Str.slash q); [| rewrite append_empty_r; reflexivity].
  exfalso. rewrite <- append_assoc, last_is_app in Hlast by discriminate. discriminate.
Qed.

Lemma startsWith_first_is (c : ascii) (a b : string) :
  Str.startsWith a b = true -> Str.first_is c b = true -> Str.first_is c a = true.
Proof.
  destruct b as [| x b]; [discriminate |]. destruct a as [| y a]; [discriminate |].
  simpl. intros H Hx. apply andb_true_iff in H as [H _].
  apply Ascii.eqb_eq in H as <-. exact Hx.
Qed.

Lemma lookup_file_no_slash (t : tree) (p : string) (k : list string) (c : string) :
  Fs.lookup_path h t p = inr (k, Some (File c)) -> Str.last_is Str.slash p = false.
Proof.
  unfold Fs.lookup_path. destruct (String.eqb p ""); [discriminate |].
  destruct (Fs.blocked _ _); [discriminate |].
  destruct (Fs.node_at _ _) as [[c0 |] |]; try discriminate.
  destruct (Str.last_is Str.slash p); [discriminate | reflexivity].
Qed.

(** A content request for a path that leads to a file. *)
Lemma content_of_file (req : request) (t : tree) (p c : string) (k : list string) :
  prop (query req) "path" = VStr p ->
  p <> "" ->
  Str.startsWith (Path.join [App.FILES_DIR h; p]) (App.FILES_DIR h) = true ->
  Str.has_char Str.nul (Path.join [App.FILES_DIR h; p]) = false ->
  Fs.lookup_path h t (Path.join [App.FILES_DIR h; p]) = inr (k, Some (File c)) ->
  App.serve h App.GET_api_files_content req t =
  (inr (json (VObj [("content", VStr (Utf8.decode c))])), t).
Proof.
  intros Hq Hp Hprefix Hnul Hlook.
  unfold App.serve, App.route, App.get_api_files_content.
  rewrite run_try_catch, Hq.
  apply truthy_VStr in Hp. rewrite Hp. cbn [negb].
  rewrite run_bind. unfold Lib.path_join. cbn [Lib.strings_of run].
  rewrite Hprefix. cbn [negb].
  rewrite run_bind. unfold Lib.stat. rewrite run_validated, Hnul, run_await. cbn [Fs.exec].
  unfold Fs.stat_as. rewrite Hlook. cbn [Fs.stats_of isDirectory].
  rewrite run_bind, run_readFile, Hnul. cbn [Fs.exec]. rewrite Hlook. reflexivity.
Qed.

(** [move] asks for a destination without a null character. *)
Lemma move_null_bytes (src dest : string) (t : tree) :
  Str.has_char Str.nul dest = true ->
  exists e t', run h (Lib.move h src dest true) t = (inl e, t').
Proof.
  intros Hnul. unfold Lib.move. cbv zeta. rewrite run_bind.
  destruct (run h (Lib.validated src (await (Lstat src))) t) as [[e | st] t0]; [eauto |].
  rewrite run_bind, run_validated, Hnul. eauto.
Qed.

Lemma upload_success_inv (req : request) (t t' : tree) (r : response) :
  App.serve h App.POST_api_upload req t = (inr r, t') ->
  status r = 200 ->
  exists f d,
    file req = Some f /\
    js_or (prop (body req) "path") (VStr "") = VStr d /\
    Str.has_char Str.nul (Path.join [App.FILES_DIR h; d; originalname f]) = false.
Proof.
  intros Hrun Hok.
  unfold App.serve, App.route, App.post_api_upload in Hrun.
  destruct (file req) as [f |]; [| simpl in Hrun; injection Hrun as <- <-; discriminate].
  cbv zeta in Hrun. unfold Lib.path_join in Hrun.
  destruct (js_or (prop (body req) "path") (VStr "")) as [| | b | n | d | dt | l | fs] eqn:Hd;
    try (simpl in Hrun; injection Hrun as <- <-; discriminate).
  exists f, d. split; [reflexivity |]. split; [reflexivity |].
  cbn [Lib.strings_of bind] in Hrun.
  destruct (Str.startsWith _ _); cbn [negb] in Hrun;
    [| simpl in Hrun; injection Hrun as <- <-; discriminate].
  rewrite run_try_catch, run_bind in Hrun.
  destruct (run h (Lib.ensureDir _) t) as [[e | []] t0];
    [simpl in Hrun; injection Hrun as <- <-; discriminate |].
  rewrite run_bind in Hrun.
  destruct (Str.has_char Str.nul (Path.join [App.FILES_DIR h; d; originalname f])) eqn:Hnul;
    [| reflexivity].
  destruct (move_null_bytes (upload_path f) _ t0 Hnul) as (e & t1 & Hmove).
  rewrite Hmove in Hrun. simpl in Hrun. injection Hrun as <- <-. discriminate.
Qed.

End UploadPath.

(** X18: the path an upload reports leads to the upload.  When the root
    is an absolute path in normal form, the [path] in the response of an
    upload that answered 200 (the way from the root to the target), when
    it is not empty, can be sent as the path of a content request, which is
    then answered 200 with the bytes of the uploaded file decoded as UTF-8,
    where U+FFFD stands for what is not UTF-8. *)
Theorem upload_path_leads_back (h : host) (root : list string) (req next : request)
    (t t' : tree) (r : response) (f : upload) (ks : list string) (c p : string) :
  normal_root h root ->
  file req = Some f ->
  Fs.lookup_path h t (upload_path f) = inr (ks, Some (File c)) ->
  App.serve h App.POST_api_upload req t = (inr r, t') ->
  status r = 200 ->
  prop (sent r) "path" = VStr p ->
  p <> "" ->
  prop (query next) "path" = VStr p ->
  App.serve h App.GET_api_files_content next t' =
  (inr (json (VObj [("content", VStr (Utf8.decode c))])), t').
Proof.
  intros Hroot Hf Hsrc Hrun Hok Hpath Hp Hnext.
  pose proof (normal_root_absolute h root Hroot) as Habs.
  destruct (upload_success_inv h req t t' r Hrun Hok) as (f0 & d0 & Hf0 & Hd0 & Hnul).
  rewrite Hf in Hf0. injection Hf0 as <-.
  destruct (upload_outcome h req t t' r f ks c Hf Hsrc Hrun)
    as [[Hbad _] | (d & Hd & Hprefix & -> & _ & Hdest)]; [contradiction |].
  rewrite Hd0 in Hd. injection Hd as <-.
  set (targetPath := Path.join [App.FILES_DIR h; d0; originalname f]) in *.
  assert (Htarget : targetPath = "/" +:+ Str.join "/" (Fs.key h targetPath)).
  { apply join_absolute_shape.
    - eapply startsWith_first_is; eassumption.
    - eapply lookup_file_no_slash. exact Hdest. }
  assert (Hrel : p = relative_keys root (Fs.key h targetPath)).
  { simpl in Hpath. injection Hpath as <-. rewrite relative_keys_spec.
    rewrite (normal_root_key h root Hroot). reflexivity. }
  assert (Hjoin : Path.join [App.FILES_DIR h; p] = targetPath).
  { rewrite Htarget, Hrel. apply relative_joins_back; [exact Hroot | | rewrite <- Hrel; exact Hp].
    rewrite (key_absolute h targetPath) by (eapply startsWith_first_is; eassumption).
    apply normalizeSegments_proper. }
  apply (content_of_file h next t' p c (Fs.key h targetPath) Hnext Hp); rewrite Hjoin; assumption.
Qed.

Lemma upload_path_leads_back_witness :
  App.serve docker App.GET_api_files_content (with_query "img/pic.png")
    (App.serve docker App.POST_api_upload (upload_to "img") www_uploading_png).2 =
  (inr (json (VObj [("content", VStr (Utf8.replacement +:+ "PNG"))])),
   (App.serve docker App.POST_api_upload (upload_to "img") www_uploading_png).2).
Proof.
  apply (upload_path_leads_back docker ["var"; "www"; "html"] (upload_to "img")
           (with_query "img/pic.png") www_uploading_png _
           (json (VObj [("success", VBool true); ("path", VStr "img/pic.png")]))
           stored_upload stored_key png_signature "img/pic.png").
  - exact docker_root.
  - reflexivity.
  - vm_compute. reflexivity.
  - apply pair_of_fst. vm_compute. reflexivity.
  - reflexivity.
  - reflexivity.
  - discriminate.
  - reflexivity.
Defined.


(** ** The URLs of the client *)

Section ClientUrls.

Lemma hex_round_trip (c : ascii) :
  match Url.hex_value (Client.hex_digit (nat_of_ascii c / 16)),
        Url.hex_value (Client.hex_digit (nat_of_ascii c mod 16)) with
  | Some x, Some y => Some (ascii_of_nat (16 * x + y))
  | _, _ => None
  end = Some c.
Proof. destruct c as [[] [] [] [] [] [] [] []]; vm_compute; reflexivity. Qed.

Lemma percent_decode_escape (a b : ascii) (rest : string) :
  Url.percent_decode (String "%" (String a (String b rest))) =
  match Url.hex_value a, Url.hex_value b, Url.percent_decode rest with
  | Some x, Some y, Some r => Some (String (ascii_of_nat (16 * x + y)) r)
  | _, _, _ => None
  end.
Proof. reflexivity. Qed.

Lemma escape_decodes (c : ascii) (rest r : string) :
  Url.percent_decode rest = Some r ->
  Url.percent_decode (Client.escape c +:+ rest) = Some (String c r).
Proof.
  intros Hrest.
  change (Client.escape c +:+ rest)
    with (String "%" (String (Client.hex_digit (nat_of_ascii c / 16))
                        (String (Client.hex_digit (nat_of_ascii c mod 16)) rest))).
  rewrite percent_decode_escape, Hrest.
  pose proof (hex_round_trip c) as H.
  destruct (Url.hex_value (Client.hex_digit (nat_of_ascii c / 16))) as [x |]; [| discriminate].
  destruct (Url.hex_value (Client.hex_digit (nat_of_ascii c mod 16))) as [y |]; [| discriminate].
  exact (f_equal (option_map (fun a => String a r)) H).
Qed.

Lemma unreserved_not_percent (c : ascii) : Client.unreserved c = true -> Ascii.eqb c "%" = false.
Proof.
  destruct (Ascii.eqb_spec c "%") as [-> | _]; [discriminate | reflexivity].
Qed.

(** Percent-decoding undoes [encodeURIComponent]. *)
Lemma decode_encode (s : string) :
  Url.percent_decode (Client.encodeURIComponent s) = Some s.
Proof.
  induction s as [| c s IH]; [reflexivity |].
  cbn [Client.encodeURIComponent]. destruct (Client.unreserved c) eqn:Hc.
  - change (String c "" +:+ Client.encodeURIComponent s)
      with (String c (Client.encodeURIComponent s)).
    cbn [Url.percent_decode]. rewrite (unreserved_not_percent c Hc), IH. reflexivity.
  - apply escape_decodes. exact IH.
Qed.

(** What [encodeURIComponent] gives holds no delimiter. *)
Lemma escape_chars (c d : ascii) :
  Url.delimiter d = true -> Str.has_char d (Client.escape c) = false.
Proof.
  unfold Url.delimiter. intros Hd.
  assert (Hcases : d = "?"%char \/ d = "#"%char \/ d = "&"%char \/ d = "="%char \/
                   d = "+"%char \/ d = "/"%char \/ d = " "%char).
  { simpl in Hd. repeat (apply orb_true_iff in Hd as [Hd | Hd];
      [apply Ascii.eqb_eq in Hd; subst; auto 10 |]). discriminate. }
  destruct c as [[] [] [] [] [] [] [] []];
    destruct Hcases as [-> | [-> | [-> | [-> | [-> | [-> | ->]]]]]]; reflexivity.
Qed.

Lemma unreserved_not_delimiter (c d : ascii) :
  Url.delimiter d = true -> Client.unreserved c = true -> Ascii.eqb d c = false.
Proof.
  intros Hd Hc. destruct (Ascii.eqb_spec d c) as [<- | _]; [| reflexivity].
  exfalso. unfold Url.delimiter in Hd. simpl in Hd.
  repeat (apply orb_true_iff in Hd as [Hd | Hd];
    [apply Ascii.eqb_eq in Hd; subst; discriminate |]). discriminate.
Qed.

Lemma encode_chars (d : ascii) (s : string) :
  Url.delimiter d = true -> Str.has_char d (Client.encodeURIComponent s) = false.
Proof.
  intros Hd. induction s as [| c s IH]; [reflexivity |].
  cbn [Client.encodeURIComponent]. rewrite has_char_app, IH, orb_false_r.
  destruct (Client.unreserved c) eqn:Hc; [| apply escape_chars; exact Hd].
  cbn [Str.has_char]. rewrite (unreserved_not_delimiter c d Hd Hc). reflexivity.
Qed.

Lemma before_no_char (c : ascii) (s : string) :
  Str.has_char c s = false -> Url.before c s = s.
Proof.
  induction s as [| d s IH]; [reflexivity |]. simpl. intros H.
  apply orb_false_iff in H as [Hd Hs]. rewrite Ascii.eqb_sym, Hd, (IH Hs). reflexivity.
Qed.

Lemma path_parameter (v : string) :
  Str.has_char "&" v = false ->
  Url.parameters ("path=" +:+ v) = [("path", v)].
Proof.
  intros Hv. unfold Url.parameters.
  rewrite (split_no_sep "&" ("path=" +:+ v)) by (rewrite has_char_app, Hv; reflexivity).
  reflexivity.
Qed.

Lemma client_query (prefix v : string) :
  Str.has_char "?" prefix = false ->
  Str.has_char "#" v = false ->
  Url.query (prefix +:+ "?" +:+ v) = Some v.
Proof.
  intros Hprefix Hv. unfold Url.query.
  assert (Hafter : Url.after "?" (prefix +:+ "?" +:+ v) = Some v).
  { induction prefix as [| c prefix IH]; [reflexivity |].
    cbn [Str.has_char] in Hprefix. apply orb_false_iff in Hprefix as [Hc Hprefix].
    change (Url.after "?" (String c (prefix +:+ "?" +:+ v)) = Some v).
    cbn [Url.after]. rewrite Ascii.eqb_sym, Hc. apply IH. exact Hprefix. }
  rewrite Hafter, before_no_char by exact Hv. reflexivity.
Qed.

End ClientUrls.

(** X19: the URLs of the client carry the path as one parameter.  The
    URL that [getFiles], [getFileContent] and [deleteFile] hand to [fetch]
    has a query with the single parameter [path], and percent-decoding its
    value gives back the argument, whatever characters the argument holds:
    no [&], [=], [#], [?] or [+] of the argument reaches the URL
    unescaped. *)
Theorem client_urls_carry_the_path (arg : string) :
  Forall (fun url =>
            exists q v,
              Url.query url = Some q /\
              Url.parameters q = [("path", v)] /\
              Url.percent_decode v = Some arg /\
              forall d, Url.delimiter d = true -> Str.has_char d v = false)
         [Client.getFiles_url arg; Client.getFileContent_url arg; Client.deleteFile_url arg].
Proof.
  assert (H : forall prefix,
             Str.has_char "?" prefix = false ->
             exists q v,
               Url.query (prefix +:+ "?path=" +:+ Client.encodeURIComponent arg) = Some q /\
               Url.parameters q = [("path", v)] /\
               Url.percent_decode v = Some arg /\
               forall d, Url.delimiter d = true -> Str.has_char d v = false).
  { intros prefix Hprefix.
    exists ("path=" +:+ Client.encodeURIComponent arg), (Client.encodeURIComponent arg).
    split; [| split; [| split]].
    - apply (client_query prefix ("path=" +:+ Client.encodeURIComponent arg) Hprefix).
      rewrite has_char_app, encode_chars by reflexivity. reflexivity.
    - apply path_parameter. apply encode_chars. reflexivity.
    - apply decode_encode.
    - intros d Hd. apply encode_chars. exact Hd. }
  repeat constructor.
  - apply (H (Client.API_URL +:+ "/files")). reflexivity.
  - apply (H (Client.API_URL +:+ "/files/content")). reflexivity.
  - apply (H (Client.API_URL +:+ "/files")). reflexivity.
Qed.


(** ** When an upload is refused *)

Section UploadRefused.

Variable h : host.

Lemma upload_cases (req : request) (t t' : tree) (r : response) :
  App.serve h App.POST_api_upload req t = (inr r, t') ->
  (status r = 403 /\ t' = t /\ trace h (App.post_api_upload h req) t = [] /\
   upload_outside_prefix h req) \/
  (status r <> 403 /\ ~ upload_outside_prefix h req).
Proof.
  intros Hrun. unfold App.serve, App.route in Hrun. revert Hrun.
  unfold upload_outside_prefix, App.post_api_upload.
  destruct (file req) as [f |].
  2: { intros Hrun. simpl in Hrun. injection Hrun as <- <-. right.
       split; [discriminate |]. intros (f & d & Hf & _). discriminate. }
  cbv zeta. unfold Lib.path_join.
  destruct (js_or (prop (body req) "path") (VStr "")) as [| | b | n | d | dt | l | fs] eqn:Hd;
    try (intros Hrun; simpl in Hrun; injection Hrun as <- <-; right;
         split; [discriminate |]; intros (f0 & d0 & _ & Hd0 & _); discriminate).
  cbn [Lib.strings_of bind].
  destruct (Str.startsWith _ _) eqn:Hprefix; cbn [negb].
  - intros Hrun. right. split.
    + rewrite run_try_catch, run_bind in Hrun.
      destruct (run h (Lib.ensureDir _) t) as [[e | []] t0];
        [simpl in Hrun; injection Hrun as <- <-; discriminate |].
      rewrite run_bind in Hrun.
      destruct (run h (Lib.move h _ _ true) t0) as [[e | []] t1];
        simpl in Hrun; injection Hrun as <- <-; discriminate.
    + intros (f0 & d0 & Hf0 & Hd0 & Hout). injection Hf0 as <-. injection Hd0 as <-.
      congruence.
  - intros Hrun. simpl in Hrun. injection Hrun as <- <-. left.
    split; [reflexivity |]. split; [reflexivity |]. split; [reflexivity |].
    exists f, d. auto.
Qed.

End UploadRefused.

(** X20: an upload is answered 403 exactly when a file was uploaded, the
    [path] field is a string or absent, and the join of the root, that
    field and the original name of the file does not start with the root,
    as a string.  The refusal takes no filesystem step and leaves the tree
    as it was: the file that multer stored stays under [uploads/]. *)
Theorem upload_denied_iff (h : host) (req : request) (t t' : tree) (r : response) :
  App.serve h App.POST_api_upload req t = (inr r, t') ->
  (status r = 403 <-> upload_outside_prefix h req) /\
  (status r = 403 -> t' = t /\ trace h (App.post_api_upload h req) t = []).
Proof.
  intros Hrun.
  destruct (upload_cases h req t t' r Hrun) as [(H403 & Ht & Htrace & Hout) | [Hnot Hin]].
  - split; [split; auto | auto].
  - split; [split; [intros H; contradiction | intros H; contradiction] | intros H; contradiction].
Qed.

Lemma upload_denied_iff_witness :
  (status (status_json 403 (App.error_body "Access denied")) = 403 <->
   upload_outside_prefix docker (upload_to "../..")) /\
  (status (status_json 403 (App.error_body "Access denied")) = 403 ->
   (App.serve docker App.POST_api_upload (upload_to "../..") www_uploading).2 = www_uploading /\
   trace docker (App.post_api_upload docker (upload_to "../..")) www_uploading = []).
Proof.
  apply (upload_denied_iff docker (upload_to "../..") www_uploading
           (App.serve docker App.POST_api_upload (upload_to "../..") www_uploading).2).
  apply pair_of_fst. vm_compute. reflexivity.
Defined.


(** ** What an upload leaves alone *)

Section UploadFrame.

Variable h : host.

(** Making the parent of a destination keeps what is there. *)
Lemma parent_made (dest : string) (t t1 : tree) (r1 : js_error + unit) :
  run h (if String.eqb (Path.dirname dest) "/" then Ret tt
         else Lib.ensureDir (Path.dirname dest)) t = (r1, t1) ->
  forall k n, t !! k = Some n -> t1 !! k = Some n.
Proof.
  destruct (String.eqb (Path.dirname dest) "/").
  - intros H. injection H as <- <-. auto.
  - rewrite run_ensureDir. destruct (Str.has_char Str.nul (Path.dirname dest)).
    + intros H. injection H as <- <-. auto.
    + intros Hmk. apply exec_mkdirp_inv in Hmk as [(e & _ & ->) | (_ & Hmk)]; [auto |].
      eapply mkdirs_preserves. exact Hmk.
Qed.

(** Removing a destination that was not a directory leaves a source
    file elsewhere in place, and everything that is not below the
    destination. *)
Lemma destination_cleared (src dest : string) (t t1 t2 : tree) (r2 : js_error + unit)
    (ks : list string) (c : string) :
  Fs.lookup_path h t src = inr (ks, Some (File c)) ->
  Fs.key h dest <> ks ->
  (forall k, Fs.lookup_path h t dest <> inr (k, Some Dir)) ->
  Fs.lookup_path h t1 src = inr (ks, Some (File c)) ->
  Fs.exec h (Rm dest) t1 = (r2, t2) ->
  Fs.lookup_path h t2 src = inr (ks, Some (File c)) /\
  forall k n, Fs.is_under (Fs.key h dest) k = false -> t1 !! k = Some n -> t2 !! k = Some n.
Proof.
  intros Hsrc Hne Hnodir Hsrc1 Hrm.
  apply exec_rm_effect in Hrm as [-> | (_ & n & Hdest1 & ->)]; [auto |].
  assert (Hunder : Fs.is_under (Fs.key h dest) ks = false).
  { destruct (Fs.is_under (Fs.key h dest) ks) eqn:Hu; [| reflexivity]. exfalso.
    apply above_is_ancestor in Hu; [| exact Hne].
    apply (Hnodir (Fs.key h dest)).
    unfold Fs.lookup_path in Hdest1 |- *.
    destruct (String.eqb dest ""); [discriminate |].
    assert (Hb : Fs.blocked t (Fs.ancestors (Fs.key h dest)) = None).
    { apply blocked_none. intros a Ha.
      apply (lookup_path_ancestors h t src ks _ Hsrc).
      eapply ancestors_of_ancestor; eassumption. }
    rewrite Hb, (lookup_path_ancestors h t src ks _ Hsrc _ Hu). reflexivity. }
  split.
  - rewrite <- Hsrc1. pose proof (lookup_path_key h t src ks _ Hsrc) as Hks.
    apply lookup_path_agree; rewrite <- Hks.
    + intros a Ha. apply node_at_prune.
      destruct (Fs.is_under (Fs.key h dest) a) eqn:Hua; [| reflexivity].
      rewrite (is_under_trans _ a ks Hua (ancestor_is_above _ _ Ha)) in Hunder.
      discriminate.
    + apply node_at_prune. exact Hunder.
  - intros k n0 Hk Hn. rewrite lookup_prune, Hk. exact Hn.
Qed.

(** What renaming a file does to the tree. *)
Lemma rename_file_tree (src dest : string) (t t' : tree) (res : js_error + unit)
    (ks : list string) (c : string) :
  Fs.lookup_path h t src = inr (ks, Some (File c)) ->
  Fs.exec h (Rename src dest) t = (res, t') ->
  t' = t \/ t' = <[Fs.key h dest := File c]> (delete ks t).
Proof.
  intros Hsrc Hexec. cbn [Fs.exec] in Hexec. unfold Fs.rename in Hexec.
  rewrite Hsrc in Hexec.
  destruct (Fs.lookup_path h t dest) as [e | [kd d]] eqn:Hdest.
  { injection Hexec as <- <-. left. reflexivity. }
  pose proof (lookup_path_key h t dest kd d Hdest) as ->.
  destruct d as [[c0 |] |]; [| injection Hexec as <- <-; left; reflexivity |];
    destruct (Str.last_is Str.slash dest); injection Hexec as <- <-; auto.
Qed.

Lemma is_under_self_false (k k' : list string) :
  Fs.is_under k k' = false -> k' <> k.
Proof. intros H ->. rewrite is_under_refl in H. discriminate. Qed.

Lemma move_tail_frame (src dest : string) (t t' : tree) (res : js_error + unit)
    (ks : list string) (c : string) :
  Fs.lookup_path h t src = inr (ks, Some (File c)) ->
  Str.has_char Str.nul dest = false ->
  Fs.key h dest <> ks ->
  (forall k, Fs.lookup_path h t dest <> inr (k, Some Dir)) ->
  run h (bind (if String.eqb (Path.dirname dest) "/" then Ret tt
               else Lib.ensureDir (Path.dirname dest))
              (fun _ => bind (Lib.remove dest) (fun _ => await (Rename src dest)))) t
    = (res, t') ->
  forall k n, k <> ks -> Fs.is_under (Fs.key h dest) k = false ->
              t !! k = Some n -> t' !! k = Some n.
Proof.
  intros Hsrc Hnul Hne Hnodir Hrun k n Hk Hunder Hn.
  rewrite run_bind in Hrun.
  destruct (run h (if String.eqb (Path.dirname dest) "/" then Ret tt
                   else Lib.ensureDir (Path.dirname dest)) t) as [r1 t1] eqn:Hrun1.
  pose proof (parent_made dest t t1 r1 Hrun1) as Hkeep.
  destruct r1 as [e | []]; [injection Hrun as <- <-; auto |].
  pose proof (lookup_path_keeps h t t1 src ks _ Hsrc Hkeep) as Hsrc1.
  rewrite run_bind in Hrun. unfold Lib.remove in Hrun.
  rewrite run_validated, Hnul, run_await in Hrun.
  destruct (Fs.exec h (Rm dest) t1) as [r2 t2] eqn:Hrm.
  destruct (destination_cleared src dest t t1 t2 r2 ks c Hsrc Hne Hnodir Hsrc1 Hrm)
    as [Hsrc2 Hkeep2].
  pose proof (Hkeep2 k n Hunder (Hkeep k n Hn)) as Hn2.
  destruct r2 as [e | []]; [injection Hrun as <- <-; exact Hn2 |].
  rewrite run_await in Hrun.
  destruct (rename_file_tree src dest t2 t' res ks c Hsrc2 Hrun) as [-> | ->];
    [exact Hn2 |].
  rewrite lookup_insert_ne by (apply not_eq_sym, is_under_self_false; exact Hunder).
  rewrite lookup_delete_ne by congruence. exact Hn2.
Qed.

(** [move] of a file changes nothing but the source and what lies at or
    below the destination; it may add directories. *)
Lemma move_frame (src dest : string) (t t' : tree) (res : js_error + unit)
    (ks : list string) (c : string) :
  Fs.lookup_path h t src = inr (ks, Some (File c)) ->
  dest <> "" ->
  run h (Lib.move h src dest true) t = (res, t') ->
  forall k n, k <> ks -> Fs.is_under (Fs.key h dest) k = false ->
              t !! k = Some n -> t' !! k = Some n.
Proof.
  intros Hsrc Hdest0 Hrun.
  pose proof (lookup_path_key h t src ks _ Hsrc) as Hks.
  unfold Lib.move in Hrun. cbv zeta in Hrun.
  rewrite run_bind, run_validated in Hrun.
  destruct (Str.has_char Str.nul src).
  { injection Hrun as <- <-. auto. }
  rewrite run_await in Hrun. cbn [Fs.exec] in Hrun. unfold Fs.stat_as in Hrun at 1.
  rewrite Hsrc in Hrun. cbn [Fs.stats_of] in Hrun.
  rewrite run_bind, run_validated in Hrun.
  destruct (Str.has_char Str.nul dest) eqn:Hnul.
  { injection Hrun as <- <-. auto. }
  cbn [run Fs.exec isDirectory andb negb] in Hrun. unfold Fs.stat_as in Hrun.
  destruct (Fs.lookup_path h t dest) as [e | [kd [nd |]]] eqn:Hdest.
  - destruct e; cbn [run] in Hrun;
      try (injection Hrun as <- <-; auto; fail).
    eapply move_tail_frame;
      [exact Hsrc | exact Hnul | | intros k; rewrite Hdest; discriminate | exact Hrun].
    intros Hsame. unfold Fs.lookup_path in Hdest.
    apply String.eqb_neq in Hdest0. rewrite Hdest0, Hsame in Hdest.
    assert (Hb : Fs.blocked t (Fs.ancestors ks) = None).
    { apply blocked_none. eapply lookup_path_ancestors. exact Hsrc. }
    rewrite Hb, (lookup_path_node h t src ks _ Hsrc) in Hdest.
    destruct (Str.last_is Str.slash dest); discriminate.
  - pose proof (lookup_path_key h t dest kd _ Hdest) as ->.
    cbn [run] in Hrun.
    destruct (bool_decide (Fs.key h src = Fs.key h dest)) eqn:Hsame.
    { injection Hrun as <- <-. auto. }
    apply bool_decide_eq_false in Hsame.
    destruct nd as [c0 |]; cbn [Fs.stats_of isDirectory] in Hrun.
    + eapply move_tail_frame; [exact Hsrc | exact Hnul | congruence | | exact Hrun].
      intros k. rewrite Hdest. discriminate.
    + injection Hrun as <- <-. auto.
  - pose proof (lookup_path_key h t dest kd _ Hdest) as ->.
    cbn [run] in Hrun.
    eapply move_tail_frame;
      [exact Hsrc | exact Hnul | | intros k; rewrite Hdest; discriminate | exact Hrun].
    intros Hsame. pose proof (lookup_path_node h t dest _ _ Hdest) as Hnone.
    rewrite Hsame, (lookup_path_node h t src ks _ Hsrc) in Hnone. discriminate.
Qed.

Lemma upload_frame (req : request) (t t' : tree) (r : response) (f : upload)
    (ks : list string) (c : string) :
  file req = Some f ->
  Fs.lookup_path h t (upload_path f) = inr (ks, Some (File c)) ->
  App.serve h App.POST_api_upload req t = (inr r, t') ->
  t' = t \/
  exists d,
    js_or (prop (body req) "path") (VStr "") = VStr d /\
    forall k n,
      k <> ks ->
      Fs.is_under (Fs.key h (Path.join [App.FILES_DIR h; d; originalname f])) k = false ->
      t !! k = Some n -> t' !! k = Some n.
Proof.
  intros Hf Hsrc Hrun.
  unfold App.serve, App.route, App.post_api_upload in Hrun. rewrite Hf in Hrun.
  cbv zeta in Hrun. unfold Lib.path_join in Hrun.
  destruct (js_or (prop (body req) "path") (VStr "")) as [| | b | n | d | dt | l | fs] eqn:Hd;
    try (simpl in Hrun; injection Hrun as <- <-; left; reflexivity).
  cbn [Lib.strings_of bind] in Hrun.
  destruct (Str.startsWith _ _) eqn:Hprefix; cbn [negb] in Hrun.
  2: { simpl in Hrun. injection Hrun as <- <-. left. reflexivity. }
  right. exists d. split; [reflexivity |]. intros k n Hk Hunder Hn.
  rewrite run_try_catch, run_bind, run_ensureDir in Hrun.
  destruct (Str.has_char Str.nul (Path.dirname _)).
  { simpl in Hrun. injection Hrun as <- <-. exact Hn. }
  destruct (Fs.exec h (Mkdirp _) t) as [r0 t0] eqn:Hmk.
  assert (Hkeep : forall k n, t !! k = Some n -> t0 !! k = Some n).
  { apply exec_mkdirp_inv in Hmk as [(e & _ & ->) | (_ & Hmk)]; [auto |].
    eapply mkdirs_preserves. exact Hmk. }
  destruct r0 as [e | []].
  { simpl in Hrun. injection Hrun as <- <-. auto. }
  rewrite run_bind in Hrun.
  destruct (run h (Lib.move h _ _ true) t0) as [res t1] eqn:Hmove.
  assert (Hn1 : t1 !! k = Some n).
  { eapply (move_frame _ _ t0 t1 res ks c); [| apply join_nonempty | exact Hmove | | |];
      [eapply lookup_path_keeps; eassumption | exact Hk | exact Hunder | auto]. }
  destruct res as [e | []]; simpl in Hrun; injection Hrun as <- <-; exact Hn1.
Qed.

End UploadFrame.

(** X21: an upload leaves everything else alone.  Whatever its outcome,
    an upload of a file that multer stored removes or changes no entry
    other than the stored file itself and what lies at or below its
    target: every other file or directory is still there afterwards,
    unchanged (directories on the way to the target may have been
    added). *)
Theorem upload_touches_only_source_and_target (h : host) (req : request) (t t' : tree)
    (r : response) (f : upload) (ks : list string) (c d : string) :
  file req = Some f ->
  Fs.lookup_path h t (upload_path f) = inr (ks, Some (File c)) ->
  js_or (prop (body req) "path") (VStr "") = VStr d ->
  App.serve h App.POST_api_upload req t = (inr r, t') ->
  forall k n,
    k <> ks ->
    Fs.is_under (Fs.key h (Path.join [App.FILES_DIR h; d; originalname f])) k = false ->
    t !! k = Some n -> t' !! k = Some n.
Proof.
  intros Hf Hsrc Hd Hrun k n Hk Hunder Hn.
  destruct (upload_frame h req t t' r f ks c Hf Hsrc Hrun) as [-> | (d0 & Hd0 & Hframe)];
    [exact Hn |].
  rewrite Hd in Hd0. injection Hd0 as <-. apply Hframe; assumption.
Qed.

Lemma upload_touches_only_source_and_target_witness :
  (App.serve docker App.POST_api_upload (upload_to "img") www_uploading).2 !! index_html
  = Some (File "<h1>hi</h1>").
Proof.
  apply (upload_touches_only_source_and_target docker (upload_to "img") www_uploading _
           (json (VObj [("success", VBool true); ("path", VStr "img/pic.png")]))
           stored_upload stored_key "data" "img").
  - reflexivity.
  - vm_compute. reflexivity.
  - reflexivity.
  - apply pair_of_fst. vm_compute. reflexivity.
  - vm_compute. discriminate.
  - vm_compute. reflexivity.
  - vm_compute. reflexivity.
Defined.

(** ** Examples *)

Example join_plain : Path.join ["/var/www/html"; "a/b.txt"] = "/var/www/html/a/b.txt".
Proof. reflexivity. Qed.

Example join_dots : Path.join ["/var/www/html"; "../../etc/passwd"] = "/var/etc/passwd".
Proof. reflexivity. Qed.

Example join_sibling :
  Path.join ["/var/www/html"; "../html-secret/x"] = "/var/www/html-secret/x".
Proof. reflexivity. Qed.

Example join_trailing : Path.join ["/var/www/html"; "a/./b//"] = "/var/www/html/a/b/".
Proof. reflexivity. Qed.

Example join_relative : Path.join ["files"; "../../x"] = "../x".
Proof. reflexivity. Qed.

Example dirname_file : Path.dirname "/var/www/html/a/b.txt" = "/var/www/html/a".
Proof. reflexivity. Qed.

Example dirname_trailing : Path.dirname "/var/www/html/a/" = "/var/www/html".
Proof. reflexivity. Qed.

Example dirname_top : Path.dirname "/a" = "/".
Proof. reflexivity. Qed.

Example dirname_double : Path.dirname "//a" = "//".
Proof. reflexivity. Qed.

Example dirname_bare : Path.dirname "a" = ".".
Proof. reflexivity. Qed.

Example relative_sibling :
  Path.relative "/usr/src/app" "/var/www/html" "/var/www/html-secret/x" = "../html-secret/x".
Proof. reflexivity. Qed.

Example relative_inside :
  Path.relative "/usr/src/app" "/var/www/html" "/var/www/html/a/b.txt" = "a/b.txt".
Proof. reflexivity. Qed.

(** A path that leaves the root through [..] and does not keep the root
    as a string prefix is refused before any filesystem step. *)
Example traversal_is_refused :
  run docker (App.get_api_files_content docker (with_query "../../etc/passwd")) www =
    (inr (status_json 403 (App.error_body "Access denied")), www) /\
  trace docker (App.get_api_files_content docker (with_query "../../etc/passwd")) www = [].
Proof. split; reflexivity. Qed.

(** The scenario of the specification: write [hello] to [a/b.txt], list
    [a], read the file back, delete it, list [a] again. *)
Example scenario :
  let t1 := (App.serve docker App.POST_api_files
               (with_body [("filePath", VStr "a/b.txt"); ("content", VStr "hello")]) www).2 in
  let t2 := (App.serve docker App.DELETE_api_files (with_query "a/b.txt") t1).2 in
  (App.serve docker App.GET_api_files (with_query "a") t1).1 =
    inr (json (VArr [VObj [("name", VStr "b.txt"); ("path", VStr "a/b.txt");
                           ("isDirectory", VBool false); ("size", VNum 5);
                           ("modified", VDate 0)]])) /\
  (App.serve docker App.GET_api_files_content (with_query "a/b.txt") t1).1 =
    inr (json (VObj [("content", VStr "hello")])) /\
  (App.serve docker App.GET_api_files (with_query "a") t2).1 = inr (json (VArr [])).
Proof. cbv zeta. repeat split; vm_compute; reflexivity. Qed.

(** What is read from bytes that are not UTF-8, and what is written for
    a string that has no encoding. *)
Example decode_png : Utf8.decode png_signature = Utf8.replacement +:+ "PNG".
Proof. reflexivity. Qed.

Example encode_lone_surrogate : Utf8.encode lone_surrogate = Utf8.replacement.
Proof. reflexivity. Qed.

(** Bytes [ED A0 80] found in a file are three bytes that start
    nothing. *)
Example decode_surrogate_bytes :
  Utf8.decode lone_surrogate = Utf8.replacement +:+ Utf8.replacement +:+ Utf8.replacement.
Proof. reflexivity. Qed.

(** [F0 9F 98] cut short before its last byte is one ill-formed part. *)
Example decode_truncated :
  Utf8.decode (String (ascii_of_nat 240) (String (ascii_of_nat 159)
                 (String (ascii_of_nat 152) "a"))) = Utf8.replacement +:+ "a".
Proof. reflexivity. Qed.

(** [E0 80]: the second byte cannot follow the first, and starts
    nothing either. *)
Example decode_overlong :
  Utf8.decode (String (ascii_of_nat 224) (String (ascii_of_nat 128) ""))
  = Utf8.replacement +:+ Utf8.replacement.
Proof. reflexivity. Qed.

(** U+1F600, [F0 9F 98 80], is read as it is. *)
Example decode_four_bytes :
  let s := String (ascii_of_nat 240) (String (ascii_of_nat 159)
             (String (ascii_of_nat 152) (String (ascii_of_nat 128) ""))) in
  Utf8.isUtf8 s = true /\ Utf8.decode s = s /\ Utf8.encode s = s.
Proof. repeat split. Qed.

(** An upload whose file comes in a field other than [file] is refused
    by multer, and answered by Express. *)
Example refused_form_gets_error_page :
  (App.receive docker App.POST_api_upload (VObj []) App.BadForm www).1
  = inr (App.ErrorPage 500).
Proof. reflexivity. Qed.

(** A JSON body sent to the upload route is parsed, passes multer
    untouched, and carries no file. *)
Example json_sent_to_upload :
  (App.receive docker App.POST_api_upload (VObj [])
     (App.Json (VObj [("path", VStr "img")])) www).1
  = inr (App.Answer (status_json 400 (App.error_body "No file uploaded"))).
Proof. reflexivity. Qed.

(** A form sent to the write route is not read: the handler finds the
    body [{}]. *)
Example form_sent_to_write :
  (App.receive docker App.POST_api_files (VObj [])
     (App.Form [("filePath", VStr "a.txt")] None) www).1
  = inr (App.Answer (status_json 400 (App.error_body "File path is required"))).
Proof. reflexivity. Qed.
